(** * MatteoLore: the statistics aggregation engine of [main.py]

    A shallow embedding of the two classes of [src/main.py]:

    - [Queries]: the transport ([query], [query_rest]) with its fallback
      channel and its retry loop on HTTP 202;
    - [Stats]: the paginated fold of [get_stats], the percentage
      derivation, the memoised accessors and [total_contributions].

    Python values are modelled by the JSON values the GitHub API returns;
    every operation the code performs on them ([.get], [+=], [in], [for],
    truth tests, [sum], [/]) is modelled with the exception Python raises
    when the operand has the wrong type.  A raised exception is a value
    ([Err], [Raise]); state is threaded explicitly, and a mutation made
    before an exception is raised stays visible afterwards, as in Python.
    Python floats (the percentages) are IEEE 754 binary64 numbers, with
    the rounding operations of the Standard Library's [SpecFloat]. *)

From Stdlib Require Import ZArith List String Ascii Bool Arith Lia.
From Stdlib Require Import Permutation Sorted DecimalString SpecFloat.
Import ListNotations.

Set Warnings "-register-all".

Local Close Scope list_scope.
Local Open Scope string_scope.
Local Open Scope list_scope.
Local Open Scope Z_scope.

(* ================================================================== *)
(** * Python values, exceptions and operations *)
(* ================================================================== *)

Module Py.

(** The values that [json()] can return.  JSON numbers are integers here:
    every number the GraphQL schema of the queries returns (counts, sizes,
    years) is an [Int].  A dict is the list of its items in insertion order,
    each key once. *)
Inductive json : Type :=
| JNull
| JBool (b : bool)
| JInt (z : Z)
| JStr (s : string)
| JList (l : list json)
| JDict (d : list (string * json)).

(** The exceptions the modelled code can raise.  [ChannelError] stands for
    whatever a network channel raises (connection, timeout, decoding). *)
Inductive exn : Type :=
| AttributeError
| TypeError
| ZeroDivisionError
| OverflowError
| KeyError
| ValueError
| AssertionError
| ChannelError (what : string).

(** The result of an expression or of a call that always ends: a value,
    or the exception raised. *)
Inductive result (A : Type) : Type :=
| Ok (a : A)
| Err (e : exn).

Arguments Ok {A} a.
Arguments Err {A} e.

Definition rbind {A B : Type} (r : result A) (k : A -> result B) : result B :=
  match r with
  | Ok a => k a
  | Err e => Err e
  end.

(** The result of running code that contains a [while True] loop.
    [OutOfFuel] has no Python counterpart: it is the answer of the model
    when the iteration budget it was given is spent. *)
Inductive outcome (A : Type) : Type :=
| Return (a : A)
| Raise (e : exn)
| OutOfFuel.

Arguments Return {A} a.
Arguments Raise {A} e.
Arguments OutOfFuel {A}.

(** Lookup in a dict, first binding of the key. *)
Fixpoint assoc (k : string) (d : list (string * json)) : option json :=
  match d with
  | [] => None
  | (k', v) :: d' => if String.eqb k k' then Some v else assoc k d'
  end.

(** [x.get(k, default)]: only a dict has the method. *)
Definition py_get (x : json) (k : string) (default : json) : result json :=
  match x with
  | JDict d => Ok (match assoc k d with Some v => v | None => default end)
  | _ => Err AttributeError
  end.

(** [x.values()]. *)
Definition py_values (x : json) : result (list json) :=
  match x with
  | JDict d => Ok (map snd d)
  | _ => Err AttributeError
  end.

Definition is_none (x : json) : bool :=
  match x with JNull => true | _ => false end.

(** Truth value of an object, as [if] and [or] test it. *)
Definition truthy (x : json) : bool :=
  match x with
  | JNull => false
  | JBool b => b
  | JInt z => negb (z =? 0)
  | JStr s => negb (String.eqb s "")
  | JList l => match l with [] => false | _ => true end
  | JDict d => match d with [] => false | _ => true end
  end.

(** Integers, and booleans as the integers they are in Python. *)
Definition as_int (x : json) : option Z :=
  match x with
  | JInt z => Some z
  | JBool true => Some 1
  | JBool false => Some 0
  | _ => None
  end.

Definition chars (s : string) : list json :=
  map (fun c => JStr (String c EmptyString)) (list_ascii_of_string s).

(** [iter(x)]: the elements of a list, the keys of a dict, the characters
    of a string. *)
Definition py_iter (x : json) : result (list json) :=
  match x with
  | JList l => Ok l
  | JDict d => Ok (map (fun kv => JStr (fst kv)) d)
  | JStr s => Ok (chars s)
  | _ => Err TypeError
  end.

(** [a += b] (and [a + b] where [a] is an integer). *)
Definition py_iadd (a b : json) : result json :=
  match a with
  | JList l =>
      match py_iter b with
      | Ok xs => Ok (JList (l ++ xs))
      | _ => Err TypeError
      end
  | JStr s =>
      match b with
      | JStr t => Ok (JStr (s ++ t)%string)
      | _ => Err TypeError
      end
  | _ =>
      match as_int a, as_int b with
      | Some x, Some y => Ok (JInt (x + y))
      | _, _ => Err TypeError
      end
  end.

(** [n += b] for an integer attribute [n]. *)
Definition int_iadd (n : Z) (b : json) : result Z :=
  match as_int b with
  | Some y => Ok (n + y)
  | None => Err TypeError
  end.

(** [sum(xs)], which starts from the integer 0. *)
Fixpoint py_sum_from (n : Z) (xs : list json) : result Z :=
  match xs with
  | [] => Ok n
  | x :: xs' => rbind (int_iadd n x) (fun n' => py_sum_from n' xs')
  end.

Definition py_sum (xs : list json) : result Z := py_sum_from 0 xs.

(** ** Floats

    A Python float is an IEEE 754 binary64 number: a [spec_float] with a
    mantissa of 53 bits and 1024 as the exponent of the infinities.  The
    operations round to nearest, ties to even. *)
Definition float : Type := spec_float.

Definition prec : Z := 53.
Definition emax : Z := 1024.

(** [x * y], [x < y] and [x == y] on floats. *)
Definition float_mul (x y : float) : float := SFmul prec emax x y.
Definition float_ltb (x y : float) : bool := SFltb x y.
Definition float_eqb (x y : float) : bool := SFeqb x y.

(** [float(100)], which is exact. *)
Definition float100 : float := binary_normalize prec emax 100 0 false.

(** The number [0] that [.get("prop", 0)] answers: an integer, which
    compares and formats as the float [0.0] does. *)
Definition float0 : float := S754_zero false.

(** An integer as a sign and a magnitude, with the exponent 0: the
    operand of a division, of any size. *)
Definition magnitude (z : Z) : float :=
  match z with
  | Z0 => S754_zero false
  | Zpos p => S754_finite false p 0
  | Zneg p => S754_finite true p 0
  end.

(** [a / n] for an integer [n]: true division of two integers.  Python
    rounds the exact quotient, whatever the size of the operands, and
    raises when the rounded quotient is beyond the largest float. *)
Definition py_truediv (a : json) (n : Z) : result float :=
  match as_int a with
  | Some x =>
      if n =? 0 then Err ZeroDivisionError
      else match SFdiv prec emax (magnitude x) (magnitude n) with
           | S754_infinity _ => Err OverflowError
           | q => Ok q
           end
  | None => Err TypeError
  end.

(** Hashable values: what can be a member of a set or a key of a dict. *)
Definition hashable (x : json) : bool :=
  match x with
  | JList _ | JDict _ => false
  | _ => true
  end.

(** Equality of hashable values ([True == 1] and [False == 0] in Python). *)
Definition key_eqb (a b : json) : bool :=
  match a, b with
  | JNull, JNull => true
  | JStr s, JStr t => String.eqb s t
  | _, _ =>
      match as_int a, as_int b with
      | Some x, Some y => x =? y
      | _, _ => false
      end
  end.

(** [x in s] for a set [s]. *)
Definition set_contains (x : json) (s : list json) : result bool :=
  if hashable x then Ok (existsb (key_eqb x) s) else Err TypeError.

(** ** State with exceptions *)

Definition M (S A : Type) : Type := S -> outcome A * S.

Definition ret {S A : Type} (a : A) : M S A := fun s => (Return a, s).

Definition bind {S A B : Type} (m : M S A) (k : A -> M S B) : M S B :=
  fun s =>
    match m s with
    | (Return a, s') => k a s'
    | (Raise e, s') => (Raise e, s')
    | (OutOfFuel, s') => (OutOfFuel, s')
    end.

Definition lift {S A : Type} (r : result A) : M S A :=
  fun s => (match r with Ok a => Return a | Err e => Raise e end, s).

Definition get {S : Type} : M S S := fun s => (Return s, s).

(** Reading an attribute, and assigning one. *)
Definition gets {S X : Type} (f : S -> X) : M S X := fun s => (Return (f s), s).

Definition modify {S : Type} (f : S -> S) : M S unit := fun s => (Return tt, f s).

(** [for x in l: body(x)]; a [continue] is a body that returns early. *)
Fixpoint for_each {S A : Type} (l : list A) (body : A -> M S unit) : M S unit :=
  match l with
  | [] => ret tt
  | x :: l' => bind (body x) (fun _ => for_each l' body)
  end.

(** Code that leaves the part [f] of the state as it was, however it
    ends. *)
Definition preserves {S A X : Type} (f : S -> X) (m : M S A) : Prop :=
  forall s o s', m s = (o, s') -> f s' = f s.

End Py.

Declare Scope py_scope.
Delimit Scope py_scope with py.
Notation "x <- m ;; k" := (Py.bind m (fun x => k))
  (at level 100, m at next level, right associativity) : py_scope.
Notation "m ;;; k" := (Py.bind m (fun _ => k))
  (at level 100, right associativity) : py_scope.

Local Open Scope py_scope.

(* ================================================================== *)
(** * [class Queries]: the transport *)
(* ================================================================== *)

Module Queries.
Import Py.

(** What a channel hands back: the HTTP status and what [json()] does on
    the response (it decodes the body, or raises). *)
Record response : Type := { status : Z; body : result json }.

(** What a call does besides returning, in order.  The semaphore is not
    traced: it has ten slots and the calls modelled here are made one at a
    time, so a slot is always free and acquiring and releasing it changes
    neither the result nor the order of the requests. *)
Inductive event : Type :=
| EPrimary (target : string)    (* a request through the aiohttp session *)
| EFallback (target : string)   (* a request through [requests] *)
| ESleep (seconds : Z)          (* [asyncio.sleep] *)
| EPrint (msg : string).

Definition is_primary (e : event) : bool :=
  match e with EPrimary _ => true | _ => false end.
Definition is_fallback (e : event) : bool :=
  match e with EFallback _ => true | _ => false end.
Definition is_sleep (e : event) : bool :=
  match e with ESleep _ => true | _ => false end.

Definition sleeps (tr : list event) : list Z :=
  flat_map (fun e => match e with ESleep n => [n] | _ => [] end) tr.

Definition msg_graphql_failed : string := "aiohttp failed for GraphQL query".
Definition msg_rest_failed : string := "aiohttp failed for rest query".
Definition msg_retry : string := "A path returned 202. Retrying...".
Definition msg_too_many : string :=
  "There were too many 202s. Data for this repository will be incomplete.".

Definition graphql_url : string := "https://api.github.com/graphql".

(** [result if result is not None], else fall out of the [try]. *)
Definition not_none_or (default : json) (r : json) : json :=
  if is_none r then default else r.

Section GraphQL.

(** The two channels: [session.post] and [requests.post]. *)
Variable session_post : string -> result response.
Variable requests_post : string -> result response.

(** [Queries.query] (lines 36-68). *)
Definition query (generated_query : string) : list event * result json :=
  match rbind (session_post generated_query) body with
  | Ok r => ([EPrimary graphql_url], Ok (not_none_or (JDict []) r))
  | Err _ =>
      let tr := [EPrimary graphql_url; EPrint msg_graphql_failed;
                 EFallback graphql_url] in
      match rbind (requests_post generated_query) body with
      | Ok r => (tr, Ok (not_none_or (JDict []) r))
      | Err e => (tr, Err e)
      end
  end.

End GraphQL.

Section Rest.

Definition params_t : Type := list (string * string).

(** The two channels: [session.get] and [requests.get], as functions of
    the index of the attempt (0 for the first round of the loop), of the
    URL and of the query parameters. *)
Variable session_get : nat -> string -> params_t -> result response.
Variable requests_get : nat -> string -> params_t -> result response.

(** [path[1:] if path.startswith("/")]. *)
Definition strip_slash (path : string) : string :=
  match path with
  | String "/"%char rest => rest
  | _ => path
  end.

Definition rest_url (path : string) : string :=
  ("https://api.github.com/" ++ path)%string.

(** The [except] branch of one round: [None] is [continue] (or falling
    off the end of the body), [Some r] leaves the function. *)
Definition rest_fallback (i : nat) (url : string) (params : params_t)
  : list event * option (result json) :=
  let tr := [EPrint msg_rest_failed; EFallback url] in
  match requests_get i url params with
  | Err e => (tr, Some (Err e))
  | Ok r =>
      if status r =? 202 then (tr ++ [EPrint msg_retry; ESleep 2], None)
      else if status r =? 200 then (tr, Some (body r))
      else (tr, None)
  end.

(** One round of the loop (lines 79-116). *)
Definition rest_attempt (i : nat) (url : string) (params : params_t)
  : list event * option (result json) :=
  match session_get i url params with
  | Ok r =>
      if status r =? 202 then
        ([EPrimary url; EPrint msg_retry; ESleep 2], None)
      else
        match body r with
        | Ok v =>
            if is_none v then ([EPrimary url], None)
            else ([EPrimary url], Some (Ok v))
        | Err _ =>
            let '(tr, o) := rest_fallback i url params in
            (EPrimary url :: tr, o)
        end
  | Err _ =>
      let '(tr, o) := rest_fallback i url params in
      (EPrimary url :: tr, o)
  end.

(** [for _ in range(n)] from round [i] on; [path] and [params] are the
    local variables the body reassigns. *)
Fixpoint query_rest_loop (n i : nat) (path : string) (params : option params_t)
  : list event * result json :=
  match n with
  | O => ([EPrint msg_too_many], Ok (JDict []))
  | S n' =>
      let params' := match params with Some p => p | None => [] end in
      let path' := strip_slash path in
      let '(tr, o) := rest_attempt i (rest_url path') params' in
      match o with
      | Some r => (tr, r)
      | None =>
          let '(tr', r) := query_rest_loop n' (S i) path' (Some params') in
          (tr ++ tr', r)
      end
  end.

(** [Queries.query_rest] (lines 70-119). *)
Definition query_rest (path : string) (params : option params_t)
  : list event * result json :=
  query_rest_loop 60 0 path params.

(** The primary channel raised in round [i]: the request itself, or the
    decoding of a response whose status is not 202. *)
Definition primary_raised (i : nat) (url : string) (params : params_t) : bool :=
  match session_get i url params with
  | Err _ => true
  | Ok r => if status r =? 202 then false
            else match body r with Err _ => true | Ok _ => false end
  end.

(** Round [i] indicates "accepted, not ready": the response of the
    primary channel has status 202, or that channel raised and the
    response of the fallback has status 202. *)
Definition pending (i : nat) (url : string) (params : params_t) : Prop :=
  match session_get i url params with
  | Ok r => status r = 202
  | Err _ =>
      match requests_get i url params with
      | Ok r => status r = 202
      | Err _ => False
      end
  end.

(** A round leaves the function with an exception only when the
    fallback channel raised it. *)
Definition fallback_raises (e : exn) : Prop :=
  exists i url params,
    primary_raised i url params = true /\
    (requests_get i url params = Err e \/
     exists r, requests_get i url params = Ok r /\ status r = 200 /\ body r = Err e).

End Rest.

(** ** Measures of a trace, and channels for the runs *)

Definition attempts (tr : list event) : nat := List.length (filter is_primary tr).
Definition fallbacks (tr : list event) : nat := List.length (filter is_fallback tr).

(** The attempts and the sleeps of a trace, in order: [false] for an
    attempt on the primary channel, [true] for a sleep. *)
Definition rhythm (tr : list event) : list bool :=
  map is_sleep (filter (fun e => is_primary e || is_sleep e) tr).

Definition raised {A : Type} (r : result A) : Prop :=
  match r with Err _ => True | Ok _ => False end.

Definition down (what : string) : string -> result response :=
  fun _ => Err (ChannelError what).

Definition down_get (what : string) : nat -> string -> params_t -> result response :=
  fun _ _ _ => Err (ChannelError what).

Definition always_202 : nat -> string -> params_t -> result response :=
  fun _ _ _ => Ok {| status := 202; body := Ok JNull |}.

(** The generated GraphQL queries, as the values that determine their text. *)
Inductive request : Type :=
| ReposOverview (owned_cursor contrib_cursor : option string)
| ContribYears
| AllContribs (years : list json).

(** A cursor spliced into the query text: [None] gives [null], a string is
    quoted, and ['"' + cursor + '"'] raises on anything else. *)
Definition cursor_arg (c : json) : result (option string) :=
  match c with
  | JNull => Ok None
  | JStr s => Ok (Some s)
  | _ => Err TypeError
  end.

(** [Queries.repos_overview] (lines 121-200). *)
Definition repos_overview (contrib_cursor owned_cursor : json) : result request :=
  rbind (cursor_arg owned_cursor) (fun o =>
  rbind (cursor_arg contrib_cursor) (fun c =>
  Ok (ReposOverview o c))).

(** [Queries.contrib_years] (lines 202-215). *)
Definition contrib_years : request := ContribYears.

End Queries.

(* ================================================================== *)
(** * [class Stats]: the accumulator and its accessors *)
(* ================================================================== *)

Module Stats.
Import Py Queries.

(** A value of the [_languages] dict: [{"size": ..., "prop": ...}], the
    key ["prop"] being absent until the derivation sets it. *)
Record lang_entry : Type := { size : json; prop : option float }.

(** The [_languages] dict, in insertion order. *)
Definition dict : Type := list (json * lang_entry).

(** The four attributes the fold works on.  [get_stats] assigns all four
    before its loop and nothing sets them back to [None], so inside the
    loop they are plain values; for the same reason [await self.languages]
    (line 316) returns [self._languages] itself there. *)
Record acc : Type := {
  acc_stargazers : Z;
  acc_forks : Z;
  acc_languages : dict;
  acc_repos : list json
}.

Definition acc0 : acc :=
  {| acc_stargazers := 0; acc_forks := 0; acc_languages := []; acc_repos := [] |}.

Definition set_stargazers (a : acc) (n : Z) : acc :=
  {| acc_stargazers := n; acc_forks := acc_forks a;
     acc_languages := acc_languages a; acc_repos := acc_repos a |}.
Definition set_forks (a : acc) (n : Z) : acc :=
  {| acc_stargazers := acc_stargazers a; acc_forks := n;
     acc_languages := acc_languages a; acc_repos := acc_repos a |}.
Definition set_languages (a : acc) (d : dict) : acc :=
  {| acc_stargazers := acc_stargazers a; acc_forks := acc_forks a;
     acc_languages := d; acc_repos := acc_repos a |}.
Definition set_repos (a : acc) (s : list json) : acc :=
  {| acc_stargazers := acc_stargazers a; acc_forks := acc_forks a;
     acc_languages := acc_languages a; acc_repos := s |}.

(** [name in languages]. *)
Definition dict_contains (name : json) (d : dict) : result bool :=
  if hashable name then Ok (existsb (fun kv => key_eqb name (fst kv)) d)
  else Err TypeError.

(** [languages[name]["size"] += x]. *)
Fixpoint dict_iadd_size (name x : json) (d : dict) : result dict :=
  match d with
  | [] => Err KeyError
  | (k, e) :: d' =>
      if key_eqb name k then
        rbind (py_iadd (size e) x) (fun v =>
        Ok ((k, {| size := v; prop := prop e |}) :: d'))
      else
        rbind (dict_iadd_size name x d') (fun d'' => Ok ((k, e) :: d''))
  end.

(** The body of [for lang in ...] (lines 315-322). *)
Definition fold_lang (lang : json) : M acc unit :=
  node <- lift (py_get lang "node" (JDict []));;
  name <- lift (py_get node "name" (JStr "Other"));;
  languages <- gets acc_languages;;
  present <- lift (dict_contains name languages);;
  if (present : bool) then
    sz <- lift (py_get lang "size" (JInt 0));;
    d <- lift (dict_iadd_size name sz languages);;
    modify (fun a => set_languages a d)
  else
    sz <- lift (py_get lang "size" (JInt 0));;
    modify (fun a =>
      set_languages a (languages ++ [(name, {| size := sz; prop := None |})])).

(** What the fold does with a repository it has not seen (lines 311-322). *)
Definition count_repo (repo : json) : M acc unit :=
  cur <- gets acc_stargazers;;
  sg <- lift (py_get repo "stargazers" JNull);;
  tc <- lift (py_get sg "totalCount" (JInt 0));;
  n <- lift (int_iadd cur tc);;
  modify (fun a => set_stargazers a n);;;
  cur <- gets acc_forks;;
  fc <- lift (py_get repo "forkCount" (JInt 0));;
  n <- lift (int_iadd cur fc);;
  modify (fun a => set_forks a n);;;
  langs <- lift (py_get repo "languages" (JDict []));;
  edges <- lift (py_get langs "edges" (JList []));;
  es <- lift (py_iter edges);;
  for_each es fold_lang.

(** The body of [for repo in repos] (lines 305-322). *)
Definition fold_repo (repo : json) : M acc unit :=
  if is_none repo then ret tt
  else
    name <- lift (py_get repo "nameWithOwner" JNull);;
    seen_names <- gets acc_repos;;
    seen <- lift (set_contains name seen_names);;
    if (seen : bool) then ret tt
    else
      modify (fun a => set_repos a (acc_repos a ++ [name]));;;
      count_repo repo.

(** The fold of one page: [for repo in repos] (line 304). *)
Definition fold_page (repos : list json) : M acc unit :=
  for_each repos fold_repo.

(** The derivation (lines 335-337).  Each assignment of ["prop"] is kept
    if a later one raises. *)
Fixpoint set_props (langs_total : Z) (d : dict) : outcome unit * dict :=
  match d with
  | [] => (Return tt, [])
  | (k, v) :: d' =>
      match py_truediv (size v) langs_total with
      | Ok q =>
          let '(r, d'') := set_props langs_total d' in
          (r, (k, {| size := size v; prop := Some (float_mul float100 q) |}) :: d'')
      | Err e => (Raise e, d)
      end
  end.

Definition derive : M acc unit :=
  languages <- gets acc_languages;;
  langs_total <- lift (py_sum (map (fun kv => size (snd kv)) languages));;
  fun a => let '(r, d) := set_props langs_total (acc_languages a) in
           (r, set_languages a d).

(** The object: the five attributes of [__init__] (lines 261-265). *)
Record stats : Type := {
  _stargazers : option Z;
  _forks : option Z;
  _total_contributions : option Z;
  _languages : option dict;
  _repos : option (list json)
}.

Definition new_stats : stats :=
  {| _stargazers := None; _forks := None; _total_contributions := None;
     _languages := None; _repos := None |}.

(** The object and the requests sent so far. *)
Record world : Type := { self : stats; sent : list request }.

Definition store (a : acc) (o : stats) : stats :=
  {| _stargazers := Some (acc_stargazers a); _forks := Some (acc_forks a);
     _total_contributions := _total_contributions o;
     _languages := Some (acc_languages a); _repos := Some (acc_repos a) |}.

Definition set_total (o : stats) (n : Z) : stats :=
  {| _stargazers := _stargazers o; _forks := _forks o;
     _total_contributions := Some n;
     _languages := _languages o; _repos := _repos o |}.

(** [sorted(items, key=lambda item: item[1], reverse=True)]: the sort is
    stable, so it is the insertion of each item, from the last to the
    first, before the first item whose value is not greater. *)
Fixpoint insert_desc (x : json * float) (l : list (json * float))
  : list (json * float) :=
  match l with
  | [] => [x]
  | y :: l' => if float_ltb (snd x) (snd y) then y :: insert_desc x l'
               else x :: l
  end.

Fixpoint sorted_desc (l : list (json * float)) : list (json * float) :=
  match l with
  | [] => []
  | x :: l' => insert_desc x (sorted_desc l')
  end.

(** [{k: v.get("prop", 0) for (k, v) in self._languages.items()}]. *)
Definition props (d : dict) : list (json * float) :=
  map (fun kv => (fst kv, match prop (snd kv) with Some p => p | None => float0 end)) d.

(** Descending order of the values: the first is not less than the
    second. *)
Definition desc (x y : json * float) : Prop := float_ltb (snd x) (snd y) = false.

(** The items whose value is equal to [p]. *)
Definition valued (p : float) (x : json * float) : bool := float_eqb (snd x) p.

(** The state of the repository fold is computed when its four
    attributes are set. *)
Definition computed (o : stats) : Prop :=
  exists s f l r,
    _stargazers o = Some s /\ _forks o = Some f /\
    _languages o = Some l /\ _repos o = Some r.

(** The attributes of the repository fold. *)
Definition fold_state (w : world) :=
  (_stargazers (self w), _forks (self w), _languages (self w), _repos (self w)).

(** [x.get("pageInfo", {}).get(k, default)]. *)
Definition page_info (conn : json) (k : string) (default : json) : result json :=
  rbind (py_get conn "pageInfo" (JDict [])) (fun pi => py_get pi k default).

(** [raw_results.get("data", {}).get("viewer", {}).get(field, {})]
    (lines 292-299). *)
Definition connection (raw_results : json) (field : string) : result json :=
  rbind (py_get raw_results "data" (JDict [])) (fun d =>
  rbind (py_get d "viewer" (JDict [])) (fun v =>
  py_get v field (JDict []))).

(** The test of lines 324-326; [or] evaluates its second operand only
    when the first one is false. *)
Definition more_pages (owned_repos contrib_repos : json) : result bool :=
  rbind (page_info owned_repos "hasNextPage" (JBool false)) (fun ho =>
  if truthy ho then Ok true
  else rbind (page_info contrib_repos "hasNextPage" (JBool false)) (fun hc =>
       Ok (truthy hc))).

(** A connection reports that more pages are available. *)
Definition reports_more (conn : json) : Prop :=
  exists h, page_info conn "hasNextPage" (JBool false) = Ok h /\ truthy h = true.

(** An accessor answers from the attribute when it is set: the value,
    and the world as it was (no request is sent). *)
Definition cached {X Y : Type} (field : stats -> option X) (view : X -> Y)
           (accessor : M world Y) : Prop :=
  forall w v, field (self w) = Some v -> accessor w = (Return (view v), w).

(** The sizes of a language map. *)
Definition sizes (d : dict) : list json := map (fun kv => size (snd kv)) d.

Section WithTransport.

(** [transport k q]: what the call of [self.queries.query(q)] answers
    when [k] requests were sent before it. *)
Variable transport : nat -> request -> result json.

(** [Queries.all_contribs] (lines 234-247): the query for a list of
    years.  It raises when [years] cannot be iterated or [int(year)]
    fails; the text it builds is not inspected by the engine. *)
Variable all_contribs : json -> result request.

Definition lstate : Type := (acc * list request)%type.

Definition on_acc {A : Type} (m : M acc A) : M lstate A :=
  fun s => let '(r, a) := m (fst s) in (r, (a, snd s)).

Definition send (q : request) : M lstate json :=
  fun s => (match transport (List.length (snd s)) q with
            | Ok v => Return v
            | Err e => Raise e
            end, (fst s, snd s ++ [q])).

(** One round of the [while True] loop (lines 285-334): [Some] holds the
    cursors of the next round, [None] is [break]. *)
Definition page_round (next_owned next_contrib : json)
  : M lstate (option (json * json)) :=
  q <- lift (repos_overview next_contrib next_owned);;
  raw_results <- send q;;
  let raw_results := not_none_or (JDict []) raw_results in
  contrib_repos <- lift (connection raw_results "repositoriesContributedTo");;
  owned_repos <- lift (connection raw_results "repositories");;
  repos <- lift (py_get owned_repos "nodes" (JList []));;
  more <- lift (py_get contrib_repos "nodes" (JList []));;
  repos <- lift (py_iadd repos more);;
  repos <- lift (py_iter repos);;
  on_acc (fold_page repos);;;
  go_on <- lift (more_pages owned_repos contrib_repos);;
  if (go_on : bool) then
    o <- lift (page_info owned_repos "endCursor" next_owned);;
    c <- lift (page_info contrib_repos "endCursor" next_contrib);;
    ret (Some (o, c))
  else ret None.

Fixpoint get_stats_loop (fuel : nat) (next_owned next_contrib : json)
  : M lstate unit :=
  match fuel with
  | O => fun s => (OutOfFuel, s)
  | S fuel' =>
      next <- page_round next_owned next_contrib;;
      match next with
      | Some (o, c) => get_stats_loop fuel' o c
      | None => ret tt
      end
  end.

(** [Stats.get_stats] (lines 276-338). *)
Definition get_stats (fuel : nat) : M world unit :=
  fun w =>
    let '(r, (a, reqs)) :=
      (get_stats_loop fuel JNull JNull;;; on_acc derive) (acc0, sent w) in
    (r, {| self := store a (self w); sent := reqs |}).

Definition assert_some {S A : Type} (o : option A) : M S A :=
  match o with
  | Some v => ret v
  | None => lift (Err AssertionError)
  end.

(** The accessors (lines 340-379). *)
Definition stargazers (fuel : nat) : M world Z :=
  w <- get;;
  match _stargazers (self w) with
  | Some v => ret v
  | None => get_stats fuel;;; w <- get;; assert_some (_stargazers (self w))
  end.

Definition forks (fuel : nat) : M world Z :=
  w <- get;;
  match _forks (self w) with
  | Some v => ret v
  | None => get_stats fuel;;; w <- get;; assert_some (_forks (self w))
  end.

Definition languages (fuel : nat) : M world dict :=
  w <- get;;
  match _languages (self w) with
  | Some v => ret v
  | None => get_stats fuel;;; w <- get;; assert_some (_languages (self w))
  end.

Definition languages_proportional (fuel : nat) : M world (list (json * float)) :=
  w <- get;;
  (match _languages (self w) with
   | Some _ => ret tt
   | None => get_stats fuel;;; w <- get;;
             _ <- assert_some (_languages (self w));; ret tt
   end);;;
  w <- get;;
  match _languages (self w) with
  | Some d => ret (sorted_desc (props d))
  | None => lift (Err AttributeError)
  end.

Definition repos (fuel : nat) : M world (list json) :=
  w <- get;;
  match _repos (self w) with
  | Some v => ret v
  | None => get_stats fuel;;; w <- get;; assert_some (_repos (self w))
  end.

Definition send_w (q : request) : M world json :=
  fun w => (match transport (List.length (sent w)) q with
            | Ok v => Return v
            | Err e => Raise e
            end, {| self := self w; sent := sent w ++ [q] |}).

Definition set_total_contributions (n : Z) : M world unit :=
  fun w => (Return tt, {| self := set_total (self w) n; sent := sent w |}).

(** [self._total_contributions] read as the integer it holds once line
    386 has run ([None + x] is a [TypeError]). *)
Definition the_total : M world Z :=
  w <- get;;
  match _total_contributions (self w) with
  | Some n => ret n
  | None => lift (Err TypeError)
  end.

(** The body of [for year in by_year] (lines 400-403). *)
Definition add_year (year : json) : M world unit :=
  cur <- the_total;;
  cal <- lift (py_get year "contributionCalendar" (JDict []));;
  tc <- lift (py_get cal "totalContributions" (JInt 0));;
  n <- lift (int_iadd cur tc);;
  set_total_contributions n.

(** [Stats.total_contributions] (lines 381-404). *)
Definition total_contributions : M world Z :=
  w <- get;;
  match _total_contributions (self w) with
  | Some v => ret v
  | None =>
      set_total_contributions 0;;;
      r <- send_w contrib_years;;
      d <- lift (py_get r "data" (JDict []));;
      v <- lift (py_get d "viewer" (JDict []));;
      cc <- lift (py_get v "contributionsCollection" (JDict []));;
      years <- lift (py_get cc "contributionYears" (JList []));;
      q <- lift (all_contribs years);;
      r <- send_w q;;
      d <- lift (py_get r "data" (JDict []));;
      v <- lift (py_get d "viewer" (JDict []));;
      by_year <- lift (py_values v);;
      for_each by_year add_year;;;
      the_total
  end.

(** [Stats.getData] (lines 267-274). *)
Definition getData (fuel : nat)
  : M world (Z * Z * nat * Z * list (json * float)) :=
  contributions <- total_contributions;;
  fk <- forks fuel;;
  rs <- repos fuel;;
  stars <- stargazers fuel;;
  langs <- languages_proportional fuel;;
  ret (contributions, fk, List.length rs, stars, langs).

(** An accessor whose attribute is not set runs [get_stats], once, and
    answers from the attribute as [get_stats] left it. *)
Definition computes (fuel : nat) {X Y : Type} (field : stats -> option X)
           (view : X -> Y)
           (accessor : M world Y) : Prop :=
  forall w, field (self w) = None ->
    accessor w =
      (match fst (get_stats fuel w) with
       | Return _ =>
           match field (self (snd (get_stats fuel w))) with
           | Some v => Return (view v)
           | None => Raise AssertionError
           end
       | Raise e => Raise e
       | OutOfFuel => OutOfFuel
       end, snd (get_stats fuel w)).

End WithTransport.

End Stats.

(* ================================================================== *)
(** * Well-formed API data and the aggregate it should produce *)
(* ================================================================== *)

Module Model.
Import Py Queries Stats.

(** A repository node as the schema of [repos_overview] defines it.  The
    name is optional: a node may come without [nameWithOwner]. *)
Record repo : Type := {
  nameWithOwner : option string;
  totalCount : Z;                      (* stargazers *)
  forkCount : Z;
  edges : list (string * Z)            (* language name, size *)
}.

Definition encode_edge (e : string * Z) : json :=
  JDict [("size", JInt (snd e));
         ("node", JDict [("name", JStr (fst e)); ("color", JNull)])].

Definition encode_repo (r : repo) : json :=
  JDict ((match nameWithOwner r with
          | Some n => [("nameWithOwner", JStr n)]
          | None => []
          end) ++
         [("stargazers", JDict [("totalCount", JInt (totalCount r))]);
          ("forkCount", JInt (forkCount r));
          ("languages", JDict [("edges", JList (map encode_edge (edges r)))])]).

(** The dedup key of a node, as the fold computes it. *)
Definition key (n : option string) : json :=
  match n with Some s => JStr s | None => JNull end.

Definition name_eqb (a b : option string) : bool :=
  match a, b with
  | Some s, Some t => String.eqb s t
  | None, None => true
  | _, _ => false
  end.

Definition has_name (n : option string) (r : repo) : bool :=
  name_eqb n (nameWithOwner r).

(** The first occurrence of every name, in order; [seen] holds the names
    met so far. *)
Fixpoint firsts_from (seen : list (option string)) (rs : list repo) : list repo :=
  match rs with
  | [] => []
  | r :: rs' =>
      if existsb (name_eqb (nameWithOwner r)) seen then firsts_from seen rs'
      else r :: firsts_from (seen ++ [nameWithOwner r]) rs'
  end.

Definition first_occurrences (rs : list repo) : list repo := firsts_from [] rs.

(** The size of a language added to the running totals, the language
    being appended when it is new. *)
Fixpoint add_size (e : string * Z) (m : list (string * Z)) : list (string * Z) :=
  match m with
  | [] => [e]
  | (n, s) :: m' =>
      if String.eqb (fst e) n then (n, s + snd e) :: m'
      else (n, s) :: add_size e m'
  end.

Definition add_sizes (es m : list (string * Z)) : list (string * Z) :=
  fold_left (fun m e => add_size e m) es m.

Definition zsum (l : list Z) : Z := fold_right Z.add 0 l.

(** The aggregate the specification describes: every name once, and the
    stars, forks and language sizes of first occurrences only. *)
Record totals : Type := {
  t_repos : list (option string);
  t_stars : Z;
  t_forks : Z;
  t_langs : list (string * Z)
}.

Definition aggregate (rs : list repo) : totals :=
  let firsts := first_occurrences rs in
  {| t_repos := map nameWithOwner firsts;
     t_stars := zsum (map totalCount firsts);
     t_forks := zsum (map forkCount firsts);
     t_langs := add_sizes (flat_map edges firsts) [] |}.

Definition lang_item (e : string * Z) : json * lang_entry :=
  (JStr (fst e), {| size := JInt (snd e); prop := None |}).

(** The accumulator that holds an aggregate. *)
Definition to_acc (t : totals) : acc :=
  {| acc_stargazers := t_stars t; acc_forks := t_forks t;
     acc_languages := map lang_item (t_langs t);
     acc_repos := map key (t_repos t) |}.

(** One step of the fold on well-formed nodes. *)
Definition add_repo (t : totals) (r : repo) : totals :=
  if existsb (name_eqb (nameWithOwner r)) (t_repos t) then t
  else {| t_repos := t_repos t ++ [nameWithOwner r];
          t_stars := t_stars t + totalCount r;
          t_forks := t_forks t + forkCount r;
          t_langs := add_sizes (edges r) (t_langs t) |}.

Definition totals0 : totals :=
  {| t_repos := []; t_stars := 0; t_forks := 0; t_langs := [] |}.

(** ** A transport double serving two paginated streams *)

(** A page of a stream: its nodes and the end cursor it reports. *)
Record page : Type := { nodes : list repo; endCursor : option string }.

Definition encode_connection (p : page) (hasNextPage : bool) : json :=
  JDict [("pageInfo", JDict [("hasNextPage", JBool hasNextPage);
                             ("endCursor", key (endCursor p))]);
         ("nodes", JList (map encode_repo (nodes p)))].

(** What a stream answers once its pages are spent: no node, no further
    page. *)
Definition exhausted : json :=
  JDict [("pageInfo", JDict [("hasNextPage", JBool false); ("endCursor", JNull)]);
         ("nodes", JList [])].

(** The answer of a stream in round [k] (0 for the first): its page of
    that rank, which reports [hasNextPage] unless it is the last. *)
Definition connection_at (pages : list page) (k : nat) : json :=
  match nth_error pages k with
  | Some p => encode_connection p (S k <? List.length pages)%nat
  | None => exhausted
  end.

Definition answer (owned contrib : list page) (k : nat) : json :=
  JDict [("data", JDict [("viewer", JDict [
    ("login", JStr "octocat");
    ("name", JNull);
    ("repositories", connection_at owned k);
    ("repositoriesContributedTo", connection_at contrib k)])])].

(** The double answers by the rank of the request, not by the cursors it
    is sent: a stream that is spent stays spent while the other one is
    drained. *)
Definition double (owned contrib : list page) : nat -> request -> result json :=
  fun k _ => Ok (answer owned contrib k).

(** ** A transport serving the two streams by cursor *)

(** The rank of the page that follows a cursor: the page after the one
    that reported it, and past the last page for a cursor that no page
    reported. *)
Fixpoint rank_after (pages : list page) (c : string) : nat :=
  match pages with
  | [] => O
  | p :: ps =>
      match endCursor p with
      | Some c' => if String.eqb c c' then 1%nat else S (rank_after ps c)
      | None => S (rank_after ps c)
      end
  end.

(** The rank of the page a request asks for: the first page when it
    carries no cursor. *)
Definition page_rank (pages : list page) (cursor : option string) : nat :=
  match cursor with
  | None => O
  | Some c => rank_after pages c
  end.

(** The answer that holds the page of rank [i] of the owned stream and
    the page of rank [j] of the contributed-to stream. *)
Definition served_answer (owned contrib : list page) (i j : nat) : json :=
  JDict [("data", JDict [("viewer", JDict [
    ("login", JStr "octocat");
    ("name", JNull);
    ("repositories", connection_at owned i);
    ("repositoriesContributedTo", connection_at contrib j)])])].

(** The transport answers by the cursors of the request, as the API
    does: each stream gives the page after its cursor, and past its last
    page a page without node, without end cursor and without successor. *)
Definition served (owned contrib : list page) : nat -> request -> result json :=
  fun _ q =>
    match q with
    | ReposOverview oc cc =>
        Ok (served_answer owned contrib (page_rank owned oc) (page_rank contrib cc))
    | _ => Ok (JDict [])
    end.

(** The nodes of a stream in round [k]. *)
Definition nodes_at (pages : list page) (k : nat) : list repo :=
  match nth_error pages k with Some p => nodes p | None => [] end.

(** The nodes in the order the loop meets them: round by round, owned
    before contributed-to. *)
Definition fetched_at (owned contrib : list page) (k : nat) : list repo :=
  nodes_at owned k ++ nodes_at contrib k.

Definition fetched (owned contrib : list page) : list repo :=
  flat_map (fetched_at owned contrib)
           (seq 0 (Nat.max (List.length owned) (List.length contrib))).

Definition stream_nodes (pages : list page) : list repo := flat_map nodes pages.

(** ** A query builder for the contribution years *)

Definition is_digit (c : ascii) : bool :=
  let n := nat_of_ascii c in ((48 <=? n) && (n <=? 57))%nat.

(** The characters [int] strips from both ends of a string, among those
    of code 0 to 255, which are the characters of a string here. *)
Definition is_space (c : ascii) : bool :=
  let n := nat_of_ascii c in
  (((9 <=? n) && (n <=? 13)) || (n =? 32) || (n =? 133) || (n =? 160))%nat.

Fixpoint lstrip (cs : list ascii) : list ascii :=
  match cs with
  | [] => []
  | c :: cs' => if is_space c then lstrip cs' else cs
  end.

Definition strip (cs : list ascii) : list ascii := rev (lstrip (rev (lstrip cs))).

(** The text after an optional sign. *)
Definition unsigned (cs : list ascii) : list ascii :=
  match cs with
  | c :: cs' => if (Ascii.eqb c "+" || Ascii.eqb c "-")%bool then cs' else cs
  | [] => []
  end.

(** The number of digits of a text made of digits, with single
    underscores between two digits, and nothing for any other text;
    [after] tells that the character before is a digit. *)
Fixpoint count_digits (after : bool) (cs : list ascii) : option nat :=
  match cs with
  | [] => if after then Some O else None
  | c :: cs' =>
      if is_digit c then option_map S (count_digits true cs')
      else if Ascii.eqb c "_" then
        (if after then count_digits false cs' else None)
      else None
  end.

(** [int(year)], for what it raises: an integer or a boolean is
    accepted; a string is accepted when, blanks stripped, it is an
    optional sign and decimal digits, at most the 4300 that the
    interpreter converts by default. *)
Definition py_int_ok (x : json) : result unit :=
  match x with
  | JInt _ | JBool _ => Ok tt
  | JStr s =>
      match count_digits false (unsigned (strip (list_ascii_of_string s))) with
      | Some n => if (n <=? 4300)%nat then Ok tt else Err ValueError
      | None => Err ValueError
      end
  | _ => Err TypeError
  end.

Fixpoint all_ok (l : list json) : result unit :=
  match l with
  | [] => Ok tt
  | y :: l' => rbind (py_int_ok y) (fun _ => all_ok l')
  end.

(** [Queries.all_contribs] (lines 217-247) on the years the API lists. *)
Definition all_contribs (years : json) : result request :=
  rbind (py_iter years) (fun ys =>
  rbind (all_ok ys) (fun _ => Ok (AllContribs ys))).

(** ** Notions for the statements *)

(** The entry of the running totals for the language [n]. *)
Definition lang_is (n : string) (e : string * Z) : bool := String.eqb n (fst e).

(** The step of the fold on a node whose name is new. *)
Definition add_new (t : totals) (r : repo) : totals :=
  {| t_repos := t_repos t ++ [nameWithOwner r];
     t_stars := t_stars t + totalCount r;
     t_forks := t_forks t + forkCount r;
     t_langs := add_sizes (edges r) (t_langs t) |}.

(** Equality of names is decidable (for [count_occ]). *)
Definition name_dec : forall a b : option string, {a = b} + {a <> b}.
Proof. decide equality. apply string_dec. Defined.

(** The end cursor a stream reports in round [k]. *)
Definition next_cursor (pages : list page) (k : nat) : option string :=
  match nth_error pages k with Some p => endCursor p | None => None end.

(** The number of rounds two streams take: that of the longer one. *)
Definition rounds (owned contrib : list page) : nat :=
  Nat.max (List.length owned) (List.length contrib).

End Model.

(* ================================================================== *)
(** * Data for the runs *)
(* ================================================================== *)

Module Data.
Import Py Queries Stats Model.

Definition node (n : string) (stars forks : Z) (langs : list (string * Z)) : repo :=
  {| nameWithOwner := Some n; totalCount := stars; forkCount := forks;
     edges := langs |}.

(** Two pages of owned repositories (three nodes, then two) and one page
    of repositories contributed to (two nodes); ["b/5"] is in both
    streams. *)
Definition owned1 : page :=
  {| nodes := [node "a/1" 1 1 [("Go", 300)]; node "a/2" 2 0 [("Rust", 100)];
               node "a/3" 3 0 [("Other", 0)]];
     endCursor := Some "o1" |}.
Definition owned2 : page :=
  {| nodes := [node "a/4" 1 1 [("Go", 5)]; node "b/5" 2 0 [("Rust", 1)]];
     endCursor := Some "o2" |}.
Definition contrib1 : page :=
  {| nodes := [node "b/5" 10 10 [("C", 1000)]; node "b/6" 2 0 []];
     endCursor := Some "c1" |}.

(** A new [Stats] object, and nothing sent yet. *)
Definition world0 : world := {| self := new_stats; sent := [] |}.

(** A page with a duplicate, a null entry and a node without name. *)
Definition page1 : list json :=
  [encode_repo (node "a/1" 1 1 [("Go", 300)]);
   JNull;
   encode_repo (node "a/1" 7 7 [("Go", 1)]);
   JDict [("stargazers", JDict [("totalCount", JInt 4)])]].

(** The state the fold of [page1] leaves. *)
Definition after_page1 : acc :=
  {| acc_stargazers := 5; acc_forks := 1;
     acc_languages := [(JStr "Go", {| size := JInt 300; prop := None |})];
     acc_repos := [JStr "a/1"; JNull] |}.

(** The float equal to an integer of at most 53 bits. *)
Definition number (z : Z) : float := binary_normalize prec emax z 0 false.

(** Language sizes, before and after the derivation. *)
Definition entry (n : string) (s : Z) (p : option float) : json * lang_entry :=
  (JStr n, {| size := JInt s; prop := p |}).

Definition go_rust_other : dict :=
  [entry "Go" 300 None; entry "Rust" 100 None; entry "Other" 0 None].

Definition go_rust_other_derived : dict :=
  [entry "Go" 300 (Some (number 75)); entry "Rust" 100 (Some (number 25));
   entry "Other" 0 (Some (number 0))].

(** One repository whose only language has size 0. *)
Definition zero_page : page :=
  {| nodes := [node "a/1" 0 0 [("Go", 0)]]; endCursor := None |}.

(** Nodes with a field missing. *)
Definition no_stargazers : json :=
  JDict [("nameWithOwner", JStr "o/r"); ("forkCount", JInt 3)].

Definition no_fork_count : json :=
  JDict [("nameWithOwner", JStr "o/r");
         ("stargazers", JDict [("totalCount", JInt 2)])].

(** The answers to the two queries of [total_contributions]. *)
Definition years_answer : json :=
  JDict [("data", JDict [("viewer", JDict [("contributionsCollection",
    JDict [("contributionYears", JList [JStr "2021"; JStr "2022"])])])])].

Definition calendar (n : Z) : json :=
  JDict [("contributionCalendar", JDict [("totalContributions", JInt n)])].

Definition by_year_answer (year2022 : json) : json :=
  JDict [("data", JDict [("viewer", JDict [("year2021", calendar 40);
                                          ("year2022", year2022)])])].

(** The transport of a run of [total_contributions]: the years, then the
    sub-results by year. *)
Definition years_transport (year2022 : json) : nat -> request -> result json :=
  fun k _ => match k with
             | O => Ok years_answer
             | _ => Ok (by_year_answer year2022)
             end.

(** The transport of a run of [getData]: the two answers above, then
    the pages of repositories. *)
Definition whole_transport : nat -> request -> result json :=
  fun k q => match k with
             | O => Ok years_answer
             | S O => Ok (by_year_answer (calendar 17))
             | S (S k') => double [owned1; owned2] [contrib1] k' q
             end.

End Data.

(* ================================================================== *)
(** * [language] and [main]: the report *)
(* ================================================================== *)

Module Report.
Import Py Queries Stats.

(** The double quote, which the lines of [language] contain. *)
Definition dq : string := String "034"%char EmptyString.

(** The dict [d] of [language] (lines 416-431). *)
Definition logos : list (string * string) :=
  [("PHP", "https://pngimg.com/uploads/php/php_PNG23.png");
   ("Dart", "https://cdn.freebiesupply.com/logos/large/2x/dart-logo-png-transparent.png");
   ("Kotlin", "https://cdn.freebiesupply.com/logos/large/2x/kotlin-1-logo-png-transparent.png");
   ("Shell", "https://tse4.mm.bing.net/th?id=OIP.nO-KdkQLpAoBAh_m_7GY8QHaId&pid=Api");
   ("Python", "https://tse2.mm.bing.net/th?id=OIP.fkvxbuKHOLhO4A_MqA9DVAHaHv&pid=Api");
   ("C++", "https://tse2.mm.bing.net/th?id=OIP.H3I3buZeC8Bkez8ADSrqMwHaHa&pid=Api");
   ("Css", "https://tse1.mm.bing.net/th?id=OIP.FCaF9-F7IFllP3x312SHEQHaHa&pid=Api");
   ("CMake", "https://tse2.mm.bing.net/th?id=OIP.SaRbjGIkNNv3lGPMq5-mJwAAAA&pid=Api");
   ("JavaScript", "https://tse4.mm.bing.net/th?id=OIP.PHBTJoshbg880IH9z_PB6QHaHa&pid=Api");
   ("Java", "https://logodix.com/logo/283001.png");
   ("HTML", "https://www.clipartkey.com/mpngs/m/210-2104705_html-logo-png-transparent-background.png");
   ("Swift", "http://www.sic-sales.de/wp-content/uploads/2016/04/Swift_logo.svg.png");
   ("Hack", "https://www.bonconseil.org/wp-content/uploads/2019/10/rond_gris.png")].

Fixpoint lookup (k : string) (t : list (string * string)) : option string :=
  match t with
  | [] => None
  | (k', v) :: t' => if String.eqb k k' then Some v else lookup k t'
  end.

(** [d[k]]: the keys of [d] are strings, so any other key is missing. *)
Definition logo (k : json) : result string :=
  match k with
  | JStr n => match lookup n logos with Some u => Ok u | None => Err KeyError end
  | _ => Err KeyError
  end.

(** [str(n)] for an integer. *)
Definition str_int (z : Z) : string := NilZero.string_of_int (Z.to_int z).

(** The integer nearest to [m * 2 ^ e], the even one of the two when it
    is half way. *)
Definition round_half_even (m : positive) (e : Z) : Z :=
  if 0 <=? e then Zpos m * 2 ^ e
  else
    let d := 2 ^ (- e) in
    let n := Zpos m / d in
    let r := Zpos m mod d in
    match 2 * r ?= d with
    | Lt => n
    | Gt => n + 1
    | Eq => if Z.even n then n else n + 1
    end.

(** [f"{v: 0.0f}"]: a blank for the sign of a number that is not
    negative and a minus for the others (a negative zero too), then the
    exact value of the float rounded to an integer, without point. *)
Definition format_f0 (v : float) : string :=
  match v with
  | S754_nan => " nan"
  | S754_infinity s => if s then "-inf" else " inf"
  | S754_zero s => if s then "-0" else " 0"
  | S754_finite s m e =>
      ((if s then "-" else " ") ++ str_int (round_half_even m e))%string
  end.

(** One item of the list comprehension of line 432; [d[k]] is evaluated
    before [k] and [v] are formatted. *)
Definition language_line (item : json * float) : result string :=
  match logo (fst item) with
  | Err e => Err e
  | Ok url =>
      match fst item with
      | JStr k =>
          Ok (" <code><img height=" ++ dq ++ "15" ++ dq ++ " src=" ++ dq ++ url
              ++ dq ++ "></code>  " ++ k ++ ": " ++ format_f0 (snd item) ++ "%")%string
      | _ => Err KeyError
      end
  end.

Fixpoint map_result {A B : Type} (f : A -> result B) (l : list A) : result (list B) :=
  match l with
  | [] => Ok []
  | x :: l' => rbind (f x) (fun y => rbind (map_result f l') (fun ys => Ok (y :: ys)))
  end.

(** [language] (lines 406-434): the first three items of [data], one
    line each. *)
Definition language (data : list (json * float)) : result (list string) :=
  map_result language_line (firstn 3 data).

(** [s.replace(old, new)] for an [old] that is not empty: the occurrences
    of [old] are replaced from left to right, without overlap; [skip]
    characters of an occurrence already replaced remain to be dropped. *)
Fixpoint replace_from (skip : nat) (old new s : string) : string :=
  match s with
  | EmptyString => EmptyString
  | String c s' =>
      match skip with
      | S k => replace_from k old new s'
      | O =>
          if String.prefix old s
          then (new ++ replace_from (String.length old - 1) old new s')%string
          else String c (replace_from 0 old new s')
      end
  end.

Definition replace (old new s : string) : string := replace_from 0 old new s.

(** How [main] ends when it does not write the file: an exception of the
    engine or of [language], or one of its own. *)
Inductive failure : Type :=
| Python (e : exn)
| RuntimeError (msg : string)
| FileNotFoundError (path : string)
| IndexError.

Inductive ended (A : Type) : Type :=
| Written (a : A)
| Failed (f : failure)
| Unfinished.

Arguments Written {A} a.
Arguments Failed {A} f.
Arguments Unfinished {A}.

(** What [main] reads: the two environment variables and the content of
    [model.md] ([None] when the file is missing). *)
Record environment : Type := {
  ACCESS_TOKEN : option string;
  GITHUB_ACTOR : option string;
  model_md : option string
}.

Definition msg_no_credentials : string :=
  "ACCESS_TOKEN and GITHUB_ACTOR environment variables cannot be None!".

(** [lang[i]]. *)
Definition item (lang : list string) (i : nat) : ended string :=
  match nth_error lang i with
  | Some l => Written l
  | None => Failed IndexError
  end.

Definition ebind {A B : Type} (x : ended A) (k : A -> ended B) : ended B :=
  match x with
  | Written a => k a
  | Failed f => Failed f
  | Unfinished => Unfinished
  end.

(** Lines 447-462 of [main]: from the result [d] of [getData] to the text
    written to [README.md]. *)
Definition render (model : option string)
           (d : Z * Z * nat * Z * list (json * float)) : ended string :=
  let '(contributions, _, nrepos, stars, langs) := d in
  match language langs with
  | Err e => Failed (Python e)
  | Ok lang =>
      match model with
      | None => Failed (FileNotFoundError "model.md")
      | Some contenu =>
          let new := replace "<commits>" (str_int contributions) contenu in
          let new := replace "<repo>" (str_int (Z.of_nat nrepos)) new in
          let new := replace "<stars>" (str_int stars) new in
          ebind (item lang 0) (fun l0 =>
          let new := replace "<value1>" l0 new in
          ebind (item lang 1) (fun l1 =>
          let new := replace "<value2>" l1 new in
          ebind (item lang 2) (fun l2 =>
          Written (replace "<value3>" l2 new))))
      end
  end.

Section WithTransport.

Variable transport : nat -> request -> result json.
Variable all_contribs : json -> result request.

(** [main] (lines 437-462): what is written to [README.md], or how the
    run fails, and the requests sent. *)
Definition main (e : environment) (fuel : nat) : ended string * list request :=
  match ACCESS_TOKEN e, GITHUB_ACTOR e with
  | Some _, Some _ =>
      let w0 := {| self := new_stats; sent := [] |} in
      match getData transport all_contribs fuel w0 with
      | (Return d, w) => (render (model_md e) d, sent w)
      | (Raise x, w) => (Failed (Python x), sent w)
      | (OutOfFuel, w) => (Unfinished, sent w)
      end
  | _, _ => (Failed (RuntimeError msg_no_credentials), [])
  end.

End WithTransport.

End Report.

(* ================================================================== *)
(** * Notions and data for further properties *)
(* ================================================================== *)

Module Notions.
Import Py Queries Stats Model Data Report.

(** The URLs a trace requests, on either channel. *)
Definition targets (tr : list event) : list string :=
  flat_map (fun e => match e with
                     | EPrimary u | EFallback u => [u]
                     | _ => []
                     end) tr.

(** The fallback channel answered 200 with a null body, in a round whose
    primary attempt raised. *)
Definition null_from_fallback
           (session_get requests_get : nat -> string -> params_t -> result response)
  : Prop :=
  exists i url params r,
    primary_raised session_get i url params = true /\
    requests_get i url params = Ok r /\ status r = 200 /\ body r = Ok JNull.

(** The path of round [k] of [query_rest], a leading slash being
    stripped in each round, its URL, and the parameters of every round. *)
Fixpoint stripped (k : nat) (path : string) : string :=
  match k with
  | O => strip_slash path
  | S k' => stripped k' (strip_slash path)
  end.

Definition round_url (path : string) (k : nat) : string :=
  rest_url (stripped k path).

Definition round_params (params : option params_t) : params_t :=
  match params with Some p => p | None => [] end.

(** Round [k] of [query_rest] is reached: no round before it left the
    function. *)
Definition reached (session_get requests_get : nat -> string -> params_t -> result response)
           (path : string) (params : option params_t) (k : nat) : Prop :=
  forall j, (j < k)%nat ->
    snd (rest_attempt session_get requests_get j (round_url path j)
                      (round_params params)) = None.

(** A fallback channel that raises in round 2, after two rounds that
    were refused. *)
Definition refused_then_down : nat -> string -> params_t -> result response :=
  fun i _ _ =>
    match i with
    | S (S _) => Err (ChannelError "requests")
    | _ => Ok {| status := 404; body := Ok JNull |}
    end.

(** A fallback channel that answers every request with a status. *)
Definition answers_status (st : Z) : nat -> string -> params_t -> result response :=
  fun _ _ _ => Ok {| status := st; body := Ok (JDict [("message", JStr "Not Found")]) |}.

(** A property of the state that code keeps, however it ends. *)
Definition invariant {S A : Type} (P : S -> Prop) (m : M S A) : Prop :=
  forall s o s', P s -> m s = (o, s') -> P s'.

(** A list of hashable values that are pairwise different as keys: what
    a Python set, or the keys of a dict, is. *)
Fixpoint distinct_keys (l : list json) : Prop :=
  match l with
  | [] => True
  | x :: l' =>
      hashable x = true /\ existsb (key_eqb x) l' = false /\ distinct_keys l'
  end.

(** The keys of the language dict. *)
Definition lang_keys (a : acc) : list json := map fst (acc_languages a).

(** The cursor the loop sends a stream in round [k]: none in the first
    round, then the end cursor of the round before. *)
Definition cursor_before (pages : list page) (k : nat) : option string :=
  match k with
  | O => None
  | S j => next_cursor pages j
  end.

(** A stream whose pages can be told apart by cursor: every page reports
    an end cursor and no two pages the same. *)
Definition addressable (pages : list page) : Prop :=
  NoDup (map endCursor pages) /\ ~ In None (map endCursor pages).

(** The page a stream reports more pages after. *)
Definition more_at (pages : list page) (i : nat) : bool :=
  (S i <? List.length pages)%nat.

(** The rank the loop asks a stream for after the rank [i]: the next
    one, and the first one again after the answer past the last page,
    whose end cursor is null. *)
Definition turn (pages : list page) (i : nat) : nat :=
  if (i <? List.length pages)%nat then S i else O.

(** The rank the loop asks a stream for in round [k]. *)
Definition position (pages : list page) (k : nat) : nat :=
  Nat.iter k (turn pages) O.

(** Round [k] against the transport by cursor: whether a stream reports
    more pages, the nodes of the two pages, and the request. *)
Definition more_in (owned contrib : list page) (k : nat) : bool :=
  more_at owned (position owned k) || more_at contrib (position contrib k).

Definition visited (owned contrib : list page) (k : nat) : list repo :=
  nodes_at owned (position owned k) ++ nodes_at contrib (position contrib k).

Definition asked (owned contrib : list page) (k : nat) : request :=
  ReposOverview (cursor_before owned (position owned k))
                (cursor_before contrib (position contrib k)).

(** Pages that hold one repository each. *)
Definition single (n cursor : string) : page :=
  {| nodes := [node n 1 0 [("Go", 10)]]; endCursor := Some cursor |}.

Definition four_pages : list page :=
  [single "a/1" "o1"; single "a/2" "o2"; single "a/3" "o3"; single "a/4" "o4"].

Definition two_pages : list page := [single "b/1" "c1"; single "b/2" "c2"].

(** The answer to [contrib_years]. *)
Definition years_json (years : json) : json :=
  JDict [("data", JDict [("viewer", JDict [("contributionsCollection",
    JDict [("contributionYears", years)])])])].

(** The sub-result of a year: its calendar with a total, or an object
    without calendar. *)
Definition year_json (total : option Z) : json :=
  match total with
  | Some n => calendar n
  | None => JDict []
  end.

(** The answer to [all_contribs]: one sub-result under each alias. *)
Definition by_year_json (subs : list (string * option Z)) : json :=
  JDict [("data", JDict [("viewer",
    JDict (map (fun s => (fst s, year_json (snd s))) subs))])].

Definition total_of (o : option Z) : Z :=
  match o with Some n => n | None => 0 end.

(** A language that has a logo in the table of [language]. *)
Definition known (item : json * float) : Prop := exists u, logo (fst item) = Ok u.

(** Streams whose three languages have a logo. *)
Definition known_page : page :=
  {| nodes := [node "a/1" 1 1 [("Python", 300)]; node "a/2" 2 0 [("HTML", 100)];
               node "a/3" 3 0 [("Java", 100)]];
     endCursor := Some "o1" |}.

Definition known_transport : nat -> request -> result json :=
  fun k q => match k with
             | O => Ok years_answer
             | S O => Ok (by_year_answer (calendar 17))
             | S (S k') => double [known_page] [] k' q
             end.

Definition credentials (model : option string) : environment :=
  {| ACCESS_TOKEN := Some "token"; GITHUB_ACTOR := Some "octocat";
     model_md := model |}.

(** A model with four placeholders, and the report [main] makes of it
    against [known_transport]. *)
Definition known_model : string := "<commits> <repo> <stars><value3>".

Definition known_readme : string :=
  ("57 3 6 <code><img height=" ++ dq ++ "15" ++ dq ++ " src=" ++ dq
   ++ "https://logodix.com/logo/283001.png" ++ dq ++ "></code>  Java:  20%")%string.

(** Four languages, the last of which has no logo. *)
Definition three_known_one_not : list (json * float) :=
  [(JStr "Python", number 40); (JStr "HTML", number 30); (JStr "Java", number 20);
   (JStr "Brainfuck", number 10)].

(** Three languages, the second of which has no logo. *)
Definition second_unknown : list (json * float) :=
  [(JStr "Python", number 50); (JStr "Rust", number 30); (JStr "Java", number 20)].

(** Two languages with a logo. *)
Definition two_known : list (json * float) :=
  [(JStr "Python", number 75); (JStr "HTML", number 25)].

(** [page1] followed by a node without stargazers, and the state the fold
    leaves when it raises on that node. *)
Definition page1_then_bad : list json := page1 ++ [no_stargazers].

Definition after_page1_then_bad : acc :=
  set_repos after_page1 [JStr "a/1"; JNull; JStr "o/r"].

(** [_total_contributions] is set. *)
Definition total_set (w : world) : Prop :=
  _total_contributions (self w) <> None.

(** The request of round [j] against the double. *)
Definition request_at (owned contrib : list page) (j : nat) : request :=
  ReposOverview (cursor_before owned j) (cursor_before contrib j).

(** The percentage of a size in a total that is not 0, as the
    derivation computes it. *)
Definition percent (size total : Z) : float :=
  float_mul float100 (SFdiv prec emax (magnitude size) (magnitude total)).

(** The proportional view of the languages of [owned1], [owned2] and
    [contrib1]. *)
Definition whole_view : list (json * float) :=
  [(JStr "C", percent 1000 1405); (JStr "Go", percent 305 1405);
   (JStr "Rust", percent 100 1405); (JStr "Other", percent 0 1405)].

(** The entry of a language after the derivation with the total [T]:
    the same key and size, and the percentage of the size. *)
Definition derived (T : Z) (kv kv' : json * lang_entry) : Prop :=
  fst kv' = fst kv /\ size (snd kv') = size (snd kv) /\
  exists q, py_truediv (size (snd kv)) T = Ok q /\
            prop (snd kv') = Some (float_mul float100 q).

(** Two languages whose sizes differ and whose percentages are the
    same float. *)
Definition close_sizes : dict :=
  [(JStr "A", {| size := JInt (2 ^ 53); prop := None |});
   (JStr "B", {| size := JInt (2 ^ 53 + 1); prop := None |})].

(** The place of a float among the numbers: its class (the infinities,
    the negative numbers, zero, the positive numbers), then its exponent
    and its mantissa, both counted down for a negative number. *)
Definition rank (x : float) : Z * Z * Z :=
  match x with
  | S754_nan => (0, 0, 0)
  | S754_infinity true => (-2, 0, 0)
  | S754_infinity false => (2, 0, 0)
  | S754_zero _ => (0, 0, 0)
  | S754_finite true m e => (-1, - e, - Zpos m)
  | S754_finite false m e => (1, e, Zpos m)
  end.

Definition lex_lt (a b : Z * Z * Z) : Prop :=
  fst (fst a) < fst (fst b) \/
  (fst (fst a) = fst (fst b) /\
   (snd (fst a) < snd (fst b) \/
    (snd (fst a) = snd (fst b) /\ snd a < snd b))).

(** A float that is a number, and a list of items whose values are. *)
Definition is_number (x : float) : Prop := x <> S754_nan.

Definition numbers (l : list (json * float)) : Prop :=
  Forall (fun it => is_number (snd it)) l.

(** An answer without data, as the API gives to a request it refuses. *)
Definition refused : json := JDict [("message", JStr "Bad credentials")].

(** An answer whose data is null, as the API gives with its errors. *)
Definition null_data : json :=
  JDict [("data", JNull); ("errors", JList [JDict [("message", JStr "timeout")]])].

End Notions.

(* ================================================================== *)
(** * Facts about the transport *)
(* ================================================================== *)

Module QueriesFacts.
Import Py Queries.
Import Notions.

Lemma attempts_app (t1 t2 : list event) :
  attempts (t1 ++ t2) = (attempts t1 + attempts t2)%nat.
Proof. unfold attempts. now rewrite filter_app, length_app. Qed.

Lemma fallbacks_app (t1 t2 : list event) :
  fallbacks (t1 ++ t2) = (fallbacks t1 + fallbacks t2)%nat.
Proof. unfold fallbacks. now rewrite filter_app, length_app. Qed.

Lemma sleeps_app (t1 t2 : list event) : sleeps (t1 ++ t2) = sleeps t1 ++ sleeps t2.
Proof. unfold sleeps. apply flat_map_app. Qed.

Lemma rhythm_app (t1 t2 : list event) : rhythm (t1 ++ t2) = rhythm t1 ++ rhythm t2.
Proof. unfold rhythm. now rewrite filter_app, map_app. Qed.

Section RestFacts.

Variable session_get : nat -> string -> params_t -> result response.
Variable requests_get : nat -> string -> params_t -> result response.

Abbreviation primary_raised := (primary_raised session_get).
Abbreviation pending := (pending session_get requests_get).
Abbreviation fallback_raises := (fallback_raises session_get requests_get).

Abbreviation rest_fallback := (rest_fallback requests_get).
Abbreviation rest_attempt := (rest_attempt session_get requests_get).
Abbreviation query_rest_loop := (query_rest_loop session_get requests_get).
Abbreviation query_rest := (query_rest session_get requests_get).

Lemma rest_fallback_once (i : nat) (url : string) (params : params_t) :
  attempts (fst (rest_fallback i url params)) = 0%nat /\
  fallbacks (fst (rest_fallback i url params)) = 1%nat.
Proof.
  unfold rest_fallback.
  destruct (requests_get i url params) as [r|e]; [|now split].
  destruct (status r =? 202); [now split|].
  destruct (status r =? 200); now split.
Qed.

(** A round makes one attempt on the primary channel, and one on the
    fallback exactly when the primary channel raised. *)
Lemma rest_attempt_counts (i : nat) (url : string) (params : params_t) :
  attempts (fst (rest_attempt i url params)) = 1%nat /\
  fallbacks (fst (rest_attempt i url params)) =
    (if primary_raised i url params then 1 else 0)%nat.
Proof.
  unfold rest_attempt, primary_raised.
  pose proof (rest_fallback_once i url params) as [Ha Hf].
  destruct (session_get i url params) as [r|e].
  - destruct (status r =? 202); [now split|].
    destruct (body r) as [v|e].
    + destruct (is_none v); now split.
    + destruct (rest_fallback i url params) as [tr o]; simpl in *.
      unfold attempts, fallbacks in *; simpl; now rewrite Ha, Hf.
  - destruct (rest_fallback i url params) as [tr o]; simpl in *.
    unfold attempts, fallbacks in *; simpl; now rewrite Ha, Hf.
Qed.

Lemma rest_fallback_err (i : nat) (url : string) (params : params_t) (e : exn) :
  snd (rest_fallback i url params) = Some (Err e) ->
  requests_get i url params = Err e \/
  exists r, requests_get i url params = Ok r /\ status r = 200 /\ body r = Err e.
Proof.
  unfold rest_fallback.
  destruct (requests_get i url params) as [r|e'] eqn:E; simpl.
  - destruct (status r =? 202); [discriminate|].
    destruct (status r =? 200) eqn:E200; [|discriminate].
    simpl. intros [= H]. right. exists r. apply Z.eqb_eq in E200. auto.
  - intros [= ->]. now left.
Qed.

Lemma rest_attempt_err (i : nat) (url : string) (params : params_t) (e : exn) :
  snd (rest_attempt i url params) = Some (Err e) -> fallback_raises e.
Proof.
  unfold rest_attempt. intros H.
  exists i, url, params. unfold primary_raised.
  destruct (session_get i url params) as [r|e'].
  - destruct (status r =? 202); [discriminate|].
    destruct (body r) as [v|e''].
    + destruct (is_none v); discriminate.
    + split; [reflexivity|]. apply rest_fallback_err.
      destruct (rest_fallback i url params); exact H.
  - split; [reflexivity|]. apply rest_fallback_err.
    destruct (rest_fallback i url params); exact H.
Qed.

Lemma query_rest_loop_bounds (n i : nat) (path : string) (params : option params_t) :
  (fallbacks (fst (query_rest_loop n i path params))
     <= attempts (fst (query_rest_loop n i path params)) <= n)%nat /\
  (forall e, snd (query_rest_loop n i path params) = Err e -> fallback_raises e).
Proof.
  revert i path params. induction n as [|n IH]; intros i path params.
  - simpl. split; [unfold fallbacks, attempts; simpl; lia | discriminate].
  - simpl.
    set (p := match params with Some p => p | None => [] end).
    pose proof (rest_attempt_counts i (rest_url (strip_slash path)) p) as [Ha Hf].
    pose proof (rest_attempt_err i (rest_url (strip_slash path)) p) as He.
    destruct (rest_attempt i (rest_url (strip_slash path)) p) as [tr o].
    simpl in Ha, Hf, He.
    assert (Hf' : (fallbacks tr <= 1)%nat)
      by (rewrite Hf; destruct (primary_raised _ _ _); lia).
    destruct o as [r|].
    + simpl. split; [lia|]. intros e ->. now apply He.
    + specialize (IH (S i) (strip_slash path) (Some p)).
      destruct (query_rest_loop n (S i) (strip_slash path) (Some p)) as [tr' r].
      simpl in *. rewrite attempts_app, fallbacks_app.
      destruct IH as [IH1 IH2]. split; [lia|exact IH2].
Qed.

Lemma query_rest_loop_pending (n i : nat) (path : string) (params : option params_t) :
  (forall i url params, pending i url params) ->
  snd (query_rest_loop n i path params) = Ok (JDict []) /\
  attempts (fst (query_rest_loop n i path params)) = n /\
  sleeps (fst (query_rest_loop n i path params)) = repeat 2 n /\
  rhythm (fst (query_rest_loop n i path params)) = List.concat (repeat [false; true] n) /\
  last (fst (query_rest_loop n i path params)) (ESleep 0) = EPrint msg_too_many.
Proof.
  intros Hp. revert i path params. induction n as [|n IH]; intros i path params.
  - simpl. repeat split.
  - simpl.
    set (p := match params with Some p => p | None => [] end).
    set (url := rest_url (strip_slash path)).
    specialize (IH (S i) (strip_slash path) (Some p)).
    destruct (query_rest_loop n (S i) (strip_slash path) (Some p)) as [tr' r].
    simpl in IH. destruct IH as (IHr & IHa & IHs & IHy & IHl).
    assert (Hne : tr' <> []).
    { intros ->. simpl in IHl. discriminate. }
    specialize (Hp i url p). unfold pending in Hp.
    unfold rest_attempt, rest_fallback.
    destruct (session_get i url p) as [r0|e0].
    + apply Z.eqb_eq in Hp. rewrite Hp. simpl.
      repeat split; auto.
      * unfold attempts in *. simpl. now rewrite IHa.
      * now rewrite IHs.
      * unfold rhythm in *. simpl. now rewrite IHy.
      * destruct tr'; [contradiction|exact IHl].
    + destruct (requests_get i url p) as [r1|e1]; [|contradiction].
      apply Z.eqb_eq in Hp. rewrite Hp. simpl.
      repeat split; auto.
      * unfold attempts in *. simpl. now rewrite IHa.
      * now rewrite IHs.
      * unfold rhythm in *. simpl. now rewrite IHy.
      * destruct tr'; [contradiction|exact IHl].
Qed.

(** When the primary channel raised, the round does what its fallback
    attempt does. *)
Lemma rest_attempt_raised (i : nat) (url : string) (params : params_t) :
  primary_raised i url params = true ->
  snd (rest_attempt i url params) = snd (rest_fallback i url params).
Proof.
  unfold Queries.primary_raised, Queries.rest_attempt.
  destruct (session_get i url params) as [r|e].
  - destruct (status r =? 202); [discriminate|].
    destruct (body r) as [v|e]; [discriminate|].
    intros _. now destruct (Queries.rest_fallback requests_get i url params).
  - intros _. now destruct (Queries.rest_fallback requests_get i url params).
Qed.

(** What the fallback attempt of a round gives. *)
Lemma rest_fallback_gives (i : nat) (url : string) (params : params_t) :
  snd (rest_fallback i url params) =
    match requests_get i url params with
    | Err e => Some (Err e)
    | Ok r => if status r =? 200 then Some (body r) else None
    end.
Proof.
  unfold Queries.rest_fallback.
  destruct (requests_get i url params) as [r|e]; [|reflexivity].
  destruct (status r =? 202) eqn:E; [|now destruct (status r =? 200)].
  apply Z.eqb_eq in E. rewrite E. reflexivity.
Qed.

(** The loop answers what the first round that leaves it gives. *)
Lemma query_rest_loop_leaves (n : nat) :
  forall (i : nat) (path : string) (params : option params_t) (k : nat)
         (r : result json),
    (k < n)%nat ->
    (forall j, (j < k)%nat ->
       snd (rest_attempt (i + j) (round_url path j) (round_params params)) = None) ->
    snd (rest_attempt (i + k) (round_url path k) (round_params params)) = Some r ->
    snd (query_rest_loop n i path params) = r.
Proof.
  induction n as [|n IH]; intros i path params k r Hk Hb Hr; [lia|].
  cbn [Queries.query_rest_loop].
  fold (round_params params).
  destruct k as [|k].
  - rewrite Nat.add_0_r in Hr. unfold round_url in Hr. cbn [stripped] in Hr.
    destruct (Queries.rest_attempt session_get requests_get i
                (rest_url (strip_slash path)) (round_params params)) as [tr o].
    cbn [snd] in Hr. subst o. reflexivity.
  - pose proof (Hb O ltac:(lia)) as H0.
    rewrite Nat.add_0_r in H0. unfold round_url in H0. cbn [stripped] in H0.
    destruct (Queries.rest_attempt session_get requests_get i
                (rest_url (strip_slash path)) (round_params params)) as [tr o].
    cbn [snd] in H0. subst o.
    specialize (IH (S i) (strip_slash path) (Some (round_params params)) k r).
    destruct (Queries.query_rest_loop session_get requests_get n (S i)
                (strip_slash path) (Some (round_params params))) as [tr' r'].
    cbn [snd] in *. apply IH.
    + lia.
    + intros j Hj. specialize (Hb (S j) ltac:(lia)).
      replace (S i + j)%nat with (i + S j)%nat by lia. exact Hb.
    + replace (S i + k)%nat with (i + S k)%nat by lia. exact Hr.
Qed.

(** In a round that is reached and whose primary attempt raised, the
    function answers what the fallback attempt gives, or goes on. *)
Lemma query_rest_fallback_answer (path : string) (params : option params_t)
      (k : nat) :
  (k < 60)%nat ->
  reached session_get requests_get path params k ->
  primary_raised k (round_url path k) (round_params params) = true ->
  match requests_get k (round_url path k) (round_params params) with
  | Err e => snd (query_rest path params) = Err e
  | Ok r =>
      if status r =? 200 then snd (query_rest path params) = body r
      else reached session_get requests_get path params (S k)
  end.
Proof.
  intros Hk Hreach Hp.
  pose proof (rest_attempt_raised _ _ _ Hp) as Ha.
  rewrite rest_fallback_gives in Ha.
  destruct (requests_get k (round_url path k) (round_params params)) as [r|e].
  - destruct (status r =? 200).
    + unfold Queries.query_rest.
      apply (query_rest_loop_leaves 60 0 path params k); auto.
    + intros j Hj. destruct (Nat.eq_dec j k) as [->|Hne]; [exact Ha|].
      apply Hreach. lia.
  - unfold Queries.query_rest.
    apply (query_rest_loop_leaves 60 0 path params k); auto.
Qed.

End RestFacts.

Lemma query_primary_ok (sp rp : string -> result response) (q : string) (v : json) :
  rbind (sp q) body = Ok v ->
  fallbacks (fst (query sp rp q)) = 0%nat /\
  snd (query sp rp q) = Ok (not_none_or (JDict []) v).
Proof. unfold query. intros ->. now split. Qed.

Lemma query_primary_raised (sp rp : string -> result response) (q : string) :
  raised (rbind (sp q) body) ->
  fallbacks (fst (query sp rp q)) = 1%nat /\
  snd (query sp rp q) =
    match rbind (rp q) body with
    | Ok v => Ok (not_none_or (JDict []) v)
    | Err e => Err e
    end.
Proof.
  unfold query. destruct (rbind (sp q) body) as [v|e]; [contradiction|].
  intros _. destruct (rbind (rp q) body); now split.
Qed.

(** C3, as the code has it.  An exception of the primary channel is
    caught and followed by one attempt on the fallback channel: one in all
    for a GraphQL query, one in each round whose primary attempt raised
    for a REST query, which runs at most 60 rounds.  The answer is then
    that of the fallback attempt: its decoded value (an empty dict for a
    GraphQL answer that decodes to [None]), or the exception it raised,
    which goes to the caller.  For a REST query that is the answer when
    the fallback attempt raised or had the status 200; with any other
    status the loop goes on to its next round.  A REST query raises in no
    other way. *)
Theorem fallback_once_then_propagate :
  (forall (sp rp : string -> result response) (q : string),
      (forall v, rbind (sp q) body = Ok v ->
                 fallbacks (fst (query sp rp q)) = 0%nat /\
                 snd (query sp rp q) = Ok (not_none_or (JDict []) v)) /\
      (raised (rbind (sp q) body) ->
       fallbacks (fst (query sp rp q)) = 1%nat /\
       snd (query sp rp q) =
         match rbind (rp q) body with
         | Ok v => Ok (not_none_or (JDict []) v)
         | Err e => Err e
         end)) /\
  (forall (sg rg : nat -> string -> params_t -> result response)
          (i : nat) (url : string) (params : params_t),
      attempts (fst (rest_attempt sg rg i url params)) = 1%nat /\
      fallbacks (fst (rest_attempt sg rg i url params)) =
        (if primary_raised sg i url params then 1 else 0)%nat) /\
  (forall (sg rg : nat -> string -> params_t -> result response)
          (path : string) (params : option params_t),
      (fallbacks (fst (query_rest sg rg path params))
         <= attempts (fst (query_rest sg rg path params)) <= 60)%nat /\
      (forall e, snd (query_rest sg rg path params) = Err e ->
                 fallback_raises sg rg e)) /\
  (forall (sg rg : nat -> string -> params_t -> result response)
          (path : string) (params : option params_t) (k : nat),
      (k < 60)%nat ->
      reached sg rg path params k ->
      primary_raised sg k (round_url path k) (round_params params) = true ->
      match rg k (round_url path k) (round_params params) with
      | Err e => snd (query_rest sg rg path params) = Err e
      | Ok r =>
          if status r =? 200 then snd (query_rest sg rg path params) = body r
          else reached sg rg path params (S k)
      end).
Proof.
  split; [|split; [|split]].
  - intros sp rp q. split.
    + apply query_primary_ok.
    + apply query_primary_raised.
  - intros. apply rest_attempt_counts.
  - intros. apply query_rest_loop_bounds.
  - intros. now apply query_rest_fallback_answer.
Qed.

(** C3, as the claim states it, fails: when both channels raise, the
    exception of the fallback channel reaches the caller of [query] and of
    [query_rest]; neither returns an empty dict. *)
Lemma fallback_exception_reaches_caller :
  query (down "aiohttp") (down "requests") "{ viewer { login } }" =
    ([EPrimary graphql_url; EPrint msg_graphql_failed; EFallback graphql_url],
     Err (ChannelError "requests")) /\
  query_rest (down_get "aiohttp") (down_get "requests") "/repos/o/r" None =
    ([EPrimary "https://api.github.com/repos/o/r"; EPrint msg_rest_failed;
      EFallback "https://api.github.com/repos/o/r"],
     Err (ChannelError "requests")) /\
  Err (ChannelError "requests") <> Ok (JDict []).
Proof. repeat split. discriminate. Qed.

(** C3 on a REST query whose primary channel is down and whose fallback
    channel is refused twice, then raises: round 2 is reached, and its
    exception goes to the caller. *)
Lemma fallback_once_then_propagate_witness :
  reached (down_get "aiohttp") refused_then_down "/repos/o/r" None 2 /\
  primary_raised (down_get "aiohttp") 2 (round_url "/repos/o/r" 2)
                 (round_params None) = true /\
  snd (query_rest (down_get "aiohttp") refused_then_down "/repos/o/r" None) =
    Err (ChannelError "requests").
Proof.
  assert (Hr : reached (down_get "aiohttp") refused_then_down "/repos/o/r" None 2).
  { intros j Hj. destruct j as [|[|j]]; [reflexivity|reflexivity|lia]. }
  split; [exact Hr|]. split; [reflexivity|].
  exact (proj2 (proj2 (proj2 fallback_once_then_propagate))
           (down_get "aiohttp") refused_then_down "/repos/o/r" None 2%nat
           ltac:(lia) Hr eq_refl).
Defined.

(** An exception of the fallback channel in a later round goes to the
    caller too. *)
Example fallback_exception_in_round_2 :
  query_rest (down_get "aiohttp") refused_then_down "repos/o/r" None =
    ([EPrimary "https://api.github.com/repos/o/r"; EPrint msg_rest_failed;
      EFallback "https://api.github.com/repos/o/r";
      EPrimary "https://api.github.com/repos/o/r"; EPrint msg_rest_failed;
      EFallback "https://api.github.com/repos/o/r";
      EPrimary "https://api.github.com/repos/o/r"; EPrint msg_rest_failed;
      EFallback "https://api.github.com/repos/o/r"],
     Err (ChannelError "requests")).
Proof. vm_compute. reflexivity. Qed.

(** C6.  When every round indicates HTTP 202, [query_rest] makes exactly
    60 attempts, sleeps 2 after each of them, prints that the data will be
    incomplete and returns an empty dict. *)
Theorem query_rest_gives_up_after_60
  (sg rg : nat -> string -> params_t -> result response)
  (path : string) (params : option params_t) :
  (forall i url p, pending sg rg i url p) ->
  snd (query_rest sg rg path params) = Ok (JDict []) /\
  attempts (fst (query_rest sg rg path params)) = 60%nat /\
  sleeps (fst (query_rest sg rg path params)) = repeat 2 60 /\
  rhythm (fst (query_rest sg rg path params)) = List.concat (repeat [false; true] 60) /\
  last (fst (query_rest sg rg path params)) (ESleep 0) = EPrint msg_too_many.
Proof. intros H. unfold query_rest. now apply query_rest_loop_pending. Qed.

(** C6 on a channel that answers 202 to every request. *)
Lemma query_rest_gives_up_after_60_witness :
  (forall i url p, pending always_202 (down_get "requests") i url p) /\
  snd (query_rest always_202 (down_get "requests") "/repos/o/r/stats/contributors" None)
    = Ok (JDict []) /\
  attempts (fst (query_rest always_202 (down_get "requests")
                   "/repos/o/r/stats/contributors" None)) = 60%nat.
Proof.
  split.
  - intros i url p. reflexivity.
  - pose proof (query_rest_gives_up_after_60 always_202 (down_get "requests")
                  "/repos/o/r/stats/contributors" None
                  (fun i url p => eq_refl)) as H.
    split; [apply H | apply H].
Defined.

End QueriesFacts.

(* ================================================================== *)
(** * Facts about the Python operations and the state monad *)
(* ================================================================== *)

Module PyFacts.
Import Py.

Lemma bind_Return {S A B : Type} (m : M S A) (k : A -> M S B) s b s' :
  bind m k s = (Return b, s') ->
  exists a s1, m s = (Return a, s1) /\ k a s1 = (Return b, s').
Proof.
  unfold bind. destruct (m s) as [[a| |] s1]; try discriminate.
  intros H. now exists a, s1.
Qed.

Lemma bind_step {S A B : Type} (m : M S A) (k : A -> M S B) s a s1 :
  m s = (Return a, s1) -> bind m k s = k a s1.
Proof. unfold bind. now intros ->. Qed.

Lemma lift_Return {S A : Type} (r : result A) (s s' : S) (a : A) :
  lift r s = (Return a, s') -> r = Ok a /\ s' = s.
Proof. unfold lift. destruct r; intros [= <- <-]; auto. Qed.

Lemma lift_Ok {S A : Type} (a : A) (s : S) : lift (Ok a) s = (Return a, s).
Proof. reflexivity. Qed.

Lemma for_each_app {S A : Type} (l1 l2 : list A) (body : A -> M S unit) (s : S) :
  for_each (l1 ++ l2) body s = bind (for_each l1 body) (fun _ => for_each l2 body) s.
Proof.
  revert s. induction l1 as [|x l1 IH]; intros s; simpl.
  - reflexivity.
  - unfold bind. destruct (body x s) as [[[]| |] s1]; auto.
Qed.

(** ** Code that leaves a part of the state alone *)

Lemma preserves_ret {S A X : Type} (f : S -> X) (a : A) : preserves f (@ret S A a).
Proof. intros s o s' [= _ <-]. reflexivity. Qed.

Lemma preserves_lift {S A X : Type} (f : S -> X) (r : result A) :
  preserves f (@lift S A r).
Proof. intros s o s' [= _ <-]. reflexivity. Qed.

Lemma preserves_get {S X : Type} (f : S -> X) : preserves f (@get S).
Proof. intros s o s' [= _ <-]. reflexivity. Qed.

Lemma preserves_gets {S X Y : Type} (f : S -> X) (g : S -> Y) : preserves f (gets g).
Proof. intros s o s' [= _ <-]. reflexivity. Qed.

Lemma preserves_modify {S X : Type} (f : S -> X) (g : S -> S) :
  (forall s, f (g s) = f s) -> preserves f (modify g).
Proof. intros H s o s' [= _ <-]. apply H. Qed.

Lemma preserves_bind {S A B X : Type} (f : S -> X) (m : M S A) (k : A -> M S B) :
  preserves f m -> (forall a, preserves f (k a)) -> preserves f (bind m k).
Proof.
  intros Hm Hk s o s'. unfold bind.
  destruct (m s) as [[a|e|] s1] eqn:E; intros H.
  - rewrite (Hk a s1 o s' H). eapply Hm; eauto.
  - injection H as _ <-. eapply Hm; eauto.
  - injection H as _ <-. eapply Hm; eauto.
Qed.

Lemma preserves_for_each {S A X : Type} (f : S -> X) (l : list A) (body : A -> M S unit) :
  (forall x, preserves f (body x)) -> preserves f (for_each l body).
Proof.
  intros Hb. induction l as [|x l IH]; simpl.
  - apply preserves_ret.
  - apply preserves_bind; auto.
Qed.

(** ** Keys *)

Lemma key_eqb_refl (x : json) : hashable x = true -> key_eqb x x = true.
Proof.
  destruct x as [|[|]|z|s|l|d]; simpl; try discriminate; intros _; auto.
  - apply Z.eqb_refl.
  - apply String.eqb_refl.
Qed.

Lemma existsb_snoc {A : Type} (f : A -> bool) (l : list A) (x : A) :
  existsb f (l ++ [x]) = existsb f l || f x.
Proof. rewrite existsb_app. simpl. now rewrite orb_false_r. Qed.

End PyFacts.

(* ================================================================== *)
(** * Facts about the fold *)
(* ================================================================== *)

Module FoldFacts.
Import Py Queries Stats PyFacts.

Create HintDb keep discriminated.
#[export] Hint Resolve preserves_ret preserves_lift preserves_gets : keep.

Lemma fold_lang_keeps_repos (lang : json) : preserves acc_repos (fold_lang lang).
Proof.
  unfold fold_lang.
  apply preserves_bind; [auto with keep|intros node].
  apply preserves_bind; [auto with keep|intros name].
  apply preserves_bind; [auto with keep|intros languages].
  apply preserves_bind; [auto with keep|intros present].
  destruct present;
    (apply preserves_bind; [auto with keep|intros sz]).
  - apply preserves_bind; [auto with keep|intros d].
    apply preserves_modify. reflexivity.
  - apply preserves_modify. reflexivity.
Qed.

Lemma count_repo_keeps_repos (repo : json) : preserves acc_repos (count_repo repo).
Proof.
  unfold count_repo.
  repeat first
    [ apply preserves_for_each; intros; apply fold_lang_keeps_repos
    | apply preserves_modify; reflexivity
    | solve [auto with keep]
    | apply preserves_bind; [|intros ?] ].
Qed.

(** The set of repositories only grows. *)
Lemma fold_repo_grows (repo : json) (a a' : acc) o :
  fold_repo repo a = (o, a') ->
  acc_repos a' = acc_repos a \/
  exists name, py_get repo "nameWithOwner" JNull = Ok name /\
               hashable name = true /\
               acc_repos a' = acc_repos a ++ [name].
Proof.
  unfold fold_repo. destruct (is_none repo).
  { intros [= _ <-]. now left. }
  unfold bind at 1. unfold lift at 1.
  destruct (py_get repo "nameWithOwner" JNull) as [name|e].
  2:{ intros [= _ <-]. now left. }
  unfold bind at 1. unfold gets at 1.
  unfold bind at 1. unfold lift at 1. unfold set_contains.
  destruct (hashable name) eqn:Hh.
  2:{ intros [= _ <-]. now left. }
  destruct (existsb (key_eqb name) (acc_repos a)).
  { intros [= _ <-]. now left. }
  unfold bind at 1. unfold modify at 1. intros H.
  apply count_repo_keeps_repos in H. simpl in H.
  right. exists name. auto.
Qed.

Lemma fold_repo_mono (repo : json) (a a' : acc) o (x : json) :
  fold_repo repo a = (o, a') ->
  existsb (key_eqb x) (acc_repos a) = true ->
  existsb (key_eqb x) (acc_repos a') = true.
Proof.
  intros H Hx. apply fold_repo_grows in H as [-> | (name & _ & _ & ->)]; auto.
  rewrite existsb_snoc, Hx. reflexivity.
Qed.

Lemma fold_page_mono (page : list json) (a a' : acc) o (x : json) :
  fold_page page a = (o, a') ->
  existsb (key_eqb x) (acc_repos a) = true ->
  existsb (key_eqb x) (acc_repos a') = true.
Proof.
  revert a. induction page as [|repo page IH]; intros a; simpl.
  - intros [= _ <-]. auto.
  - unfold fold_page in *. simpl. unfold bind.
    destruct (fold_repo repo a) as [[[]|e|] a1] eqn:E; intros H Hx.
    + eapply IH; eauto. eapply fold_repo_mono; eauto.
    + injection H as _ <-. eapply fold_repo_mono; eauto.
    + injection H as _ <-. eapply fold_repo_mono; eauto.
Qed.

(** After the fold of a repository has returned, its key is in the set. *)
Lemma fold_repo_seen (repo : json) (a a' : acc) :
  fold_repo repo a = (Return tt, a') ->
  is_none repo = false ->
  exists name, py_get repo "nameWithOwner" JNull = Ok name /\
               set_contains name (acc_repos a') = Ok true.
Proof.
  intros H Hn. revert H. unfold fold_repo. rewrite Hn.
  unfold bind at 1. unfold lift at 1.
  destruct (py_get repo "nameWithOwner" JNull) as [name|e]; [|discriminate].
  unfold bind at 1. unfold gets at 1.
  unfold bind at 1. unfold lift at 1. unfold set_contains.
  destruct (hashable name) eqn:Hh; [|discriminate].
  destruct (existsb (key_eqb name) (acc_repos a)) eqn:Hex.
  - intros [= <-]. exists name. now rewrite Hh, Hex.
  - unfold bind at 1. unfold modify at 1. intros H.
    apply count_repo_keeps_repos in H. simpl in H.
    exists name. split; [reflexivity|].
    rewrite Hh, H, existsb_snoc, key_eqb_refl by assumption.
    now rewrite orb_true_r.
Qed.

(** A repository whose key is in the set is skipped. *)
Lemma fold_repo_skip (repo name : json) (a : acc) :
  py_get repo "nameWithOwner" JNull = Ok name ->
  set_contains name (acc_repos a) = Ok true ->
  fold_repo repo a = (Return tt, a).
Proof.
  intros Hg Hs. unfold fold_repo. destruct (is_none repo); [reflexivity|].
  unfold bind, lift, gets. rewrite Hg, Hs. reflexivity.
Qed.

Lemma set_contains_mono (name : json) (s s' : list json) :
  set_contains name s = Ok true ->
  (forall x, existsb (key_eqb x) s = true -> existsb (key_eqb x) s' = true) ->
  set_contains name s' = Ok true.
Proof.
  unfold set_contains. destruct (hashable name); [|discriminate].
  intros [= H] Hm. now rewrite (Hm _ H).
Qed.

Lemma fold_page_again (page : list json) (a a' : acc) :
  fold_page page a = (Return tt, a') ->
  forall b, (forall x, existsb (key_eqb x) (acc_repos a') = true ->
                       existsb (key_eqb x) (acc_repos b) = true) ->
            fold_page page b = (Return tt, b).
Proof.
  unfold fold_page. revert a. induction page as [|repo page IH]; intros a H b Hb.
  - reflexivity.
  - simpl in H. apply bind_Return in H as ([] & a1 & H1 & H2).
    simpl. assert (Hr : fold_repo repo b = (Return tt, b)).
    { destruct (is_none repo) eqn:Hn.
      - unfold fold_repo. now rewrite Hn.
      - destruct (fold_repo_seen _ _ _ H1 Hn) as (name & Hg & Hs).
        eapply fold_repo_skip; eauto.
        eapply set_contains_mono; eauto.
        intros x Hx. apply Hb. eapply (fold_page_mono page); eauto. }
    rewrite (bind_step _ _ _ _ _ Hr). eapply IH; eauto.
Qed.

(** C9.  Folding a page a second time changes nothing: if the fold of
    [page] from [a] returns and leaves [a'], the fold of the same page from
    [a'] returns and leaves [a'] too (repository set, star total, fork
    total and language sizes). *)
Theorem fold_page_idempotent (page : list json) (a a' : acc) :
  fold_page page a = (Return tt, a') ->
  fold_page page a' = (Return tt, a').
Proof. intros H. eapply fold_page_again; eauto. Qed.

End FoldFacts.

(* ================================================================== *)
(** * The fold on well-formed nodes *)
(* ================================================================== *)

Module ModelFacts.
Import Py Queries Stats Model PyFacts FoldFacts.
Import Notions.

Lemma key_eqb_key (n m : option string) : key_eqb (key n) (key m) = name_eqb n m.
Proof. destruct n, m; reflexivity. Qed.

Lemma set_contains_key (n : option string) (l : list (option string)) :
  set_contains (key n) (map key l) = Ok (existsb (name_eqb n) l).
Proof.
  unfold set_contains. replace (hashable (key n)) with true by now destruct n.
  f_equal. induction l as [|m l IH]; simpl; [reflexivity|].
  now rewrite key_eqb_key, IH.
Qed.

Lemma dict_contains_lang (n : string) (m : list (string * Z)) :
  dict_contains (JStr n) (map lang_item m) = Ok (existsb (lang_is n) m).
Proof.
  unfold dict_contains. simpl. f_equal.
  induction m as [|e m IH]; simpl; [reflexivity|]. now rewrite IH.
Qed.

Lemma dict_iadd_size_lang (n : string) (s : Z) (m : list (string * Z)) :
  existsb (lang_is n) m = true ->
  dict_iadd_size (JStr n) (JInt s) (map lang_item m) =
    Ok (map lang_item (add_size (n, s) m)).
Proof.
  induction m as [|[n' s'] m IH]; simpl; [discriminate|].
  unfold lang_is at 1. simpl. destruct (String.eqb n n') eqn:E; simpl.
  - reflexivity.
  - intros H. rewrite (IH H). reflexivity.
Qed.

Lemma add_size_absent (n : string) (s : Z) (m : list (string * Z)) :
  existsb (lang_is n) m = false -> add_size (n, s) m = m ++ [(n, s)].
Proof.
  induction m as [|[n' s'] m IH]; simpl; [reflexivity|].
  unfold lang_is at 1. simpl. destruct (String.eqb n n'); simpl; [discriminate|].
  intros H. now rewrite (IH H).
Qed.

Lemma fold_lang_edge (e : string * Z) (a : acc) (m : list (string * Z)) :
  acc_languages a = map lang_item m ->
  fold_lang (encode_edge e) a =
    (Return tt, set_languages a (map lang_item (add_size e m))).
Proof.
  intros Ha. destruct e as [n s]. unfold fold_lang, encode_edge.
  unfold bind, lift, gets, modify.
  cbn [py_get assoc String.eqb Ascii.eqb Bool.eqb fst snd].
  rewrite Ha, dict_contains_lang.
  destruct (existsb (lang_is n) m) eqn:E.
  - now rewrite dict_iadd_size_lang.
  - now rewrite add_size_absent, map_app.
Qed.

Lemma set_languages_twice (a : acc) (d d' : dict) :
  set_languages (set_languages a d) d' = set_languages a d'.
Proof. reflexivity. Qed.

Lemma set_languages_same (a : acc) : set_languages a (acc_languages a) = a.
Proof. now destruct a. Qed.

Lemma for_each_edges (es : list (string * Z)) (a : acc) (m : list (string * Z)) :
  acc_languages a = map lang_item m ->
  for_each (map encode_edge es) fold_lang a =
    (Return tt, set_languages a (map lang_item (add_sizes es m))).
Proof.
  revert a m. induction es as [|e es IH]; intros a m Ha; simpl.
  - unfold ret. now rewrite <- Ha, set_languages_same.
  - rewrite (bind_step _ _ _ _ _ (fold_lang_edge e a m Ha)).
    rewrite (IH _ (add_size e m)) by reflexivity.
    reflexivity.
Qed.

Lemma fold_repo_encoded (r : repo) (t : totals) :
  fold_repo (encode_repo r) (to_acc t) = (Return tt, to_acc (add_repo t r)).
Proof.
  assert (Hn : py_get (encode_repo r) "nameWithOwner" JNull = Ok (key (nameWithOwner r))).
  { unfold encode_repo. destruct (nameWithOwner r); reflexivity. }
  assert (Hs : py_get (encode_repo r) "stargazers" JNull
               = Ok (JDict [("totalCount", JInt (totalCount r))])).
  { unfold encode_repo. destruct (nameWithOwner r); reflexivity. }
  assert (Hf : py_get (encode_repo r) "forkCount" (JInt 0) = Ok (JInt (forkCount r))).
  { unfold encode_repo. destruct (nameWithOwner r); reflexivity. }
  assert (Hl : py_get (encode_repo r) "languages" (JDict [])
               = Ok (JDict [("edges", JList (map encode_edge (edges r)))])).
  { unfold encode_repo. destruct (nameWithOwner r); reflexivity. }
  unfold fold_repo, add_repo, count_repo.
  change (is_none (encode_repo r)) with false. cbv iota.
  unfold bind, lift, gets, modify. rewrite Hn.
  change (acc_repos (to_acc t)) with (map key (t_repos t)).
  rewrite set_contains_key.
  destruct (existsb (name_eqb (nameWithOwner r)) (t_repos t)); [reflexivity|].
  rewrite Hs, Hf, Hl.
  cbn [py_get assoc String.eqb Ascii.eqb Bool.eqb int_iadd as_int py_iter].
  rewrite (for_each_edges (edges r) _ (t_langs t)) by reflexivity.
  unfold to_acc, set_languages, set_forks, set_stargazers, set_repos.
  cbn [acc_stargazers acc_forks acc_languages acc_repos t_repos t_stars t_forks t_langs].
  now rewrite map_app.
Qed.

Lemma fold_page_encoded (rs : list repo) (t : totals) :
  fold_page (map encode_repo rs) (to_acc t) =
    (Return tt, to_acc (fold_left add_repo rs t)).
Proof.
  unfold fold_page. revert t. induction rs as [|r rs IH]; intros t; simpl.
  - reflexivity.
  - rewrite (bind_step _ _ _ _ _ (fold_repo_encoded r t)). apply IH.
Qed.

(** ** The fold and the first occurrences *)

Lemma fold_add_repo_firsts (rs : list repo) (t : totals) :
  fold_left add_repo rs t = fold_left add_new (firsts_from (t_repos t) rs) t.
Proof.
  revert t. induction rs as [|r rs IH]; intros t; simpl; [reflexivity|].
  unfold add_repo at 2.
  destruct (existsb (name_eqb (nameWithOwner r)) (t_repos t)); simpl.
  - apply IH.
  - rewrite IH. reflexivity.
Qed.

Lemma add_sizes_app (es1 es2 m : list (string * Z)) :
  add_sizes (es1 ++ es2) m = add_sizes es2 (add_sizes es1 m).
Proof. unfold add_sizes. apply fold_left_app. Qed.

Lemma fold_add_new (l : list repo) (t : totals) :
  fold_left add_new l t =
    {| t_repos := t_repos t ++ map nameWithOwner l;
       t_stars := t_stars t + zsum (map totalCount l);
       t_forks := t_forks t + zsum (map forkCount l);
       t_langs := add_sizes (flat_map edges l) (t_langs t) |}.
Proof.
  revert t. induction l as [|r l IH]; intros t; simpl.
  - destruct t; simpl. now rewrite app_nil_r, !Z.add_0_r.
  - rewrite IH. unfold add_new; simpl.
    rewrite <- app_assoc, add_sizes_app, !Z.add_assoc. reflexivity.
Qed.

(** The fold of the code on any sequence of well-formed nodes computes
    the aggregate of their first occurrences. *)
Lemma fold_add_repo_aggregate (rs : list repo) :
  fold_left add_repo rs totals0 = aggregate rs.
Proof. rewrite fold_add_repo_firsts, fold_add_new. reflexivity. Qed.

Lemma name_eqb_eq (a b : option string) : name_eqb a b = true <-> a = b.
Proof.
  destruct a as [s|], b as [t|]; simpl; split; try discriminate; auto.
  - intros H. apply String.eqb_eq in H. now subst.
  - intros [= ->]. apply String.eqb_refl.
Qed.

(** Of the nodes of one name, the first occurrences keep the first, and
    nothing when the name was seen before. *)
Lemma filter_firsts_from (n : option string) (rs : list repo) (seen : list (option string)) :
  filter (has_name n) (firsts_from seen rs) =
    if existsb (name_eqb n) seen then []
    else match find (has_name n) rs with Some r => [r] | None => [] end.
Proof.
  revert seen. induction rs as [|r rs IH]; intros seen; simpl.
  - now destruct (existsb (name_eqb n) seen).
  - destruct (existsb (name_eqb (nameWithOwner r)) seen) eqn:Er.
    + rewrite IH. destruct (has_name n r) eqn:En; [|reflexivity].
      apply name_eqb_eq in En. subst n. now rewrite Er.
    + simpl. rewrite IH, existsb_snoc.
      destruct (has_name n r) eqn:En.
      * unfold has_name in En. rewrite En, orb_true_r.
        apply name_eqb_eq in En. subst n. now rewrite Er.
      * unfold has_name in En. rewrite En, orb_false_r. reflexivity.
Qed.

Lemma filter_first_occurrences (n : option string) (rs : list repo) :
  filter (has_name n) (first_occurrences rs) =
    match find (has_name n) rs with Some r => [r] | None => [] end.
Proof. unfold first_occurrences. now rewrite filter_firsts_from. Qed.

Lemma find_has_name (n : option string) (rs : list repo) :
  In n (map nameWithOwner rs) -> exists r, find (has_name n) rs = Some r.
Proof.
  induction rs as [|r rs IH]; simpl; [contradiction|].
  intros [H|H].
  - exists r. unfold has_name. rewrite <- H.
    now rewrite (proj2 (name_eqb_eq _ _) eq_refl).
  - destruct (has_name n r); [now exists r|auto].
Qed.

Lemma count_occ_names (n : option string) (l : list repo) :
  count_occ name_dec (map nameWithOwner l) n = List.length (filter (has_name n) l).
Proof.
  induction l as [|r l IH]; simpl; [reflexivity|].
  unfold has_name at 1.
  destruct (name_dec (nameWithOwner r) n) as [E|E].
  - subst n. rewrite (proj2 (name_eqb_eq _ _) eq_refl). simpl. now rewrite IH.
  - destruct (name_eqb n (nameWithOwner r)) eqn:En.
    + apply name_eqb_eq in En. congruence.
    + exact IH.
Qed.

(** ** The loop against the double *)

Lemma connection_nodes (pages : list page) (k : nat) :
  py_get (connection_at pages k) "nodes" (JList []) =
    Ok (JList (map encode_repo (nodes_at pages k))).
Proof. unfold connection_at, nodes_at. now destruct (nth_error pages k). Qed.

Lemma connection_has_next (pages : list page) (k : nat) :
  page_info (connection_at pages k) "hasNextPage" (JBool false) =
    Ok (JBool (S k <? List.length pages)%nat).
Proof.
  unfold connection_at. destruct (nth_error pages k) eqn:E; [reflexivity|].
  apply nth_error_None in E.
  replace (S k <? List.length pages)%nat with false; [reflexivity|].
  symmetry. apply Nat.ltb_ge. lia.
Qed.

Lemma connection_cursor (pages : list page) (k : nat) (default : json) :
  page_info (connection_at pages k) "endCursor" default =
    Ok (key (next_cursor pages k)).
Proof. unfold connection_at, next_cursor. now destruct (nth_error pages k). Qed.

Lemma repos_overview_key (oc cc : option string) :
  repos_overview (key cc) (key oc) = Ok (ReposOverview oc cc).
Proof. now destruct oc, cc. Qed.

Lemma ltb_max (k n m : nat) :
  ((k <? n) || (k <? m))%nat = (k <? Nat.max n m)%nat.
Proof.
  destruct (k <? n)%nat eqn:E1, (k <? m)%nat eqn:E2, (k <? Nat.max n m)%nat eqn:E3;
    try reflexivity;
    rewrite ?Nat.ltb_lt, ?Nat.ltb_ge in *; lia.
Qed.

(** One round against the double: the nodes of both pages are folded,
    owned first, and the loop goes on exactly when a stream has a page
    left. *)
Lemma page_round_double (owned contrib : list page) (k : nat) (t : totals)
      (reqs : list request) (oc cc : option string) :
  List.length reqs = k ->
  page_round (double owned contrib) (key oc) (key cc) (to_acc t, reqs) =
    (Return (if (S k <? rounds owned contrib)%nat
             then Some (key (next_cursor owned k), key (next_cursor contrib k))
             else None),
     (to_acc (fold_left add_repo (fetched_at owned contrib k) t),
      reqs ++ [ReposOverview oc cc])).
Proof.
  intros Hk. unfold page_round.
  unfold bind at 1. unfold lift at 1. rewrite repos_overview_key.
  unfold bind at 1. unfold send at 1, double. cbn [fst snd]. rewrite Hk.
  unfold answer, not_none_or. cbn [is_none].
  unfold bind, lift, connection.
  cbn [py_get assoc String.eqb Ascii.eqb Bool.eqb rbind].
  rewrite !connection_nodes. cbn [py_iadd py_iter].
  rewrite <- map_app. unfold on_acc. cbn [fst snd].
  fold (fetched_at owned contrib k).
  rewrite fold_page_encoded.
  unfold more_pages.
  rewrite !connection_has_next, !connection_cursor. cbn [truthy rbind].
  unfold rounds. rewrite <- ltb_max.
  destruct (S k <? List.length owned)%nat; cbn [ret orb rbind].
  - reflexivity.
  - destruct (S k <? List.length contrib)%nat; reflexivity.
Qed.

Lemma loop_double (owned contrib : list page) (d : nat) :
  forall (k : nat) (t : totals) (reqs : list request) (oc cc : option string)
         (fuel : nat),
    rounds owned contrib = (k + S d)%nat ->
    List.length reqs = k ->
    (S d <= fuel)%nat ->
    exists reqs',
      get_stats_loop (double owned contrib) fuel (key oc) (key cc) (to_acc t, reqs) =
        (Return tt,
         (to_acc (fold_left add_repo
                    (flat_map (fetched_at owned contrib) (seq k (S d))) t),
          reqs')) /\
      List.length reqs' = rounds owned contrib.
Proof.
  induction d as [|d IH]; intros k t reqs oc cc fuel HR Hk Hfuel;
    (destruct fuel as [|fuel]; [lia|]); simpl get_stats_loop;
    rewrite (bind_step _ _ _ _ _ (page_round_double owned contrib k t reqs oc cc Hk)).
  - replace (S k <? rounds owned contrib)%nat with false
      by (symmetry; apply Nat.ltb_ge; lia).
    exists (reqs ++ [ReposOverview oc cc]). split.
    + simpl. now rewrite app_nil_r.
    + rewrite length_app. simpl. lia.
  - replace (S k <? rounds owned contrib)%nat with true
      by (symmetry; apply Nat.ltb_lt; lia).
    destruct (IH (S k) (fold_left add_repo (fetched_at owned contrib k) t)
                 (reqs ++ [ReposOverview oc cc])
                 (next_cursor owned k) (next_cursor contrib k) fuel)
      as (reqs' & Hrun & Hlen); [lia | rewrite length_app; simpl; lia | lia |].
    exists reqs'. split; [|exact Hlen].
    rewrite Hrun. change (seq k (S (S d))) with (k :: seq (S k) (S d)).
    cbn [flat_map]. now rewrite fold_left_app.
Qed.

(** The whole loop against the double, from the state [get_stats] starts
    it in. *)
Lemma loop_double_all (owned contrib : list page) (fuel : nat) :
  (1 <= rounds owned contrib)%nat ->
  (rounds owned contrib <= fuel)%nat ->
  exists reqs,
    get_stats_loop (double owned contrib) fuel JNull JNull (acc0, []) =
      (Return tt, (to_acc (aggregate (fetched owned contrib)), reqs)) /\
    List.length reqs = rounds owned contrib.
Proof.
  intros H1 Hf.
  destruct (loop_double owned contrib (rounds owned contrib - 1) 0 totals0 []
                        None None fuel) as (reqs & Hrun & Hlen); try (simpl; lia).
  exists reqs. split; [|exact Hlen].
  change JNull with (key None). change acc0 with (to_acc totals0).
  rewrite Hrun. rewrite <- fold_add_repo_aggregate. unfold fetched.
  fold (rounds owned contrib).
  replace (S (rounds owned contrib - 1)) with (rounds owned contrib) by lia.
  reflexivity.
Qed.

(** ** The test of the loop, for any transport *)

Lemma more_pages_iff (owned_repos contrib_repos : json) (b : bool) :
  more_pages owned_repos contrib_repos = Ok b ->
  (b = true <-> reports_more owned_repos \/ reports_more contrib_repos).
Proof.
  unfold more_pages, reports_more.
  destruct (page_info owned_repos "hasNextPage" (JBool false)) as [ho|e];
    [|discriminate].
  cbn [rbind]. destruct (truthy ho) eqn:Eo.
  - intros [= <-]. split; [|reflexivity]. intros _. left. eauto.
  - destruct (page_info contrib_repos "hasNextPage" (JBool false)) as [hc|e];
      [|discriminate].
    cbn [rbind]. intros [= <-]. split.
    + intros Hc. right. eauto.
    + intros [(h & [= <-] & Hh) | (h & [= <-] & Hh)]; congruence.
Qed.

(** The loop goes on after a round exactly when one of the two
    connections of the answer reports more pages. *)
Lemma page_round_goes_on (transport : nat -> request -> result json)
      (next_owned next_contrib : json) (s s' : lstate)
      (next : option (json * json)) :
  page_round transport next_owned next_contrib s = (Return next, s') ->
  exists q raw owned_repos contrib_repos,
    repos_overview next_contrib next_owned = Ok q /\
    transport (List.length (snd s)) q = Ok raw /\
    connection (not_none_or (JDict []) raw) "repositories" = Ok owned_repos /\
    connection (not_none_or (JDict []) raw) "repositoriesContributedTo"
      = Ok contrib_repos /\
    (next <> None <-> reports_more owned_repos \/ reports_more contrib_repos).
Proof.
  unfold page_round. intros H.
  apply bind_Return in H as (q & s1 & Hq & H).
  apply lift_Return in Hq as [Hq ->].
  apply bind_Return in H as (raw & s2 & Hraw & H).
  assert (Ht : transport (List.length (snd s)) q = Ok raw).
  { unfold send in Hraw. destruct (transport (List.length (snd s)) q);
      congruence. }
  cbv zeta in H.
  apply bind_Return in H as (contrib_repos & s3 & Hc & H).
  apply lift_Return in Hc as [Hc ->].
  apply bind_Return in H as (owned_repos & s4 & Ho & H).
  apply lift_Return in Ho as [Ho ->].
  apply bind_Return in H as (r1 & s5 & _ & H).
  apply bind_Return in H as (r2 & s6 & _ & H).
  apply bind_Return in H as (r3 & s7 & _ & H).
  apply bind_Return in H as (r4 & s8 & _ & H).
  apply bind_Return in H as (r5 & s9 & _ & H).
  apply bind_Return in H as (go_on & s10 & Hg & H).
  apply lift_Return in Hg as [Hg ->].
  exists q, raw, owned_repos, contrib_repos. repeat split; auto.
  - intros Hn. apply (more_pages_iff _ _ _ Hg).
    destruct go_on; [reflexivity|]. injection H as <- _. contradiction.
  - intros Hr. apply (more_pages_iff _ _ _ Hg) in Hr. subst go_on.
    apply bind_Return in H as (o & s11 & _ & H).
    apply bind_Return in H as (c & s12 & _ & H).
    injection H as <- _. discriminate.
Qed.

Lemma stream_nodes_fetched_owned (owned contrib : list page) (r : repo) :
  In r (stream_nodes owned) -> In r (fetched owned contrib).
Proof.
  unfold stream_nodes, fetched. rewrite !in_flat_map.
  intros (p & Hp & Hr). apply In_nth_error in Hp as (k & Hk).
  exists k. split.
  - apply in_seq. assert (k < List.length owned)%nat
      by (apply nth_error_Some; congruence). lia.
  - unfold fetched_at, nodes_at. rewrite Hk. apply in_or_app. now left.
Qed.

Lemma stream_nodes_fetched_contrib (owned contrib : list page) (r : repo) :
  In r (stream_nodes contrib) -> In r (fetched owned contrib).
Proof.
  unfold stream_nodes, fetched. rewrite !in_flat_map.
  intros (p & Hp & Hr). apply In_nth_error in Hp as (k & Hk).
  exists k. split.
  - apply in_seq. assert (k < List.length contrib)%nat
      by (apply nth_error_Some; congruence). lia.
  - unfold fetched_at, nodes_at. rewrite Hk. apply in_or_app. now right.
Qed.

Lemma fetched_rounds (owned contrib : list page) (r : repo) :
  In r (fetched owned contrib) -> (1 <= rounds owned contrib)%nat.
Proof.
  unfold fetched. rewrite in_flat_map. intros (k & Hk & _).
  apply in_seq in Hk. unfold rounds. lia.
Qed.

(** ** The loop against the transport by cursor *)

Lemma addressable_tail (p : page) (pages : list page) :
  addressable (p :: pages) -> addressable pages.
Proof.
  intros [Hd Hn]. split.
  - now inversion Hd.
  - intros H. apply Hn. now right.
Qed.

Lemma rank_after_nth (pages : list page) :
  addressable pages ->
  forall (j : nat) (p : page) (c : string),
    nth_error pages j = Some p -> endCursor p = Some c ->
    rank_after pages c = S j.
Proof.
  induction pages as [|a pages IH]; intros Ha j p c Hj Hc.
  - destruct j; discriminate.
  - destruct j as [|j]; cbn [nth_error] in Hj; cbn [rank_after].
    + injection Hj as ->. now rewrite Hc, String.eqb_refl.
    + destruct (endCursor a) as [c'|] eqn:Ea.
      * destruct (String.eqb c c') eqn:E.
        { apply String.eqb_eq in E. subst c'. exfalso.
          destruct Ha as [Hd _]. inversion Hd as [|? ? Hnin _]; subst.
          apply Hnin. cbn [map]. rewrite Ea, <- Hc.
          apply in_map. eapply nth_error_In; eauto. }
        f_equal. eapply IH; eauto. eapply addressable_tail; eauto.
      * f_equal. eapply IH; eauto. eapply addressable_tail; eauto.
Qed.

(** The cursor the loop holds for a rank asks the transport for that
    rank. *)
Lemma page_rank_cursor (pages : list page) (i : nat) :
  addressable pages -> (i <= List.length pages)%nat ->
  page_rank pages (cursor_before pages i) = i.
Proof.
  intros Ha Hi. destruct i as [|j]; [reflexivity|].
  cbn [cursor_before]. unfold next_cursor.
  destruct (nth_error pages j) as [p|] eqn:Ej.
  - destruct (endCursor p) as [c|] eqn:Ec.
    + cbn [page_rank]. eapply rank_after_nth; eauto.
    + exfalso. destruct Ha as [_ Hn]. apply Hn. rewrite <- Ec.
      apply in_map. eapply nth_error_In; eauto.
  - apply nth_error_None in Ej. lia.
Qed.

Lemma next_cursor_turn (pages : list page) (i : nat) :
  (i <= List.length pages)%nat ->
  next_cursor pages i = cursor_before pages (turn pages i).
Proof.
  intros Hi. unfold turn. destruct (i <? List.length pages)%nat eqn:E.
  - reflexivity.
  - apply Nat.ltb_ge in E. unfold next_cursor.
    replace (nth_error pages i) with (@None page); [reflexivity|].
    symmetry. apply nth_error_None. lia.
Qed.

Lemma position_S (pages : list page) (k : nat) :
  position pages (S k) = turn pages (position pages k).
Proof. reflexivity. Qed.

Lemma position_le (pages : list page) (k : nat) :
  (position pages k <= List.length pages)%nat.
Proof.
  destruct k as [|k]; [unfold position; simpl; lia|].
  rewrite position_S. unfold turn.
  destruct (position pages k <? List.length pages)%nat eqn:E;
    [apply Nat.ltb_lt in E|]; lia.
Qed.

Lemma position_id (pages : list page) (k : nat) :
  (k <= List.length pages)%nat -> position pages k = k.
Proof.
  induction k as [|k IH]; intros Hk; [reflexivity|].
  rewrite position_S, IH by lia. unfold turn.
  replace (k <? List.length pages)%nat with true; [reflexivity|].
  symmetry. apply Nat.ltb_lt. lia.
Qed.

(** The ranks go round: the pages, the answer past the last one, and
    the pages again. *)
Lemma position_mod (pages : list page) (k : nat) :
  position pages k = (k mod S (List.length pages))%nat.
Proof.
  induction k as [|k IH].
  - change (position pages 0) with O. apply (Nat.mod_unique _ _ O); lia.
  - rewrite position_S, IH. unfold turn.
    assert (Hb : (k mod S (List.length pages) < S (List.length pages))%nat)
      by (apply Nat.mod_upper_bound; lia).
    pose proof (Nat.div_mod_eq k (S (List.length pages))) as Hk.
    destruct (k mod S (List.length pages) <? List.length pages)%nat eqn:E.
    + apply Nat.ltb_lt in E.
      apply (Nat.mod_unique _ _ (k / S (List.length pages))); lia.
    + apply Nat.ltb_ge in E.
      apply (Nat.mod_unique _ _ (S (k / S (List.length pages)))); lia.
Qed.

(** One round against the transport by cursor. *)
Lemma page_round_served (owned contrib : list page) (k : nat) (t : totals)
      (reqs : list request) :
  addressable owned -> addressable contrib ->
  page_round (served owned contrib)
             (key (cursor_before owned (position owned k)))
             (key (cursor_before contrib (position contrib k))) (to_acc t, reqs) =
    (Return (if more_in owned contrib k
             then Some (key (cursor_before owned (position owned (S k))),
                        key (cursor_before contrib (position contrib (S k))))
             else None),
     (to_acc (fold_left add_repo (visited owned contrib k) t),
      reqs ++ [asked owned contrib k])).
Proof.
  intros Ho Hc. unfold page_round.
  unfold bind at 1. unfold lift at 1. rewrite repos_overview_key.
  unfold bind at 1. unfold send at 1, served. cbn [fst snd].
  rewrite (page_rank_cursor owned _ Ho (position_le owned k)).
  rewrite (page_rank_cursor contrib _ Hc (position_le contrib k)).
  unfold served_answer, not_none_or. cbn [is_none].
  unfold bind, lift, connection.
  cbn [py_get assoc String.eqb Ascii.eqb Bool.eqb rbind].
  rewrite !connection_nodes. cbn [py_iadd py_iter].
  rewrite <- map_app. unfold on_acc. cbn [fst snd].
  fold (visited owned contrib k).
  rewrite fold_page_encoded.
  unfold more_pages.
  rewrite !connection_has_next, !connection_cursor. cbn [truthy rbind].
  rewrite !position_S.
  rewrite <- (next_cursor_turn owned _ (position_le owned k)).
  rewrite <- (next_cursor_turn contrib _ (position_le contrib k)).
  unfold more_in, more_at, asked.
  destruct (S (position owned k) <? List.length owned)%nat; cbn [ret orb rbind].
  - reflexivity.
  - destruct (S (position contrib k) <? List.length contrib)%nat; reflexivity.
Qed.

(** The loop stops at the first round in which neither stream reports
    more pages. *)
Lemma loop_served (owned contrib : list page) (d : nat) :
  addressable owned -> addressable contrib ->
  forall (k : nat) (t : totals) (reqs : list request) (fuel : nat),
    (forall e, (e < d)%nat -> more_in owned contrib (k + e) = true) ->
    more_in owned contrib (k + d) = false ->
    (S d <= fuel)%nat ->
    get_stats_loop (served owned contrib) fuel
                   (key (cursor_before owned (position owned k)))
                   (key (cursor_before contrib (position contrib k)))
                   (to_acc t, reqs) =
      (Return tt,
       (to_acc (fold_left add_repo
                  (flat_map (visited owned contrib) (seq k (S d))) t),
        reqs ++ map (asked owned contrib) (seq k (S d)))).
Proof.
  intros Ho Hc.
  induction d as [|d IH]; intros k t reqs fuel Hm Hl Hfuel;
    (destruct fuel as [|fuel]; [lia|]); simpl get_stats_loop;
    rewrite (bind_step _ _ _ _ _ (page_round_served owned contrib k t reqs Ho Hc)).
  - rewrite Nat.add_0_r in Hl. rewrite Hl.
    cbn [seq flat_map map]. now rewrite app_nil_r.
  - replace (more_in owned contrib k) with true
      by (symmetry; rewrite <- (Nat.add_0_r k); apply Hm; lia).
    rewrite IH.
    + change (seq k (S (S d))) with (k :: seq (S k) (S d)).
      cbn [flat_map map]. rewrite fold_left_app, <- app_assoc. reflexivity.
    + intros e He. replace (S k + e)%nat with (k + S e)%nat by lia.
      apply Hm. lia.
    + replace (S k + d)%nat with (k + S d)%nat by lia. exact Hl.
    + lia.
Qed.

(** While the longer stream has a page left, the loop goes on. *)
Lemma more_in_before (owned contrib : list page) (e : nat) :
  (S e < rounds owned contrib)%nat -> more_in owned contrib e = true.
Proof.
  unfold rounds, more_in, more_at. intros He.
  destruct (Nat.le_ge_cases (List.length contrib) (List.length owned)).
  - rewrite (position_id owned e) by lia.
    replace (S e <? List.length owned)%nat with true; [reflexivity|].
    symmetry. apply Nat.ltb_lt. lia.
  - rewrite (position_id contrib e) by lia.
    replace (S e <? List.length contrib)%nat with true; [apply orb_true_r|].
    symmetry. apply Nat.ltb_lt. lia.
Qed.

Lemma more_at_last (pages : list page) (k : nat) :
  k = (List.length pages - 1)%nat -> more_at pages (position pages k) = false.
Proof.
  intros ->. rewrite position_id by lia. apply Nat.ltb_ge. lia.
Qed.

Lemma more_at_short (pages : list page) (i : nat) :
  (List.length pages <= 1)%nat -> more_at pages i = false.
Proof. intros H. apply Nat.ltb_ge. lia. Qed.

(** Both streams are past their last page together in the round before
    the ranks come round. *)
Lemma more_in_cycle (owned contrib : list page) :
  more_in owned contrib
          (S (List.length owned) * S (List.length contrib) - 1) = false.
Proof.
  unfold more_in, more_at. rewrite !position_mod.
  set (N := List.length owned). set (M := List.length contrib).
  assert (Ho : ((S N * S M - 1) mod S N = N)%nat).
  { symmetry. apply (Nat.mod_unique _ _ M); nia. }
  assert (Hc : ((S N * S M - 1) mod S M = M)%nat).
  { symmetry. apply (Nat.mod_unique _ _ N); nia. }
  rewrite Ho, Hc.
  replace (S N <? N)%nat with false by (symmetry; apply Nat.ltb_ge; lia).
  replace (S M <? M)%nat with false by (symmetry; apply Nat.ltb_ge; lia).
  reflexivity.
Qed.

(** The first round in which a test fails, when it fails in some. *)
Lemma first_false (f : nat -> bool) (n : nat) :
  f n = false ->
  exists d, (d <= n)%nat /\ f d = false /\ forall e, (e < d)%nat -> f e = true.
Proof.
  induction n as [n IH] using lt_wf_ind. intros Hn.
  destruct (forallb f (seq 0 n)) eqn:E.
  - exists n. split; [lia|]. split; [exact Hn|].
    intros e He. rewrite forallb_forall in E. apply E. apply in_seq. lia.
  - assert (Hex : exists m, (m < n)%nat /\ f m = false).
    { destruct (existsb (fun m => negb (f m)) (seq 0 n)) eqn:X.
      - apply existsb_exists in X as (m & Hm & Hf). apply in_seq in Hm.
        exists m. split; [lia|]. now apply negb_true_iff.
      - exfalso. assert (forallb f (seq 0 n) = true); [|congruence].
        apply forallb_forall. intros m Hm.
        destruct (f m) eqn:Fm; [reflexivity|].
        assert (existsb (fun m => negb (f m)) (seq 0 n) = true); [|congruence].
        apply existsb_exists. exists m. now rewrite Fm. }
    destruct Hex as (m & Hm & Hf).
    destruct (IH m Hm Hf) as (d & Hd & Hfd & Hall).
    exists d. split; [lia|]. auto.
Qed.

(** C5, as the code has it.  Against two streams of [N] and [M] pages
    served by cursor, each page but the last of a stream reporting
    [hasNextPage], the loop of [get_stats] always makes a first request
    and returns: after at least [max N M] requests and at most
    [(N + 1) * (M + 1)], each carrying the end cursors the answer before
    reported.  It makes exactly [max N M] requests (one when there is no
    page) when the streams are equally long or the shorter has at most one
    page.  Whatever the transport, the loop goes on after a round exactly
    when one of the two connections of the answer reports more pages. *)
Theorem pagination_rounds (owned contrib : list page) :
  addressable owned -> addressable contrib ->
  (exists r,
      (Nat.max 1 (Nat.max (List.length owned) (List.length contrib)) <= r
         <= S (List.length owned) * S (List.length contrib))%nat /\
      forall fuel, (r <= fuel)%nat ->
        exists a,
          get_stats_loop (served owned contrib) fuel JNull JNull (acc0, []) =
            (Return tt, (a, map (asked owned contrib) (seq 0 r)))) /\
  (List.length owned = List.length contrib \/
   (List.length owned <= 1)%nat \/ (List.length contrib <= 1)%nat ->
   forall fuel,
     (Nat.max 1 (Nat.max (List.length owned) (List.length contrib)) <= fuel)%nat ->
     exists (a : acc) (reqs : list request),
       get_stats_loop (served owned contrib) fuel JNull JNull (acc0, []) =
         (Return tt, (a, reqs)) /\
       List.length reqs =
         Nat.max 1 (Nat.max (List.length owned) (List.length contrib))) /\
  (forall transport next_owned next_contrib s s' next,
      page_round transport next_owned next_contrib s = (Return next, s') ->
      exists q raw owned_repos contrib_repos,
        repos_overview next_contrib next_owned = Ok q /\
        transport (List.length (snd s)) q = Ok raw /\
        connection (not_none_or (JDict []) raw) "repositories" = Ok owned_repos /\
        connection (not_none_or (JDict []) raw) "repositoriesContributedTo"
          = Ok contrib_repos /\
        (next <> None <-> reports_more owned_repos \/ reports_more contrib_repos)).
Proof.
  intros Ho Hc.
  assert (Hrun : forall d fuel,
             (forall e, (e < d)%nat -> more_in owned contrib e = true) ->
             more_in owned contrib d = false -> (S d <= fuel)%nat ->
             exists a,
               get_stats_loop (served owned contrib) fuel JNull JNull (acc0, []) =
                 (Return tt, (a, map (asked owned contrib) (seq 0 (S d))))).
  { intros d fuel Hm Hl Hf.
    pose proof (loop_served owned contrib d Ho Hc 0 totals0 [] fuel Hm Hl Hf) as H.
    eexists. exact H. }
  split; [|split].
  - destruct (first_false (more_in owned contrib) _ (more_in_cycle owned contrib))
      as (d & Hd & Hl & Hm).
    exists (S d). split.
    + split; [|lia].
      destruct (Nat.le_gt_cases (rounds owned contrib) (S d)) as [H|H];
        [unfold rounds in H; lia|].
      rewrite (more_in_before owned contrib d H) in Hl. discriminate.
    + intros fuel Hf. now apply Hrun.
  - intros Hs fuel Hf.
    set (R := Nat.max 1 (Nat.max (List.length owned) (List.length contrib))) in *.
    destruct (Hrun (R - 1)%nat fuel) as (a & Ha).
    + intros e He. apply more_in_before. unfold rounds. lia.
    + unfold more_in.
      destruct Hs as [Hs|[Hs|Hs]].
      * rewrite (more_at_last owned), (more_at_last contrib) by lia. reflexivity.
      * rewrite (more_at_short owned), (more_at_last contrib) by lia. reflexivity.
      * rewrite (more_at_last owned), (more_at_short contrib) by lia. reflexivity.
    + lia.
    + exists a, (map (asked owned contrib) (seq 0 (S (R - 1)))).
      split; [exact Ha|]. rewrite length_map, length_seq. lia.
  - intros. eapply page_round_goes_on; eauto.
Qed.

(** C1.  When a name occurs in the owned and in the contributed-to
    stream, the loop ends in the aggregate of the first occurrences: the
    name is once in the repository set, and of the nodes of that name only
    the first one fetched is among the nodes whose stars, forks and
    language sizes are added. *)
Theorem dedup_first_occurrence_wins
  (owned contrib : list page) (fuel : nat) (n : option string) :
  In n (map nameWithOwner (stream_nodes owned)) ->
  In n (map nameWithOwner (stream_nodes contrib)) ->
  (Nat.max (List.length owned) (List.length contrib) <= fuel)%nat ->
  exists (reqs : list request) (r : repo),
    get_stats_loop (double owned contrib) fuel JNull JNull (acc0, []) =
      (Return tt, (to_acc (aggregate (fetched owned contrib)), reqs)) /\
    count_occ name_dec (t_repos (aggregate (fetched owned contrib))) n = 1%nat /\
    find (has_name n) (fetched owned contrib) = Some r /\
    filter (has_name n) (first_occurrences (fetched owned contrib)) = [r].
Proof.
  intros Ho _ Hf.
  apply in_map_iff in Ho as (r0 & Hn & Hr0).
  apply (stream_nodes_fetched_owned owned contrib) in Hr0.
  pose proof (fetched_rounds _ _ _ Hr0) as H1.
  destruct (loop_double_all owned contrib fuel H1 Hf) as (reqs & Hrun & _).
  destruct (find_has_name n (fetched owned contrib)) as (r & Hfind).
  { apply in_map_iff. eauto. }
  exists reqs, r. split; [exact Hrun|].
  pose proof (filter_first_occurrences n (fetched owned contrib)) as Hfil.
  rewrite Hfind in Hfil. repeat split; auto.
  unfold aggregate. cbn [t_repos]. now rewrite count_occ_names, Hfil.
Qed.

(** C10.  Nodes without [nameWithOwner] share the key [None]: the fold
    counts the first of them, with its stars, forks and language sizes,
    and skips the others, so the key is at most once in the set. *)
Theorem unnamed_counted_once (rs : list repo) :
  fold_page (map encode_repo rs) acc0 = (Return tt, to_acc (aggregate rs)) /\
  filter (has_name None) (first_occurrences rs) =
    match find (has_name None) rs with Some r => [r] | None => [] end /\
  (count_occ name_dec (t_repos (aggregate rs)) None <= 1)%nat /\
  (In None (map nameWithOwner rs) ->
   count_occ name_dec (t_repos (aggregate rs)) None = 1%nat /\
   In JNull (acc_repos (to_acc (aggregate rs)))).
Proof.
  pose proof (filter_first_occurrences None rs) as Hfil.
  assert (Hc : count_occ name_dec (t_repos (aggregate rs)) None =
               List.length (filter (has_name None) (first_occurrences rs))).
  { unfold aggregate. cbn [t_repos]. apply count_occ_names. }
  repeat split.
  - change acc0 with (to_acc totals0).
    now rewrite fold_page_encoded, fold_add_repo_aggregate.
  - exact Hfil.
  - rewrite Hc, Hfil. destruct (find (has_name None) rs); simpl; lia.
  - destruct (find_has_name None rs H) as (r & Hr).
    rewrite Hc, Hfil, Hr. reflexivity.
  - assert (Hin : (count_occ name_dec (t_repos (aggregate rs)) None > 0)%nat).
    { destruct (find_has_name None rs H) as (r & Hr).
      rewrite Hc, Hfil, Hr. simpl. lia. }
    apply count_occ_In in Hin. cbn [to_acc acc_repos].
    change JNull with (key None). now apply in_map.
Qed.

End ModelFacts.

(* ================================================================== *)
(** * The derivation and the proportional view *)
(* ================================================================== *)

Module ViewFacts.
Import Py Queries Stats PyFacts.
Import Notions.

(** ** The order of floats *)

Lemma ltb_rank (x y : float) :
  float_ltb x y = true <->
  is_number x /\ is_number y /\ lex_lt (rank x) (rank y).
Proof.
  unfold float_ltb, SFltb, SFcompare, is_number, lex_lt.
  destruct x as [[]|[]| |[] mx ex], y as [[]|[]| |[] my ey];
    cbn [rank fst snd];
    try (split; [discriminate | intros (H1 & H2 & H3); try congruence; lia]);
    try (split; [intros _; repeat split; try discriminate; lia | reflexivity]);
    change (Pos.compare_cont Eq mx my) with (Pos.compare mx my);
    destruct (Z.compare_spec ex ey), (Pos.compare_spec mx my); cbn [CompOpp];
    try (split; [discriminate | intros (H1 & H2 & H3); lia]);
    (split; [intros _; repeat split; try discriminate; lia | reflexivity]).
Qed.

Lemma eqb_rank (x y : float) :
  float_eqb x y = true -> is_number x /\ is_number y /\ rank x = rank y.
Proof.
  unfold float_eqb, SFeqb, SFcompare, is_number.
  destruct x as [[]|[]| |[] mx ex], y as [[]|[]| |[] my ey];
    cbn [rank]; try discriminate;
    try (intros _; repeat split; discriminate);
    change (Pos.compare_cont Eq mx my) with (Pos.compare mx my);
    destruct (Z.compare_spec ex ey), (Pos.compare_spec mx my); cbn [CompOpp];
    try discriminate;
    (intros _; repeat split; try discriminate; congruence).
Qed.

Lemma ltb_asym (x y : float) : float_ltb x y = true -> float_ltb y x = false.
Proof.
  intros H. apply ltb_rank in H as (_ & _ & H).
  destruct (float_ltb y x) eqn:E; [|reflexivity].
  apply ltb_rank in E as (_ & _ & E). unfold lex_lt in *. lia.
Qed.

Lemma ltb_negtrans (x y z : float) :
  is_number y ->
  float_ltb x y = false -> float_ltb y z = false -> float_ltb x z = false.
Proof.
  intros Hy Hxy Hyz. destruct (float_ltb x z) eqn:E; [|reflexivity].
  apply ltb_rank in E as (Hx & Hz & E).
  assert (Nxy : ~ lex_lt (rank x) (rank y)).
  { intros H. assert (float_ltb x y = true) by (apply ltb_rank; auto). congruence. }
  assert (Nyz : ~ lex_lt (rank y) (rank z)).
  { intros H. assert (float_ltb y z = true) by (apply ltb_rank; auto). congruence. }
  unfold lex_lt in *. lia.
Qed.

(** ** The arithmetic gives numbers *)

Lemma iter_pos_keeps {A : Type} (P : A -> Prop) (f : A -> A) :
  (forall x, P x -> P (f x)) ->
  forall (p : positive) (x : A), P x -> P (iter_pos f p x).
Proof.
  intros Hf. induction p as [p IH|p IH|]; intros x Hx; cbn [iter_pos]; auto.
Qed.

Lemma shr_1_nonneg (mrs : shr_record) : 0 <= shr_m mrs -> 0 <= shr_m (shr_1 mrs).
Proof.
  destruct mrs as [m r s]. cbn [shr_m].
  destruct m as [|[p|p|]|[p|p|]]; cbn; lia.
Qed.

Lemma shr_fexp_nonneg (m e : Z) (l : location) :
  0 <= m -> 0 <= shr_m (fst (shr_fexp prec emax m e l)).
Proof.
  intros Hm. unfold shr_fexp, shr.
  assert (H0 : 0 <= shr_m (shr_record_of_loc m l))
    by (destruct l as [|[]]; exact Hm).
  destruct (fexp prec emax (Zdigits2 m + e) - e) as [|p|p]; cbn [fst]; auto.
  now apply (iter_pos_keeps (fun mrs => 0 <= shr_m mrs) shr_1 shr_1_nonneg).
Qed.

Lemma round_nearest_even_nonneg (m : Z) (l : location) :
  0 <= m -> 0 <= round_nearest_even m l.
Proof.
  intros Hm. unfold round_nearest_even.
  destruct l as [|[]]; try destruct (Z.even m); lia.
Qed.

(** Rounding a mantissa that is not negative never gives a NaN. *)
Lemma binary_round_aux_number (s : bool) (m e : Z) (l : location) :
  0 <= m -> is_number (binary_round_aux prec emax s m e l).
Proof.
  intros Hm. unfold binary_round_aux.
  pose proof (shr_fexp_nonneg m e l Hm) as H1.
  destruct (shr_fexp prec emax m e l) as [mrs' e']. cbn [fst] in H1.
  pose proof (shr_fexp_nonneg _ e' loc_Exact
                (round_nearest_even_nonneg _ (loc_of_shr_record mrs') H1)) as H2.
  destruct (shr_fexp prec emax
              (round_nearest_even (shr_m mrs') (loc_of_shr_record mrs')) e'
              loc_Exact) as [mrs'' e''].
  cbn [fst] in H2. unfold is_number.
  destruct (shr_m mrs'') as [|p|p]; [discriminate| |lia].
  destruct (e'' <=? emax - prec); discriminate.
Qed.

Lemma SFdiv_number (x n : Z) :
  n <> 0 -> is_number (SFdiv prec emax (magnitude x) (magnitude n)).
Proof.
  intros Hn.
  assert (Hfin : forall sx mx sy my,
             is_number (SFdiv prec emax (S754_finite sx mx 0) (S754_finite sy my 0))).
  { intros sx mx sy my. cbn [SFdiv]. unfold SFdiv_core_binary.
    set (m' := match (0 - 0 - _) with Z0 => Zpos mx | Zpos _ => _ | Zneg _ => 0 end).
    assert (Hm' : 0 <= m').
    { subst m'. destruct (0 - 0 - _); try lia. apply Z.shiftl_nonneg. lia. }
    pose proof (Z_div_mod m' (Zpos my) ltac:(lia)) as Hd.
    destruct (Z.div_eucl m' (Zpos my)) as [q r].
    apply binary_round_aux_number. nia. }
  destruct x as [|px|px], n as [|pn|pn]; try lia; cbn [magnitude];
    try apply Hfin; cbn; unfold is_number; discriminate.
Qed.

(** A quotient is a number, and is finite. *)
Lemma py_truediv_number (a : json) (n : Z) (q : float) :
  py_truediv a n = Ok q -> is_number q /\ forall s, q <> S754_infinity s.
Proof.
  unfold py_truediv. destruct (as_int a) as [x|]; [|discriminate].
  destruct (n =? 0) eqn:En; [discriminate|]. apply Z.eqb_neq in En.
  pose proof (SFdiv_number x n En) as Hq.
  destruct (SFdiv prec emax (magnitude x) (magnitude n)) as [s|s| |s m e];
    try discriminate; intros [= <-]; (split; [exact Hq | discriminate]).
Qed.

Lemma float_mul_number (q : float) :
  is_number q -> (forall s, q <> S754_infinity s) ->
  is_number (float_mul float100 q).
Proof.
  intros Hq Hi. unfold float_mul.
  change float100 with (S754_finite false 7036874417766400 (-46)).
  destruct q as [s|s| |s m e]; cbn [SFmul].
  - unfold is_number. discriminate.
  - exfalso. now apply (Hi s).
  - contradiction.
  - apply binary_round_aux_number. lia.
Qed.

(** ** The sort *)

Lemma insert_desc_perm (x : json * float) (l : list (json * float)) :
  Permutation (insert_desc x l) (x :: l).
Proof.
  induction l as [|y l IH]; simpl; [reflexivity|].
  destruct (float_ltb (snd x) (snd y)); [|reflexivity].
  rewrite IH. apply perm_swap.
Qed.

Lemma sorted_desc_perm (l : list (json * float)) : Permutation (sorted_desc l) l.
Proof.
  induction l as [|x l IH]; simpl; [reflexivity|].
  rewrite insert_desc_perm. now constructor.
Qed.

Lemma insert_desc_sorted (x : json * float) (l : list (json * float)) :
  numbers l ->
  StronglySorted desc l -> StronglySorted desc (insert_desc x l).
Proof.
  induction l as [|y l IH]; simpl; intros Hn Hs.
  - repeat constructor.
  - inversion Hs as [|? ? Hl Hy]; subst.
    inversion Hn as [|? ? Hny Hnl]; subst.
    destruct (float_ltb (snd x) (snd y)) eqn:E.
    + constructor; [auto|].
      rewrite (Forall_forall (desc y)). intros z Hz.
      apply (Permutation_in _ (insert_desc_perm x l)) in Hz.
      destruct Hz as [<-|Hz].
      * now apply ltb_asym.
      * rewrite Forall_forall in Hy. auto.
    + constructor; [exact Hs|].
      constructor; [exact E|].
      rewrite Forall_forall in *. intros z Hz.
      unfold desc in *. eapply ltb_negtrans; [exact Hny | exact E | auto].
Qed.

Lemma sorted_desc_numbers (l : list (json * float)) :
  numbers l -> numbers (sorted_desc l).
Proof.
  unfold numbers. rewrite !Forall_forall. intros H it Hit.
  apply H. eapply Permutation_in; [apply sorted_desc_perm | exact Hit].
Qed.

Lemma sorted_desc_sorted (l : list (json * float)) :
  numbers l -> StronglySorted desc (sorted_desc l).
Proof.
  induction l as [|x l IH]; simpl; intros Hn; [constructor|].
  inversion Hn; subst.
  apply insert_desc_sorted; [now apply sorted_desc_numbers | auto].
Qed.

Lemma insert_desc_stable (p : float) (x : json * float) (l : list (json * float)) :
  filter (valued p) (insert_desc x l) = filter (valued p) (x :: l).
Proof.
  induction l as [|y l IH]; [reflexivity|].
  cbn [insert_desc]. destruct (float_ltb (snd x) (snd y)) eqn:E; [|reflexivity].
  apply ltb_rank in E as (_ & _ & E).
  cbn [filter] in *. rewrite IH.
  destruct (valued p x) eqn:Ex; [|reflexivity].
  destruct (valued p y) eqn:Ey; [|reflexivity].
  unfold valued in *.
  apply eqb_rank in Ex as (_ & _ & Ex). apply eqb_rank in Ey as (_ & _ & Ey).
  exfalso. rewrite Ex, Ey in E. unfold lex_lt in E. lia.
Qed.

(** The sort keeps items of equal value in the order they had. *)
Lemma sorted_desc_stable (p : float) (l : list (json * float)) :
  filter (valued p) (sorted_desc l) = filter (valued p) l.
Proof.
  induction l as [|x l IH]; [reflexivity|].
  cbn [sorted_desc]. rewrite insert_desc_stable. cbn [filter]. now rewrite IH.
Qed.

End ViewFacts.

(* ================================================================== *)
(** * The memoised accessors *)
(* ================================================================== *)

Module StatsFacts.
Import Py Queries Stats PyFacts ViewFacts.
Import Notions.

Section Accessors.

Variable transport : nat -> request -> result json.
Variable all_contribs : json -> result request.
Variable fuel : nat.

Abbreviation get_stats := (Stats.get_stats transport fuel).
Abbreviation computes f v a := (Stats.computes transport fuel f v a).

Lemma get_stats_store (w : world) :
  exists r a reqs,
    get_stats w = (r, {| self := store a (self w); sent := reqs |}).
Proof.
  unfold Stats.get_stats.
  destruct ((get_stats_loop transport fuel JNull JNull;;; on_acc derive)
              (acc0, sent w)) as [r [a reqs]].
  now exists r, a, reqs.
Qed.

Lemma get_stats_computed (w : world) : computed (self (snd (get_stats w))).
Proof.
  destruct (get_stats_store w) as (r & a & reqs & ->). simpl.
  unfold computed, store; simpl. eauto 10.
Qed.

Lemma get_stats_keeps_total (w : world) :
  _total_contributions (self (snd (get_stats w))) = _total_contributions (self w).
Proof. destruct (get_stats_store w) as (r & a & reqs & ->). reflexivity. Qed.

Ltac memo field :=
  split;
  [ intros w v H; unfold stargazers, forks, languages, repos, languages_proportional,
      bind, get, ret; rewrite ?H; cbn; rewrite ?H; reflexivity
  | intros w H; unfold stargazers, forks, languages, repos, languages_proportional,
      bind, get, ret; rewrite H;
    destruct (get_stats w) as [[[]|e|] w']; cbn [fst snd];
    try reflexivity;
    destruct (field (self w')) eqn:E'; cbn; rewrite ?E'; reflexivity ].

Lemma stargazers_memo :
  cached _stargazers (fun v => v) (stargazers transport fuel) /\
  computes _stargazers (fun v => v) (stargazers transport fuel).
Proof. memo _stargazers. Qed.

Lemma forks_memo :
  cached _forks (fun v => v) (forks transport fuel) /\
  computes _forks (fun v => v) (forks transport fuel).
Proof. memo _forks. Qed.

Lemma languages_memo :
  cached _languages (fun v => v) (languages transport fuel) /\
  computes _languages (fun v => v) (languages transport fuel).
Proof. memo _languages. Qed.

Lemma repos_memo :
  cached _repos (fun v => v) (repos transport fuel) /\
  computes _repos (fun v => v) (repos transport fuel).
Proof. memo _repos. Qed.

Lemma languages_proportional_memo :
  cached _languages (fun d => sorted_desc (props d))
         (languages_proportional transport fuel) /\
  computes _languages (fun d => sorted_desc (props d))
           (languages_proportional transport fuel).
Proof. memo _languages. Qed.

(** [total_contributions] leaves the attributes of the repository fold
    alone. *)
Lemma set_total_keeps : forall n, preserves fold_state (set_total_contributions n).
Proof. intros n s o s' [= _ <-]. reflexivity. Qed.

Lemma send_w_keeps : forall q, preserves fold_state (send_w transport q).
Proof. intros q s o s' [= _ <-]. reflexivity. Qed.

Lemma the_total_keeps : preserves fold_state the_total.
Proof.
  unfold the_total. apply preserves_bind; [apply preserves_get|intros w].
  destruct (_total_contributions (self w));
    [apply preserves_ret | apply preserves_lift].
Qed.

Lemma add_year_keeps (year : json) : preserves fold_state (add_year year).
Proof.
  unfold add_year.
  apply preserves_bind; [apply the_total_keeps|intros cur].
  apply preserves_bind; [apply preserves_lift|intros cal].
  apply preserves_bind; [apply preserves_lift|intros tc].
  apply preserves_bind; [apply preserves_lift|intros n].
  apply set_total_keeps.
Qed.

Lemma total_contributions_keeps :
  preserves fold_state (total_contributions transport all_contribs).
Proof.
  unfold total_contributions.
  apply preserves_bind; [apply preserves_get|intros w].
  destruct (_total_contributions (self w)); [apply preserves_ret|].
  repeat first
    [ apply the_total_keeps
    | apply set_total_keeps
    | apply send_w_keeps
    | apply preserves_lift
    | apply preserves_for_each; intros; apply add_year_keeps
    | apply preserves_bind; [|intros ?] ].
Qed.

(** What [languages_proportional] returns is the sorted view of the
    attribute. *)
Lemma languages_proportional_view (w w' : world) (view : list (json * float)) :
  languages_proportional transport fuel w = (Return view, w') ->
  exists d, _languages (self w') = Some d /\ view = sorted_desc (props d).
Proof.
  destruct languages_proportional_memo as [Hc Hn].
  destruct (_languages (self w)) as [d|] eqn:E.
  - rewrite (Hc w d E). intros [= <- <-]. eauto.
  - rewrite (Hn w E).
    destruct (fst (get_stats w)); try discriminate.
    destruct (_languages (self (snd (get_stats w)))) as [d|] eqn:E';
      try discriminate.
    intros [= <- <-]. eauto.
Qed.

End Accessors.

(** C7.  Each of the five accessors of the repository fold answers from
    its attribute when it is set, leaving the world as it was, and
    otherwise runs [get_stats] once and answers from the attribute as
    [get_stats] left it; [get_stats] sets the four attributes together, so
    one call serves all five accessors.  [total_contributions] does not
    touch the four attributes, and [get_stats] does not touch
    [_total_contributions]. *)
Theorem accessors_share_one_computation
  (transport : nat -> request -> result json)
  (all_contribs : json -> result request) (fuel : nat) :
  (cached _stargazers (fun v => v) (stargazers transport fuel) /\
   computes transport fuel _stargazers (fun v => v) (stargazers transport fuel)) /\
  (cached _forks (fun v => v) (forks transport fuel) /\
   computes transport fuel _forks (fun v => v) (forks transport fuel)) /\
  (cached _languages (fun v => v) (languages transport fuel) /\
   computes transport fuel _languages (fun v => v) (languages transport fuel)) /\
  (cached _languages (fun d => sorted_desc (props d))
          (languages_proportional transport fuel) /\
   computes transport fuel _languages (fun d => sorted_desc (props d))
            (languages_proportional transport fuel)) /\
  (cached _repos (fun v => v) (repos transport fuel) /\
   computes transport fuel _repos (fun v => v) (repos transport fuel)) /\
  (forall w, computed (self (snd (get_stats transport fuel w)))) /\
  (forall w, _total_contributions (self (snd (get_stats transport fuel w)))
             = _total_contributions (self w)) /\
  (forall w o w', total_contributions transport all_contribs w = (o, w') ->
                  fold_state w' = fold_state w).
Proof.
  repeat apply conj.
  - apply stargazers_memo.
  - apply stargazers_memo.
  - apply forks_memo.
  - apply forks_memo.
  - apply languages_memo.
  - apply languages_memo.
  - apply languages_proportional_memo.
  - apply languages_proportional_memo.
  - apply repos_memo.
  - apply repos_memo.
  - apply get_stats_computed.
  - apply get_stats_keeps_total.
  - intros w o w' H. eapply total_contributions_keeps; eauto.
Qed.

(** ** The derivation *)

(** On an empty map the derivation returns and leaves the map empty. *)
Lemma derive_empty (a : acc) :
  acc_languages a = [] -> derive a = (Return tt, a).
Proof.
  intros H. unfold derive, bind, gets, lift. rewrite H. cbn.
  rewrite <- H. now destruct a.
Qed.

(** When the assignments return, every entry holds the percentage of its
    size. *)
Lemma set_props_derived (T : Z) (d : dict) :
  forall d', set_props T d = (Return tt, d') -> Forall2 (derived T) d d'.
Proof.
  induction d as [|[k v] d IH]; intros d' H; cbn [set_props] in H.
  - injection H as <-. constructor.
  - destruct (py_truediv (size v) T) as [q|e] eqn:Eq; [|discriminate].
    destruct (set_props T d) as [r d0] eqn:Ed.
    injection H as -> <-. constructor; [|now apply IH].
    unfold derived. cbn [fst snd size prop]. eauto.
Qed.

Lemma derived_numbers (T : Z) (d d' : dict) :
  Forall2 (derived T) d d' -> numbers (props d').
Proof.
  induction 1 as [|kv kv' d d' (_ & _ & q & Hq & Hp) _ IH]; [constructor|].
  constructor; [|exact IH]. cbn [snd fst]. rewrite Hp.
  apply py_truediv_number in Hq as [Hn Hi]. now apply float_mul_number.
Qed.

(** The derivation works on the language map alone. *)
Lemma derive_languages (a : acc) :
  derive a =
    (fst (derive (set_languages acc0 (acc_languages a))),
     set_languages a
       (acc_languages (snd (derive (set_languages acc0 (acc_languages a)))))).
Proof.
  unfold derive, bind, gets, lift. cbn [acc_languages set_languages].
  destruct (py_sum (map (fun kv => size (snd kv)) (acc_languages a))) as [T|e].
  - destruct (set_props T (acc_languages a)) as [r d]. reflexivity.
  - cbn [fst snd acc_languages set_languages]. now destruct a.
Qed.

Lemma derive_Return (a a' : acc) :
  derive a = (Return tt, a') ->
  exists T,
    py_sum (sizes (acc_languages a)) = Ok T /\
    Forall2 (derived T) (acc_languages a) (acc_languages a').
Proof.
  unfold derive, bind, gets, lift. fold (sizes (acc_languages a)).
  destruct (py_sum (sizes (acc_languages a))) as [T|e]; [|discriminate].
  destruct (set_props T (acc_languages a)) as [r d] eqn:Ed.
  intros [= -> <-]. exists T. split; [reflexivity|].
  cbn [acc_languages set_languages]. now apply set_props_derived.
Qed.

(** A run of [get_stats] that returns is the loop, then the
    derivation, then the assignment of the four attributes. *)
Lemma get_stats_Return (transport : nat -> request -> result json) (fuel : nat)
      (w w' : world) :
  get_stats transport fuel w = (Return tt, w') ->
  exists a a',
    get_stats_loop transport fuel JNull JNull (acc0, sent w) =
      (Return tt, (a, sent w')) /\
    derive a = (Return tt, a') /\
    self w' = store a' (self w).
Proof.
  unfold get_stats, bind, on_acc.
  destruct (get_stats_loop transport fuel JNull JNull (acc0, sent w))
    as [[[]|e|] [a reqs]]; cbn [fst snd].
  - destruct (derive a) as [r a'] eqn:Ed. intros [= -> <-].
    exists a, a'. auto.
  - discriminate.
  - discriminate.
Qed.

End StatsFacts.

(* ================================================================== *)
(** * Runs on concrete data *)
(* ================================================================== *)

Module Runs.
Import Py Queries Stats Model Data PyFacts FoldFacts ModelFacts ViewFacts StatsFacts.
Import Notions.

Example scenario_six_repos :
  exists a reqs,
    get_stats_loop (double [owned1; owned2] [contrib1]) 2 JNull JNull (acc0, [])
      = (Return tt, (a, reqs)) /\
    List.length (acc_repos a) = 6%nat /\
    acc_stargazers a = 19 /\ acc_forks a = 12 /\
    reqs = [ReposOverview None None; ReposOverview (Some "o1") (Some "c1")].
Proof. eexists; eexists; split; [vm_compute; reflexivity|]. repeat split. Qed.

(** C5 on two pages of owned and one page of contributed-to
    repositories: two rounds. *)
Lemma pagination_rounds_witness :
  addressable [owned1; owned2] /\ addressable [contrib1] /\
  exists (a : acc) (reqs : list request),
    get_stats_loop (served [owned1; owned2] [contrib1]) 5 JNull JNull (acc0, []) =
      (Return tt, (a, reqs)) /\
    List.length reqs = 2%nat.
Proof.
  assert (Ho : addressable [owned1; owned2]).
  { split; [|cbn; intuition discriminate].
    repeat constructor; cbn; intuition discriminate. }
  assert (Hc : addressable [contrib1]).
  { split; [|cbn; intuition discriminate].
    repeat constructor; cbn; intuition discriminate. }
  split; [exact Ho|]. split; [exact Hc|].
  apply (proj1 (proj2 (pagination_rounds [owned1; owned2] [contrib1] Ho Hc)));
    cbn; lia.
Defined.

(** C5, as the claim states it, fails.  Without any page the loop makes
    one request, not none.  With four and two pages it makes five: the
    contributed-to stream, asked with the null cursor that its answer
    past the last page reported, serves its first page again in round 4
    and reports more pages. *)
Lemma pagination_rounds_exceed_max :
  (exists a,
      get_stats_loop (served [] []) 9 JNull JNull (acc0, []) =
        (Return tt, (a, [ReposOverview None None]))) /\
  1%nat <> Nat.max (@List.length page []) (@List.length page []) /\
  addressable four_pages /\ addressable two_pages /\
  (exists a,
      get_stats_loop (served four_pages two_pages) 9 JNull JNull (acc0, []) =
        (Return tt,
         (a, [ReposOverview None None;
              ReposOverview (Some "o1") (Some "c1");
              ReposOverview (Some "o2") (Some "c2");
              ReposOverview (Some "o3") None;
              ReposOverview (Some "o4") (Some "c1")]))) /\
  5%nat <> Nat.max (List.length four_pages) (List.length two_pages).
Proof.
  split; [eexists; vm_compute; reflexivity|].
  split; [cbn; lia|].
  split; [split; [repeat constructor; cbn; intuition discriminate
                 | cbn; intuition discriminate]|].
  split; [split; [repeat constructor; cbn; intuition discriminate
                 | cbn; intuition discriminate]|].
  split; [eexists; vm_compute; reflexivity|].
  cbn; lia.
Qed.

(** C1 on the same streams, for the name ["b/5"] that is in both. *)
Lemma dedup_first_occurrence_wins_witness :
  In (Some "b/5") (map nameWithOwner (stream_nodes [owned1; owned2])) /\
  In (Some "b/5") (map nameWithOwner (stream_nodes [contrib1])) /\
  exists (reqs : list request) (r : repo),
    get_stats_loop (double [owned1; owned2] [contrib1]) 2 JNull JNull (acc0, []) =
      (Return tt, (to_acc (aggregate (fetched [owned1; owned2] [contrib1])), reqs)) /\
    count_occ name_dec (t_repos (aggregate (fetched [owned1; owned2] [contrib1])))
              (Some "b/5") = 1%nat /\
    find (has_name (Some "b/5")) (fetched [owned1; owned2] [contrib1]) = Some r /\
    filter (has_name (Some "b/5"))
           (first_occurrences (fetched [owned1; owned2] [contrib1])) = [r].
Proof.
  assert (Ho : In (Some "b/5") (map nameWithOwner (stream_nodes [owned1; owned2])))
    by (simpl; auto 10).
  assert (Hc : In (Some "b/5") (map nameWithOwner (stream_nodes [contrib1])))
    by (simpl; auto 10).
  split; [exact Ho|]. split; [exact Hc|].
  apply (dedup_first_occurrence_wins [owned1; owned2] [contrib1] 2 (Some "b/5") Ho Hc).
  simpl; lia.
Defined.

(** C9 on a page with a duplicate, a null entry and a node without
    name. *)
Lemma fold_page_idempotent_witness :
  fold_page page1 acc0 = (Return tt, after_page1) /\
  fold_page page1 after_page1 = (Return tt, after_page1).
Proof.
  split; [vm_compute; reflexivity|].
  apply (fold_page_idempotent page1 acc0 after_page1). vm_compute; reflexivity.
Defined.

(** ** The proportional view *)

(** C8.  On an object whose languages are not computed,
    [languages_proportional] runs the loop and the derivation, and what it
    returns is the derived language to percentage mapping, each
    percentage being that of the size the loop accumulated, sorted by
    percentage in descending order, languages of equal percentage staying
    in insertion order; on an object whose languages are computed it
    returns the percentages the attribute holds, sorted in the same way.
    When the loop accumulated the sizes Go 300, Rust 100, Other 0 it
    returns Go 75.0, Rust 25.0, Other 0.0 in that order, as it does
    against a stream of three repositories of these sizes. *)
Theorem proportional_view_sorted_stable :
  (forall (transport : nat -> request -> result json) (fuel : nat)
          (w w' : world) (view : list (json * float)),
      _languages (self w) = None ->
      languages_proportional transport fuel w = (Return view, w') ->
      exists a T d,
        get_stats_loop transport fuel JNull JNull (acc0, sent w) =
          (Return tt, (a, sent w')) /\
        py_sum (sizes (acc_languages a)) = Ok T /\
        Forall2 (derived T) (acc_languages a) d /\
        _languages (self w') = Some d /\
        Permutation view (props d) /\
        StronglySorted desc view /\
        (forall p, filter (valued p) view = filter (valued p) (props d))) /\
  (forall (transport : nat -> request -> result json) (fuel : nat)
          (w : world) (d : dict),
      _languages (self w) = Some d ->
      numbers (props d) ->
      exists view,
        languages_proportional transport fuel w = (Return view, w) /\
        Permutation view (props d) /\
        StronglySorted desc view /\
        (forall p, filter (valued p) view = filter (valued p) (props d))) /\
  (forall (transport : nat -> request -> result json) (fuel : nat)
          (w : world) (a : acc) (reqs : list request),
      _languages (self w) = None ->
      get_stats_loop transport fuel JNull JNull (acc0, sent w) =
        (Return tt, (a, reqs)) ->
      acc_languages a = go_rust_other ->
      fst (languages_proportional transport fuel w) =
        Return [(JStr "Go", number 75); (JStr "Rust", number 25);
                (JStr "Other", number 0)]) /\
  (exists a reqs,
      get_stats_loop (served [owned1] []) 1 JNull JNull (acc0, sent world0) =
        (Return tt, (a, reqs)) /\
      acc_languages a = go_rust_other) /\
  fst (languages_proportional (served [owned1] []) 1 world0) =
    Return [(JStr "Go", number 75); (JStr "Rust", number 25);
            (JStr "Other", number 0)].
Proof.
  split; [|split; [|split; [|split]]].
  - intros transport fuel w w' view Hnone H.
    destruct (languages_proportional_memo transport fuel) as [_ Hn].
    rewrite (Hn w Hnone) in H.
    destruct (get_stats transport fuel w) as [r w1] eqn:Eg. cbn [fst snd] in H.
    destruct r as [[]|e|]; try discriminate.
    destruct (_languages (self w1)) as [d|] eqn:Ed; try discriminate.
    injection H as <- <-.
    apply get_stats_Return in Eg as (a & a' & Hloop & Hder & Hself).
    apply derive_Return in Hder as (T & HT & Hd).
    rewrite Hself in Ed. cbn [store _languages] in Ed. injection Ed as <-.
    exists a, T, (acc_languages a').
    split; [exact Hloop|]. split; [exact HT|]. split; [exact Hd|].
    split; [rewrite Hself; reflexivity|].
    split; [apply sorted_desc_perm|].
    split; [apply sorted_desc_sorted; eapply derived_numbers; eauto|].
    intros p. apply sorted_desc_stable.
  - intros transport fuel w d Hd Hnum.
    destruct (languages_proportional_memo transport fuel) as [Hc _].
    exists (sorted_desc (props d)). split; [exact (Hc w d Hd)|].
    split; [apply sorted_desc_perm|].
    split; [now apply sorted_desc_sorted|].
    intros p. apply sorted_desc_stable.
  - intros transport fuel w a reqs Hnone Hloop Ha.
    destruct (languages_proportional_memo transport fuel) as [_ Hn].
    rewrite (Hn w Hnone). cbn [fst snd].
    unfold get_stats, bind, on_acc. rewrite Hloop. cbn [fst snd].
    rewrite (derive_languages a), Ha.
    vm_compute. reflexivity.
  - eexists; eexists. split; vm_compute; reflexivity.
  - vm_compute. reflexivity.
Qed.

(** Languages of equal percentage stay in insertion order. *)
Example ties_keep_insertion_order :
  sorted_desc (props [entry "A" 1 (Some (number 10)); entry "B" 4 (Some (number 40));
                      entry "C" 1 (Some (number 10)); entry "D" 4 (Some (number 40))]) =
    [(JStr "B", number 40); (JStr "D", number 40);
     (JStr "A", number 10); (JStr "C", number 10)].
Proof. vm_compute. reflexivity. Qed.

(** Percentages are floats: two sizes that differ can have the same
    percentage, and the languages then stay in insertion order. *)
Example rounded_percentages_tie :
  exists a,
    derive (set_languages acc0 close_sizes) = (Return tt, a) /\
    sorted_desc (props (acc_languages a)) =
      [(JStr "A", percent (2 ^ 53) (2 ^ 54 + 1));
       (JStr "B", percent (2 ^ 53) (2 ^ 54 + 1))].
Proof. eexists. split; vm_compute; reflexivity. Qed.

(** ** A total of zero *)

(** C2, on the code: a language map that is not empty and whose sizes
    add up to zero makes the derivation raise [ZeroDivisionError], here
    from the state itself and from a run of [get_stats] on one repository
    whose only language has size 0. *)
Theorem derive_divides_by_zero :
  derive (set_languages acc0 [entry "Go" 0 None]) =
    (Raise ZeroDivisionError, set_languages acc0 [entry "Go" 0 None]) /\
  fst (get_stats (double [zero_page] []) 1 world0) = Raise ZeroDivisionError.
Proof. split; vm_compute; reflexivity. Qed.

(** ** Missing data *)

(** C4, on the code: a repository without [stargazers] makes the fold
    raise [AttributeError] (its name is in the set by then), and a year
    whose sub-result is null makes [total_contributions] raise it too. *)
Theorem missing_data_raises :
  fold_page [no_stargazers] acc0 =
    (Raise AttributeError, set_repos acc0 [JStr "o/r"]) /\
  fst (total_contributions (years_transport JNull) all_contribs world0) =
    Raise AttributeError.
Proof. split; vm_compute; reflexivity. Qed.

(** What the code does treat as zero: a missing [forkCount], a year
    without calendar, a calendar without total. *)
Example missing_fork_count_is_zero :
  fold_page [no_fork_count] acc0 =
    (Return tt, {| acc_stargazers := 2; acc_forks := 0; acc_languages := [];
                   acc_repos := [JStr "o/r"] |}).
Proof. vm_compute. reflexivity. Qed.

Example missing_calendar_is_zero :
  fst (total_contributions (years_transport (JDict [])) all_contribs world0) =
    Return 40 /\
  fst (total_contributions (years_transport (calendar 17)) all_contribs world0) =
    Return 57.
Proof. split; vm_compute; reflexivity. Qed.

(** ** One run of [getData] *)

(** The four accessors that [getData] calls after [total_contributions]
    cost the two rounds of one run of [get_stats]. *)
Example getData_scenario :
  exists langs w,
    getData whole_transport all_contribs 5 world0 =
      (Return (57, 12, 6%nat, 19, langs), w) /\
    sent w = [ContribYears; AllContribs [JStr "2021"; JStr "2022"];
              ReposOverview None None; ReposOverview (Some "o1") (Some "c1")].
Proof. eexists; eexists; split; vm_compute; reflexivity. Qed.

End Runs.

(* ================================================================== *)
(** * Further facts about the transport *)
(* ================================================================== *)

Module TransportExtra.
Import Py Queries QueriesFacts Notions.

Lemma targets_app (t1 t2 : list event) : targets (t1 ++ t2) = targets t1 ++ targets t2.
Proof. unfold targets. apply flat_map_app. Qed.

Lemma not_none_or_dict (v : json) : not_none_or (JDict []) v <> JNull.
Proof. unfold not_none_or. destruct v; simpl; discriminate. Qed.

Section Rest.

Variable session_get : nat -> string -> params_t -> result response.
Variable requests_get : nat -> string -> params_t -> result response.

Abbreviation rest_fallback := (rest_fallback requests_get).
Abbreviation rest_attempt := (rest_attempt session_get requests_get).
Abbreviation query_rest_loop := (query_rest_loop session_get requests_get).

Abbreviation null_from_fallback :=
  (Notions.null_from_fallback session_get requests_get).

Lemma rest_attempt_none (i : nat) (url : string) (params : params_t) :
  snd (rest_attempt i url params) = Some (Ok JNull) -> null_from_fallback.
Proof.
  unfold Queries.rest_attempt, Queries.rest_fallback. intros H.
  exists i, url, params. unfold primary_raised.
  destruct (session_get i url params) as [r|e].
  - destruct (status r =? 202); [discriminate|].
    destruct (body r) as [v|e].
    + destruct v; simpl in H; discriminate.
    + destruct (requests_get i url params) as [r'|e']; [|discriminate].
      destruct (status r' =? 202); [discriminate|].
      destruct (status r' =? 200) eqn:E; [|discriminate].
      simpl in H. exists r'. apply Z.eqb_eq in E. repeat split; congruence.
  - destruct (requests_get i url params) as [r'|e']; [|discriminate].
    destruct (status r' =? 202); [discriminate|].
    destruct (status r' =? 200) eqn:E; [|discriminate].
    simpl in H. exists r'. apply Z.eqb_eq in E. repeat split; congruence.
Qed.

Lemma query_rest_loop_none (n i : nat) (path : string) (params : option params_t) :
  snd (query_rest_loop n i path params) = Ok JNull -> null_from_fallback.
Proof.
  revert i path params. induction n as [|n IH]; intros i path params; simpl.
  - discriminate.
  - set (p := match params with Some p => p | None => [] end).
    pose proof (rest_attempt_none i (rest_url (strip_slash path)) p) as Ha.
    destruct (rest_attempt i (rest_url (strip_slash path)) p) as [tr [r|]].
    + simpl in *. intros ->. now apply Ha.
    + specialize (IH (S i) (strip_slash path) (Some p)).
      destruct (query_rest_loop n (S i) (strip_slash path) (Some p)). exact IH.
Qed.

Lemma rest_attempt_sleeps (i : nat) (url : string) (params : params_t) :
  Forall (eq 2) (sleeps (fst (rest_attempt i url params))) /\
  (List.length (sleeps (fst (rest_attempt i url params))) <= 1)%nat.
Proof.
  unfold Queries.rest_attempt, Queries.rest_fallback.
  destruct (session_get i url params) as [r|e].
  - destruct (status r =? 202); [simpl; auto|].
    destruct (body r) as [v|e].
    + destruct (is_none v); simpl; auto.
    + destruct (requests_get i url params) as [r'|e']; [|simpl; auto].
      destruct (status r' =? 202); [simpl; auto|].
      destruct (status r' =? 200); simpl; auto.
  - destruct (requests_get i url params) as [r'|e']; [|simpl; auto].
    destruct (status r' =? 202); [simpl; auto|].
    destruct (status r' =? 200); simpl; auto.
Qed.

Lemma query_rest_loop_sleeps (n i : nat) (path : string) (params : option params_t) :
  Forall (eq 2) (sleeps (fst (query_rest_loop n i path params))) /\
  (List.length (sleeps (fst (query_rest_loop n i path params))) <= n)%nat.
Proof.
  revert i path params. induction n as [|n IH]; intros i path params; simpl.
  - split; [constructor|lia].
  - set (p := match params with Some p => p | None => [] end).
    pose proof (rest_attempt_sleeps i (rest_url (strip_slash path)) p) as [Hf Hl].
    destruct (rest_attempt i (rest_url (strip_slash path)) p) as [tr [r|]];
      simpl in *.
    + split; [exact Hf|lia].
    + specialize (IH (S i) (strip_slash path) (Some p)).
      destruct (query_rest_loop n (S i) (strip_slash path) (Some p)) as [tr' r].
      simpl in *. rewrite sleeps_app, length_app. destruct IH as [IHf IHl].
      split; [apply Forall_app; auto | lia].
Qed.

Lemma rest_attempt_targets (i : nat) (url : string) (params : params_t) :
  Forall (eq url) (targets (fst (rest_attempt i url params))).
Proof.
  unfold Queries.rest_attempt, Queries.rest_fallback.
  destruct (session_get i url params) as [r|e].
  - destruct (status r =? 202); [simpl; auto|].
    destruct (body r) as [v|e].
    + destruct (is_none v); simpl; auto.
    + destruct (requests_get i url params) as [r'|e']; [|simpl; auto].
      destruct (status r' =? 202); [simpl; auto|].
      destruct (status r' =? 200); simpl; auto.
  - destruct (requests_get i url params) as [r'|e']; [|simpl; auto].
    destruct (status r' =? 202); [simpl; auto|].
    destruct (status r' =? 200); simpl; auto.
Qed.

Lemma query_rest_loop_targets_fixed (q : string) :
  strip_slash q = q ->
  forall (n i : nat) (params : option params_t),
    Forall (eq (rest_url q)) (targets (fst (query_rest_loop n i q params))).
Proof.
  intros Hq. induction n as [|n IH]; intros i params; simpl.
  - constructor.
  - rewrite Hq.
    set (p := match params with Some p => p | None => [] end).
    pose proof (rest_attempt_targets i (rest_url q) p) as Ht.
    destruct (rest_attempt i (rest_url q) p) as [tr [r|]];
      simpl in *; [exact Ht|].
    specialize (IH (S i) (Some p)).
    destruct (query_rest_loop n (S i) q (Some p)) as [tr' r]. simpl in *.
    rewrite targets_app. apply Forall_app; auto.
Qed.

Lemma query_rest_loop_targets (n i : nat) (path : string) (params : option params_t) :
  strip_slash (strip_slash path) = strip_slash path ->
  Forall (eq (rest_url (strip_slash path)))
         (targets (fst (query_rest_loop n i path params))).
Proof.
  intros Hs. destruct n as [|n]; simpl.
  - constructor.
  - set (p := match params with Some p => p | None => [] end).
    pose proof (rest_attempt_targets i (rest_url (strip_slash path)) p) as Ht.
    destruct (rest_attempt i (rest_url (strip_slash path)) p) as [tr [r|]];
      simpl in *; [exact Ht|].
    pose proof (query_rest_loop_targets_fixed _ Hs n (S i) (Some p)) as IH.
    destruct (query_rest_loop n (S i) (strip_slash path) (Some p)) as [tr' r].
    simpl in *. rewrite targets_app. apply Forall_app; auto.
Qed.

Lemma query_rest_loop_refused (n i : nat) (path : string) (params : option params_t) :
  (forall i url p, exists e, session_get i url p = Err e) ->
  (forall i url p, exists r, requests_get i url p = Ok r /\
                             status r <> 200 /\ status r <> 202) ->
  snd (query_rest_loop n i path params) = Ok (JDict []) /\
  attempts (fst (query_rest_loop n i path params)) = n /\
  fallbacks (fst (query_rest_loop n i path params)) = n /\
  sleeps (fst (query_rest_loop n i path params)) = [].
Proof.
  intros Hs Hr. revert i path params.
  induction n as [|n IH]; intros i path params; simpl.
  - repeat split.
  - set (p := match params with Some p => p | None => [] end).
    set (url := rest_url (strip_slash path)).
    unfold Queries.rest_attempt, Queries.rest_fallback.
    destruct (Hs i url p) as (e & ->).
    destruct (Hr i url p) as (r & -> & H200 & H202).
    apply Z.eqb_neq in H200, H202. rewrite H200, H202.
    specialize (IH (S i) (strip_slash path) (Some p)).
    destruct (query_rest_loop n (S i) (strip_slash path) (Some p)) as [tr' r'].
    simpl in *. destruct IH as (IHr & IHa & IHf & IHs).
    unfold attempts, fallbacks in *. simpl. rewrite IHa, IHf. auto.
Qed.

End Rest.

(** X1.  A GraphQL answer is never [None]: a null body becomes an empty dict.
    A REST answer is [None] only when the fallback channel answered 200
    with a null body, after the primary attempt of that round raised. *)
Theorem none_only_from_rest_fallback :
  (forall (sp rp : string -> result response) (q : string),
      snd (query sp rp q) <> Ok JNull) /\
  (forall (sg rg : nat -> string -> params_t -> result response)
          (path : string) (params : option params_t),
      snd (query_rest sg rg path params) = Ok JNull ->
      null_from_fallback sg rg).
Proof.
  split.
  - intros sp rp q. unfold query.
    destruct (rbind (sp q) body) as [v|e]; simpl.
    + intros [= H]. now apply not_none_or_dict in H.
    + destruct (rbind (rp q) body) as [v|e']; simpl; [|discriminate].
      intros [= H]. now apply not_none_or_dict in H.
  - intros sg rg path params. apply query_rest_loop_none.
Qed.

(** [query_rest] does return [None] in that case. *)
Example rest_fallback_returns_none :
  snd (query_rest (down_get "aiohttp")
                  (fun _ _ _ => Ok {| status := 200; body := Ok JNull |})
                  "/repos/o/r" None) = Ok JNull.
Proof. reflexivity. Qed.

(** X2.  Every sleep of [query_rest] lasts 2 and there are at most 60 of them,
    whatever the channels answer. *)
Theorem query_rest_sleeps_bounded
  (sg rg : nat -> string -> params_t -> result response)
  (path : string) (params : option params_t) :
  Forall (eq 2) (sleeps (fst (query_rest sg rg path params))) /\
  (List.length (sleeps (fst (query_rest sg rg path params))) <= 60)%nat.
Proof. apply query_rest_loop_sleeps. Qed.

(** X3.  A path with at most one leading slash is requested at one URL, that
    of the path without the slash, in every attempt on either channel. *)
Theorem query_rest_same_url
  (sg rg : nat -> string -> params_t -> result response)
  (path : string) (params : option params_t) :
  strip_slash (strip_slash path) = strip_slash path ->
  Forall (eq (rest_url (strip_slash path)))
         (targets (fst (query_rest sg rg path params))).
Proof. intros H. now apply query_rest_loop_targets. Qed.

Lemma query_rest_same_url_witness :
  strip_slash (strip_slash "/repos/o/r") = strip_slash "/repos/o/r" /\
  Forall (eq (rest_url (strip_slash "/repos/o/r")))
         (targets (fst (query_rest always_202 (down_get "requests")
                          "/repos/o/r" None))).
Proof.
  split; [reflexivity|].
  apply (query_rest_same_url always_202 (down_get "requests") "/repos/o/r" None).
  reflexivity.
Defined.

(** A path with two leading slashes loses one in each of the first two
    rounds: the retry asks another URL than the first attempt. *)
Example two_slashes_two_urls :
  firstn 2 (targets (fst (query_rest always_202 (down_get "requests") "//x" None)))
    = ["https://api.github.com//x"; "https://api.github.com/x"].
Proof. vm_compute. reflexivity. Qed.

(** X4.  When the primary channel raises and the fallback answers a status
    that is neither 200 nor 202 in every round, [query_rest] makes its 60
    attempts and 60 fallback attempts without a sleep and returns an empty
    dict. *)
Theorem query_rest_retries_refusals
  (sg rg : nat -> string -> params_t -> result response)
  (path : string) (params : option params_t) :
  (forall i url p, exists e, sg i url p = Err e) ->
  (forall i url p, exists r, rg i url p = Ok r /\
                             status r <> 200 /\ status r <> 202) ->
  snd (query_rest sg rg path params) = Ok (JDict []) /\
  attempts (fst (query_rest sg rg path params)) = 60%nat /\
  fallbacks (fst (query_rest sg rg path params)) = 60%nat /\
  sleeps (fst (query_rest sg rg path params)) = [].
Proof. intros Hs Hr. now apply query_rest_loop_refused. Qed.

Lemma query_rest_retries_refusals_witness :
  snd (query_rest (down_get "aiohttp") (answers_status 404) "/repos/o/r" None)
    = Ok (JDict []) /\
  attempts (fst (query_rest (down_get "aiohttp") (answers_status 404)
                   "/repos/o/r" None)) = 60%nat /\
  fallbacks (fst (query_rest (down_get "aiohttp") (answers_status 404)
                    "/repos/o/r" None)) = 60%nat /\
  sleeps (fst (query_rest (down_get "aiohttp") (answers_status 404)
                 "/repos/o/r" None)) = [].
Proof.
  apply (query_rest_retries_refusals (down_get "aiohttp") (answers_status 404)).
  - intros i url p. now exists (ChannelError "aiohttp").
  - intros i url p. eexists. split; [reflexivity|]. split; discriminate.
Defined.

End TransportExtra.

(* ================================================================== *)
(** * Further facts about the fold *)
(* ================================================================== *)

Module FoldExtra.
Import Py Queries Stats PyFacts FoldFacts Notions.

Lemma invariant_ret {S A : Type} (P : S -> Prop) (a : A) : invariant P (@ret S A a).
Proof. intros s o s' H [= _ <-]. exact H. Qed.

Lemma invariant_lift {S A : Type} (P : S -> Prop) (r : result A) :
  invariant P (@lift S A r).
Proof. intros s o s' H [= _ <-]. exact H. Qed.

Lemma invariant_gets {S X : Type} (P : S -> Prop) (g : S -> X) : invariant P (gets g).
Proof. intros s o s' H [= _ <-]. exact H. Qed.

Lemma invariant_modify {S : Type} (P : S -> Prop) (g : S -> S) :
  (forall s, P s -> P (g s)) -> invariant P (modify g).
Proof. intros Hg s o s' H [= _ <-]. now apply Hg. Qed.

Lemma invariant_bind {S A B : Type} (P : S -> Prop) (m : M S A) (k : A -> M S B) :
  invariant P m -> (forall a, invariant P (k a)) -> invariant P (bind m k).
Proof.
  intros Hm Hk s o s' HP. unfold bind.
  destruct (m s) as [[a|e|] s1] eqn:E; intros H.
  - eapply Hk; [eapply Hm; eauto | exact H].
  - injection H as _ <-. eapply Hm; eauto.
  - injection H as _ <-. eapply Hm; eauto.
Qed.

Lemma invariant_for_each {S A : Type} (P : S -> Prop) (l : list A)
      (body : A -> M S unit) :
  (forall x, invariant P (body x)) -> invariant P (for_each l body).
Proof.
  intros Hb. induction l as [|x l IH]; simpl.
  - apply invariant_ret.
  - apply invariant_bind; auto.
Qed.

Lemma key_eqb_sym (a b : json) : key_eqb a b = key_eqb b a.
Proof.
  destruct a as [|[|]|x|s|l|d], b as [|[|]|y|t|l'|d'];
    unfold key_eqb, as_int;
    try reflexivity; try apply Z.eqb_sym; apply String.eqb_sym.
Qed.

Lemma distinct_keys_snoc (l : list json) (x : json) :
  distinct_keys l -> hashable x = true -> existsb (key_eqb x) l = false ->
  distinct_keys (l ++ [x]).
Proof.
  induction l as [|y l IH]; simpl; intros Hd Hx He.
  - repeat split; auto.
  - destruct Hd as (Hy & Hn & Hd). apply orb_false_iff in He as [Hxy He].
    repeat split; auto.
    rewrite existsb_snoc, Hn, key_eqb_sym, Hxy. reflexivity.
Qed.

(** ** The set of repositories stays a set *)

Lemma fold_repo_keeps_set (repo : json) :
  invariant (fun a => distinct_keys (acc_repos a)) (fold_repo repo).
Proof.
  intros a o a' Hd. unfold fold_repo. destruct (is_none repo).
  { intros [= _ <-]. exact Hd. }
  unfold bind at 1. unfold lift at 1.
  destruct (py_get repo "nameWithOwner" JNull) as [name|e].
  2:{ intros [= _ <-]. exact Hd. }
  unfold bind at 1. unfold gets at 1.
  unfold bind at 1. unfold lift at 1. unfold set_contains.
  destruct (hashable name) eqn:Hh.
  2:{ intros [= _ <-]. exact Hd. }
  destruct (existsb (key_eqb name) (acc_repos a)) eqn:He.
  { intros [= _ <-]. exact Hd. }
  unfold bind at 1. unfold modify at 1. intros H.
  apply count_repo_keeps_repos in H. rewrite H. simpl.
  now apply distinct_keys_snoc.
Qed.

(** ** The keys of the language dict stay distinct *)

Lemma dict_iadd_size_keys (name x : json) (d d' : dict) :
  dict_iadd_size name x d = Ok d' -> map fst d' = map fst d.
Proof.
  revert d'. induction d as [|[k e] d IH]; simpl; intros d'; [discriminate|].
  destruct (key_eqb name k).
  - destruct (py_iadd (size e) x); simpl; [|discriminate].
    intros [= <-]. reflexivity.
  - destruct (dict_iadd_size name x d) as [d0|]; simpl; [|discriminate].
    intros [= <-]. simpl. now rewrite (IH d0 eq_refl).
Qed.

Lemma dict_contains_false (name : json) (d : dict) :
  dict_contains name d = Ok false ->
  hashable name = true /\ existsb (key_eqb name) (map fst d) = false.
Proof.
  unfold dict_contains. destruct (hashable name); [|discriminate].
  intros [= H]. split; [reflexivity|].
  rewrite <- H. clear H. induction d as [|kv d IH]; simpl; [reflexivity|].
  now rewrite IH.
Qed.

Lemma fold_lang_keeps_keys (lang : json) :
  invariant (fun a => distinct_keys (lang_keys a)) (fold_lang lang).
Proof.
  intros a o a' Hd. unfold fold_lang, lang_keys in *.
  unfold bind at 1. unfold lift at 1.
  destruct (py_get lang "node" (JDict [])) as [node|e].
  2:{ intros [= _ <-]. exact Hd. }
  unfold bind at 1. unfold lift at 1.
  destruct (py_get node "name" (JStr "Other")) as [name|e].
  2:{ intros [= _ <-]. exact Hd. }
  unfold bind at 1. unfold gets at 1.
  unfold bind at 1. unfold lift at 1.
  destruct (dict_contains name (acc_languages a)) as [[|]|e] eqn:Ec.
  3:{ intros [= _ <-]. exact Hd. }
  - unfold bind at 1. unfold lift at 1.
    destruct (py_get lang "size" (JInt 0)) as [sz|e].
    2:{ intros [= _ <-]. exact Hd. }
    unfold bind at 1. unfold lift at 1.
    destruct (dict_iadd_size name sz (acc_languages a)) as [d|e] eqn:Ed.
    2:{ intros [= _ <-]. exact Hd. }
    unfold modify. intros [= _ <-]. simpl.
    now rewrite (dict_iadd_size_keys _ _ _ _ Ed).
  - unfold bind at 1. unfold lift at 1.
    destruct (py_get lang "size" (JInt 0)) as [sz|e].
    2:{ intros [= _ <-]. exact Hd. }
    unfold modify. intros [= _ <-]. simpl.
    apply dict_contains_false in Ec as [Hh He].
    rewrite map_app. simpl. now apply distinct_keys_snoc.
Qed.

Lemma count_repo_keeps_keys (repo : json) :
  invariant (fun a => distinct_keys (lang_keys a)) (count_repo repo).
Proof.
  unfold count_repo.
  repeat first
    [ apply invariant_for_each; intros; apply fold_lang_keeps_keys
    | apply invariant_modify; intros s Hs; exact Hs
    | apply invariant_gets
    | apply invariant_lift
    | apply invariant_bind; [|intros ?] ].
Qed.

Lemma fold_repo_keeps_keys (repo : json) :
  invariant (fun a => distinct_keys (lang_keys a)) (fold_repo repo).
Proof.
  unfold fold_repo. destruct (is_none repo); [apply invariant_ret|].
  apply invariant_bind; [apply invariant_lift|intros name].
  apply invariant_bind; [apply invariant_gets|intros seen_names].
  apply invariant_bind; [apply invariant_lift|intros seen].
  destruct seen; [apply invariant_ret|].
  apply invariant_bind; [|intros ?; apply count_repo_keeps_keys].
  apply invariant_modify. intros s Hs. exact Hs.
Qed.

(** X5.  The repositories counted form a set and the languages a dict: keys
    that are hashable and pairwise different.  The fold of a page of any
    JSON values keeps both so, whether it returns or raises. *)
Theorem fold_page_keeps_set_and_dict (page : list json) (a a' : acc)
        (o : outcome unit) :
  distinct_keys (acc_repos a) ->
  distinct_keys (lang_keys a) ->
  fold_page page a = (o, a') ->
  distinct_keys (acc_repos a') /\ distinct_keys (lang_keys a').
Proof.
  intros Hr Hl H. split.
  - eapply (invariant_for_each (fun a => distinct_keys (acc_repos a)));
      eauto using fold_repo_keeps_set.
  - eapply (invariant_for_each (fun a => distinct_keys (lang_keys a)));
      eauto using fold_repo_keeps_keys.
Qed.

(** X6.  The [None] entries of a page are ignored: the fold does on the page
    what it does on the page without them. *)
Theorem fold_page_ignores_none (page : list json) (a : acc) :
  fold_page (filter (fun repo => negb (is_none repo)) page) a = fold_page page a.
Proof.
  unfold fold_page. revert a. induction page as [|repo page IH]; intros a.
  - reflexivity.
  - simpl. destruct (is_none repo) eqn:E; simpl.
    + rewrite IH. unfold bind, fold_repo. now rewrite E.
    + unfold bind. destruct (fold_repo repo a) as [[[]|e|] a1]; auto.
Qed.

End FoldExtra.

(* ================================================================== *)
(** * Further facts about [Stats] *)
(* ================================================================== *)

Module StatsExtra.
Import Py Queries Stats Model Data PyFacts FoldFacts ModelFacts ViewFacts StatsFacts.
Import Notions FoldExtra.

(** C9's page, followed by a node on which the fold raises. *)
Lemma fold_page_keeps_set_and_dict_witness :
  distinct_keys (acc_repos acc0) /\
  distinct_keys (lang_keys acc0) /\
  fold_page page1_then_bad acc0 = (Raise AttributeError, after_page1_then_bad) /\
  distinct_keys (acc_repos after_page1_then_bad) /\
  distinct_keys (lang_keys after_page1_then_bad).
Proof.
  assert (H : fold_page page1_then_bad acc0 =
              (Raise AttributeError, after_page1_then_bad))
    by (vm_compute; reflexivity).
  split; [exact I|]. split; [exact I|]. split; [exact H|].
  exact (fold_page_keeps_set_and_dict page1_then_bad acc0 after_page1_then_bad
           (Raise AttributeError) I I H).
Defined.

(** ** [total_contributions] *)

Section Total.

Variable transport : nat -> request -> result json.
Variable all_contribs : json -> result request.

Lemma total_set_set (n : Z) : invariant total_set (set_total_contributions n).
Proof. intros s o s' _ [= _ <-]. unfold total_set. simpl. discriminate. Qed.

Lemma total_set_send (q : request) : invariant total_set (send_w transport q).
Proof. intros s o s' H [= _ <-]. exact H. Qed.

Lemma total_set_the_total : invariant total_set the_total.
Proof.
  unfold the_total. apply invariant_bind.
  - intros s o s' H [= _ <-]. exact H.
  - intros w. destruct (_total_contributions (self w));
      [apply invariant_ret | apply invariant_lift].
Qed.

Lemma total_set_add_year (year : json) : invariant total_set (add_year year).
Proof.
  unfold add_year.
  repeat first
    [ apply total_set_the_total
    | apply total_set_set
    | apply invariant_lift
    | apply invariant_bind; [|intros ?] ].
Qed.

Lemma total_contributions_sets (w : world) :
  total_set (snd (total_contributions transport all_contribs w)).
Proof.
  unfold total_contributions, bind at 1, get at 1.
  destruct (_total_contributions (self w)) as [v|] eqn:E.
  - simpl. unfold total_set. congruence.
  - match goal with |- total_set (snd (?m w)) =>
      destruct (m w) as [o w'] eqn:Em end.
    simpl. revert Em. unfold bind at 1, set_total_contributions at 1.
    match goal with |- ?k ?a ?s = _ -> _ =>
      assert (Hk : invariant total_set (k a)) end.
    { repeat first
        [ apply total_set_the_total
        | apply total_set_send
        | apply invariant_lift
        | apply invariant_for_each; intros; apply total_set_add_year
        | apply invariant_bind; [|intros ?] ]. }
    intros Em. eapply Hk; [|exact Em]. unfold total_set. simpl. discriminate.
Qed.

Lemma total_contributions_cached (w : world) (v : Z) :
  _total_contributions (self w) = Some v ->
  total_contributions transport all_contribs w = (Return v, w).
Proof.
  intros H. unfold total_contributions, bind, get. now rewrite H.
Qed.

Lemma add_years (subs : list (string * option Z)) :
  forall (o : stats) (reqs : list request) (n : Z),
    _total_contributions o = Some n ->
    for_each (map (fun s => year_json (snd s)) subs) add_year
             {| self := o; sent := reqs |} =
      (Return tt,
       {| self := set_total o (n + zsum (map (fun s => total_of (snd s)) subs));
          sent := reqs |}).
Proof.
  induction subs as [|[alias [t|]] subs IH]; intros o reqs n Hn.
  - simpl. unfold ret. rewrite Z.add_0_r.
    destruct o; simpl in *. now rewrite Hn.
  - cbn [map for_each snd year_json].
    unfold bind at 1. unfold add_year at 1, the_total, bind, get, lift, ret,
      set_total_contributions, calendar.
    cbn [self sent]. rewrite Hn.
    cbn [py_get assoc String.eqb Ascii.eqb Bool.eqb int_iadd as_int].
    rewrite (IH _ _ (n + t)) by reflexivity.
    unfold set_total, zsum.
    cbn [total_of map fold_right snd _stargazers _forks _total_contributions
         _languages _repos].
    do 2 f_equal. f_equal. f_equal. lia.
  - cbn [map for_each snd year_json].
    unfold bind at 1. unfold add_year at 1, the_total, bind, get, lift, ret,
      set_total_contributions.
    cbn [self sent]. rewrite Hn.
    cbn [py_get assoc int_iadd as_int].
    rewrite (IH _ _ (n + 0)) by reflexivity.
    unfold set_total, zsum.
    cbn [total_of map fold_right snd _stargazers _forks _total_contributions
         _languages _repos].
    do 2 f_equal. f_equal. f_equal. lia.
Qed.

End Total.

(** X7.  Once called, [total_contributions] answers from its attribute: a
    second call sends nothing and returns the sum the first call left,
    which is a partial sum when the first call raised. *)
Theorem total_contributions_never_recomputed
  (transport : nat -> request -> result json)
  (all_contribs : json -> result request) (w : world) :
  exists v,
    _total_contributions (self (snd (total_contributions transport all_contribs w)))
      = Some v /\
    total_contributions transport all_contribs
        (snd (total_contributions transport all_contribs w)) =
      (Return v, snd (total_contributions transport all_contribs w)).
Proof.
  pose proof (total_contributions_sets transport all_contribs w) as H.
  unfold total_set in H.
  destruct (_total_contributions
              (self (snd (total_contributions transport all_contribs w))))
    as [v|] eqn:E; [|contradiction].
  exists v. split; [reflexivity|]. now apply total_contributions_cached.
Qed.

(** The call that raised on a null sub-result left 40, and the next call
    returns 40. *)
Example partial_total_is_served :
  let w := snd (total_contributions (years_transport JNull) all_contribs world0) in
  fst (total_contributions (years_transport JNull) all_contribs world0)
    = Raise AttributeError /\
  total_contributions (years_transport JNull) all_contribs w = (Return 40, w).
Proof. split; vm_compute; reflexivity. Qed.

(** X8.  When the two queries are answered with the years and with one
    sub-result per alias, [total_contributions] sends these two requests
    and returns the sum of the totals, a sub-result without calendar
    counting for 0. *)
Theorem total_contributions_sums
  (transport : nat -> request -> result json)
  (all_contribs : json -> result request) (w : world)
  (years : json) (q : request) (subs : list (string * option Z)) :
  _total_contributions (self w) = None ->
  transport (List.length (sent w)) contrib_years = Ok (years_json years) ->
  all_contribs years = Ok q ->
  transport (S (List.length (sent w))) q = Ok (by_year_json subs) ->
  total_contributions transport all_contribs w =
    (Return (zsum (map (fun s => total_of (snd s)) subs)),
     {| self := set_total (self w) (zsum (map (fun s => total_of (snd s)) subs));
        sent := sent w ++ [contrib_years; q] |}).
Proof.
  intros Hn H1 Hq H2.
  unfold total_contributions. unfold bind at 1, get at 1. rewrite Hn.
  unfold bind at 1, set_total_contributions at 1.
  unfold bind at 1, send_w at 1. cbn [self sent]. rewrite H1.
  unfold years_json.
  unfold bind at 1, lift at 1. cbn [py_get assoc String.eqb Ascii.eqb Bool.eqb].
  unfold bind at 1, lift at 1. cbn [py_get assoc String.eqb Ascii.eqb Bool.eqb].
  unfold bind at 1, lift at 1. cbn [py_get assoc String.eqb Ascii.eqb Bool.eqb].
  unfold bind at 1, lift at 1. cbn [py_get assoc String.eqb Ascii.eqb Bool.eqb].
  unfold bind at 1, lift at 1. rewrite Hq.
  unfold bind at 1, send_w at 1. cbn [self sent].
  rewrite length_app, Nat.add_1_r, H2. unfold by_year_json.
  unfold bind at 1, lift at 1. cbn [py_get assoc String.eqb Ascii.eqb Bool.eqb].
  unfold bind at 1, lift at 1. cbn [py_get assoc String.eqb Ascii.eqb Bool.eqb].
  unfold bind at 1, lift at 1. cbn [py_values].
  rewrite map_map. cbn [snd].
  unfold bind at 1.
  rewrite (add_years subs _ _ 0) by reflexivity.
  unfold the_total, bind, get, ret. cbn [self sent set_total _total_contributions].
  rewrite <- app_assoc. destruct (self w); reflexivity.
Qed.

Lemma total_contributions_sums_witness :
  total_contributions (years_transport (calendar 17)) all_contribs world0 =
    (Return 57,
     {| self := set_total new_stats 57;
        sent := [contrib_years; AllContribs [JStr "2021"; JStr "2022"]] |}).
Proof.
  exact (total_contributions_sums (years_transport (calendar 17)) all_contribs
           world0 (JList [JStr "2021"; JStr "2022"])
           (AllContribs [JStr "2021"; JStr "2022"])
           [("year2021", Some 40); ("year2022", Some 17)]
           eq_refl eq_refl eq_refl eq_refl).
Defined.

End StatsExtra.

(* ================================================================== *)
(** * Further facts about the loop and [getData] *)
(* ================================================================== *)

Module LoopExtra.
Import Py Queries Stats Model Data PyFacts FoldFacts ModelFacts ViewFacts StatsFacts.
Import Notions.

Lemma loop_double_requests (owned contrib : list page) (d : nat) :
  forall (k : nat) (t : totals) (reqs : list request) (fuel : nat),
    rounds owned contrib = (k + S d)%nat ->
    List.length reqs = k ->
    (S d <= fuel)%nat ->
    exists a,
      get_stats_loop (double owned contrib) fuel
                     (key (cursor_before owned k)) (key (cursor_before contrib k))
                     (to_acc t, reqs) =
        (Return tt, (a, reqs ++ map (request_at owned contrib) (seq k (S d)))).
Proof.
  induction d as [|d IH]; intros k t reqs fuel HR Hk Hfuel;
    (destruct fuel as [|fuel]; [lia|]); simpl get_stats_loop;
    rewrite (bind_step _ _ _ _ _
               (page_round_double owned contrib k t reqs _ _ Hk)).
  - replace (S k <? rounds owned contrib)%nat with false
      by (symmetry; apply Nat.ltb_ge; lia).
    eexists. reflexivity.
  - replace (S k <? rounds owned contrib)%nat with true
      by (symmetry; apply Nat.ltb_lt; lia).
    destruct (IH (S k) (fold_left add_repo (fetched_at owned contrib k) t)
                 (reqs ++ [ReposOverview (cursor_before owned k)
                                         (cursor_before contrib k)]) fuel)
      as (a & Hrun); [lia | rewrite length_app; simpl; lia | lia |].
    exists a. cbn [cursor_before] in Hrun. rewrite Hrun.
    rewrite <- app_assoc. reflexivity.
Qed.

Lemma cursor_before_spent (pages : list page) (j : nat) :
  (List.length pages < j)%nat -> cursor_before pages j = None.
Proof.
  destruct j as [|j]; [lia|]. intros H. unfold cursor_before, next_cursor.
  replace (nth_error pages j) with (@None page); [reflexivity|].
  symmetry. apply nth_error_None. lia.
Qed.

(** X9.  Against the double, each round sends the end cursors that the round
    before reported.  The answer of a spent stream reports a null cursor,
    so from the second round after its last page on, a spent stream is
    asked from its start again. *)
Theorem loop_sends_reported_cursors (owned contrib : list page) (fuel : nat) :
  (1 <= rounds owned contrib)%nat ->
  (rounds owned contrib <= fuel)%nat ->
  (exists a,
      get_stats_loop (double owned contrib) fuel JNull JNull (acc0, []) =
        (Return tt,
         (a, map (request_at owned contrib) (seq 0 (rounds owned contrib))))) /\
  (forall j, (List.length owned < j)%nat -> cursor_before owned j = None) /\
  (forall j, (List.length contrib < j)%nat -> cursor_before contrib j = None).
Proof.
  intros H1 Hf. split; [|split; intros; now apply cursor_before_spent].
  destruct (loop_double_requests owned contrib (rounds owned contrib - 1) 0
              totals0 [] fuel) as (a & Hrun); try lia; try reflexivity.
  exists a. cbn [cursor_before key] in Hrun.
  change (to_acc totals0) with acc0 in Hrun. rewrite Hrun.
  replace (S (rounds owned contrib - 1)) with (rounds owned contrib) by lia.
  reflexivity.
Qed.

(** One page of owned repositories against three of contributed-to ones:
    the third request asks the owned stream from its start. *)
Lemma loop_sends_reported_cursors_witness :
  (1 <= rounds [owned1] [contrib1; contrib1; contrib1])%nat /\
  (exists a,
      get_stats_loop (double [owned1] [contrib1; contrib1; contrib1]) 3
                     JNull JNull (acc0, []) =
        (Return tt,
         (a, map (request_at [owned1] [contrib1; contrib1; contrib1])
                 (seq 0 (rounds [owned1] [contrib1; contrib1; contrib1]))))) /\
  map (request_at [owned1] [contrib1; contrib1; contrib1]) (seq 0 3) =
    [ReposOverview None None; ReposOverview (Some "o1") (Some "c1");
     ReposOverview None (Some "c1")].
Proof.
  split; [unfold rounds; simpl; lia|]. split; [|reflexivity].
  apply (loop_sends_reported_cursors [owned1] [contrib1; contrib1; contrib1] 3);
    unfold rounds; simpl; lia.
Defined.

(** ** Answers without data *)

(** X10.  An answer that is a dict without ["data"] counts as an empty last
    page: [get_stats] sends one request and returns with all totals at
    zero.  An answer whose ["data"] is null makes it raise
    [AttributeError] after that request. *)
Theorem get_stats_without_data
  (transport : nat -> request -> result json) (fuel : nat) (w : world)
  (d : list (string * json)) :
  transport (List.length (sent w)) (ReposOverview None None) = Ok (JDict d) ->
  (assoc "data" d = None ->
   get_stats transport (S fuel) w =
     (Return tt, {| self := store acc0 (self w);
                    sent := sent w ++ [ReposOverview None None] |})) /\
  (assoc "data" d = Some JNull ->
   get_stats transport (S fuel) w =
     (Raise AttributeError, {| self := store acc0 (self w);
                               sent := sent w ++ [ReposOverview None None] |})).
Proof.
  intros Ht. split; intros Hd.
  - unfold get_stats. simpl get_stats_loop.
    unfold page_round.
    unfold bind at 1. unfold bind at 1. unfold bind at 1.
    unfold lift at 1. cbn [repos_overview cursor_arg rbind].
    unfold bind at 1, send at 1. cbn [fst snd]. rewrite Ht.
    unfold not_none_or. cbn [is_none]. unfold connection.
    cbn [py_get]. rewrite Hd.
    unfold bind, lift, on_acc, more_pages, page_info.
    cbn [py_get assoc rbind py_iadd py_iter app fold_page for_each ret fst snd
         truthy].
    reflexivity.
  - unfold get_stats. simpl get_stats_loop.
    unfold page_round.
    unfold bind at 1. unfold bind at 1. unfold bind at 1.
    unfold lift at 1. cbn [repos_overview cursor_arg rbind].
    unfold bind at 1, send at 1. cbn [fst snd]. rewrite Ht.
    unfold not_none_or. cbn [is_none]. unfold connection.
    cbn [py_get]. rewrite Hd.
    unfold bind, lift. cbn [py_get rbind]. reflexivity.
Qed.

Lemma get_stats_without_data_witness :
  get_stats (fun _ _ => Ok refused) 1 world0 =
    (Return tt, {| self := store acc0 new_stats;
                   sent := [ReposOverview None None] |}).
Proof.
  exact (proj1 (get_stats_without_data (fun _ _ => Ok refused) 0 world0
                  [("message", JStr "Bad credentials")] eq_refl) eq_refl).
Defined.

Example null_data_raises :
  get_stats (fun _ _ => Ok null_data) 1 world0 =
    (Raise AttributeError, {| self := store acc0 new_stats;
                              sent := [ReposOverview None None] |}).
Proof. vm_compute. reflexivity. Qed.

(** ** [getData] *)

(** X11.  On a new object, [getData] is one run of [total_contributions]
    followed by one run of [get_stats]: [forks] makes that run, and the
    three accessors called after it answer from the attributes it set.
    What [getData] returns is what these attributes hold. *)
Theorem getData_runs_get_stats_once
  (transport : nat -> request -> result json)
  (all_contribs : json -> result request) (fuel : nat) (w w' : world)
  (c f s : Z) (n : nat) (l : list (json * float)) :
  self w = new_stats ->
  getData transport all_contribs fuel w = (Return (c, f, n, s, l), w') ->
  exists w1 rs d,
    total_contributions transport all_contribs w = (Return c, w1) /\
    get_stats transport fuel w1 = (Return tt, w') /\
    _forks (self w') = Some f /\
    _repos (self w') = Some rs /\ n = List.length rs /\
    _stargazers (self w') = Some s /\
    _languages (self w') = Some d /\ l = sorted_desc (props d).
Proof.
  intros Hnew H. unfold getData in H.
  apply bind_Return in H as (c0 & w1 & Hc & H).
  apply bind_Return in H as (f0 & w2 & Hf & H).
  apply bind_Return in H as (rs & w3 & Hr & H).
  apply bind_Return in H as (s0 & w4 & Hs & H).
  apply bind_Return in H as (l0 & w5 & Hl & H).
  injection H as Hc0 Hf0 Hn Hs0 Hl0 Hw. subst c0 f0 n s0 l0 w5.
  pose proof (total_contributions_keeps transport all_contribs _ _ _ Hc) as Hk.
  unfold fold_state in Hk. rewrite Hnew in Hk. simpl in Hk.
  injection Hk as Hk1 Hk2 Hk3 Hk4.
  destruct (forks_memo transport fuel) as [_ Hfn].
  rewrite (Hfn w1 Hk2) in Hf.
  pose proof (get_stats_computed transport fuel w1) as (s1 & f1 & d1 & r1 & Es & Ef & Ed & Er).
  destruct (get_stats transport fuel w1) as [o w2'] eqn:Eg. cbn [fst snd] in *.
  destruct o as [[]|e|]; try discriminate.
  rewrite Ef in Hf. injection Hf as <- <-.
  destruct (repos_memo transport fuel) as [Hrc _].
  rewrite (Hrc _ _ Er) in Hr. injection Hr as <- <-.
  destruct (stargazers_memo transport fuel) as [Hsc _].
  rewrite (Hsc _ _ Es) in Hs. injection Hs as <- <-.
  destruct (languages_proportional_memo transport fuel) as [Hlc _].
  rewrite (Hlc _ _ Ed) in Hl. injection Hl as <- <-.
  exists w1, r1, d1. repeat split; auto.
Qed.

Lemma getData_runs_get_stats_once_witness :
  exists w1 rs d,
    total_contributions whole_transport all_contribs world0 = (Return 57, w1) /\
    get_stats whole_transport 5 w1 =
      (Return tt, snd (getData whole_transport all_contribs 5 world0)) /\
    _forks (self (snd (getData whole_transport all_contribs 5 world0))) = Some 12 /\
    _repos (self (snd (getData whole_transport all_contribs 5 world0))) = Some rs /\
    6%nat = List.length rs /\
    _stargazers (self (snd (getData whole_transport all_contribs 5 world0))) = Some 19 /\
    _languages (self (snd (getData whole_transport all_contribs 5 world0))) = Some d /\
    whole_view = sorted_desc (props d).
Proof.
  apply (getData_runs_get_stats_once whole_transport all_contribs 5 world0).
  - reflexivity.
  - vm_compute. reflexivity.
Defined.

End LoopExtra.

(* ================================================================== *)
(** * Facts about the report *)
(* ================================================================== *)

Module ReportFacts.
Import Py Queries Stats Model Data Report.
Import Notions.

Lemma map_result_Ok {A B : Type} (f : A -> result B) :
  forall (l : list A) (ys : list B),
    map_result f l = Ok ys -> Forall2 (fun x y => f x = Ok y) l ys.
Proof.
  induction l as [|x l IH]; simpl; intros ys H.
  - injection H as <-. constructor.
  - destruct (f x) as [y|e] eqn:Hx; simpl in H; [|discriminate].
    destruct (map_result f l) as [ys'|e] eqn:Hl; simpl in H; [|discriminate].
    injection H as <-. constructor; auto.
Qed.

Lemma map_result_all {A B : Type} (f : A -> result B) :
  forall l : list A,
    Forall (fun x => exists y, f x = Ok y) l ->
    exists ys, map_result f l = Ok ys /\ List.length ys = List.length l.
Proof.
  induction 1 as [|x l [y Hy] _ [ys [IH Hlen]]]; simpl.
  - exists []. auto.
  - rewrite Hy, IH. simpl. exists (y :: ys). simpl. auto.
Qed.

Lemma map_result_Err {A B : Type} (f : A -> result B) :
  forall (l : list A) (e : exn),
    map_result f l = Err e -> Exists (fun x => f x = Err e) l.
Proof.
  induction l as [|x l IH]; simpl; intros e H; [discriminate|].
  destruct (f x) as [y|e'] eqn:Hx; simpl in H.
  - destruct (map_result f l) as [ys'|e''] eqn:Hl; simpl in H; [discriminate|].
    injection H as <-. apply Exists_cons_tl. auto.
  - injection H as <-. apply Exists_cons_hd. exact Hx.
Qed.

Lemma map_result_one_error {A B : Type} (f : A -> result B) (e : exn) :
  (forall x e', f x = Err e' -> e' = e) ->
  forall l : list A,
    Exists (fun x => f x = Err e) l -> map_result f l = Err e.
Proof.
  intros Hone. induction 1 as [x l Hx|x l _ IH]; simpl.
  - rewrite Hx. reflexivity.
  - rewrite IH. destruct (f x) as [y|e'] eqn:Hx; simpl; [reflexivity|].
    f_equal. eauto.
Qed.

Lemma logo_error (k : json) (e : exn) : logo k = Err e -> e = KeyError.
Proof.
  unfold logo. destruct k; try congruence.
  destruct (lookup s logos); congruence.
Qed.

Lemma language_line_known (it : json * float) :
  known it -> exists line, language_line it = Ok line.
Proof.
  intros [u Hu]. unfold language_line. rewrite Hu.
  destruct (fst it) eqn:Hk; try (simpl in Hu; discriminate).
  eexists. reflexivity.
Qed.

Lemma language_line_Ok (it : json * float) (line : string) :
  language_line it = Ok line -> known it.
Proof.
  unfold language_line, known. destruct (logo (fst it)) as [u|e]; [|discriminate].
  intros _. exists u. reflexivity.
Qed.

Lemma language_line_Err (it : json * float) (e : exn) :
  language_line it = Err e -> e = KeyError /\ ~ known it.
Proof.
  unfold language_line, known.
  destruct (logo (fst it)) as [u|e'] eqn:Hl.
  - destruct (fst it); discriminate.
  - intros H. injection H as <-. split.
    + eapply logo_error; eauto.
    + intros [u Hu]. discriminate.
Qed.

Lemma language_line_unknown (it : json * float) :
  ~ known it -> language_line it = Err KeyError.
Proof.
  intros Hn. destruct (language_line it) as [line|e] eqn:H.
  - exfalso. apply Hn. eapply language_line_Ok; eauto.
  - f_equal. apply language_line_Err in H. tauto.
Qed.

Lemma language_known (data : list (json * float)) :
  Forall known (firstn 3 data) ->
  exists lines,
    language data = Ok lines /\
    List.length lines = Nat.min 3 (List.length data).
Proof.
  intros H. unfold language.
  destruct (map_result_all language_line (firstn 3 data)) as [ys [Hy Hlen]].
  - eapply Forall_impl; [|exact H]. intros it. apply language_line_known.
  - exists ys. split; [exact Hy|]. rewrite Hlen. apply length_firstn.
Qed.

Lemma language_unknown (data : list (json * float)) :
  Exists (fun it => ~ known it) (firstn 3 data) ->
  language data = Err KeyError.
Proof.
  intros H. unfold language. apply map_result_one_error.
  - intros x e' He. apply language_line_Err in He. tauto.
  - eapply Exists_impl; [|exact H]. intros it. apply language_line_unknown.
Qed.

Lemma language_Ok (data : list (json * float)) (lines : list string) :
  language data = Ok lines ->
  Forall known (firstn 3 data) /\
  List.length lines = Nat.min 3 (List.length data).
Proof.
  unfold language. intros H. apply map_result_Ok in H.
  split.
  - clear - H. induction H as [|x y l ys Hx _ IH]; constructor; auto.
    eapply language_line_Ok; eauto.
  - rewrite <- (Forall2_length H). apply length_firstn.
Qed.

Lemma item_Written (lang : list string) (i : nat) :
  (i < List.length lang)%nat -> exists l, item lang i = Written l.
Proof.
  intros H. unfold item. destruct (nth_error lang i) as [l|] eqn:Hn.
  - eauto.
  - apply nth_error_None in Hn. lia.
Qed.

Lemma item_Failed (lang : list string) (i : nat) :
  (List.length lang <= i)%nat -> item lang i = Failed IndexError.
Proof.
  intros H. unfold item. apply nth_error_None in H. rewrite H. reflexivity.
Qed.

Lemma render_Written (model : option string) (c f s : Z) (n : nat)
      (langs : list (json * float)) (txt : string) :
  render model (c, f, n, s, langs) = Written txt ->
  model <> None /\ (3 <= List.length langs)%nat /\
  Forall known (firstn 3 langs).
Proof.
  unfold render. destruct (language langs) as [lang|e] eqn:HL; [|discriminate].
  apply language_Ok in HL. destruct HL as [Hk Hlen].
  destruct model as [contenu|]; [|discriminate].
  intros H. split; [discriminate|]. split; [|exact Hk].
  destruct (Nat.le_gt_cases 3 (List.length lang)) as [Hge|Hlt]; [lia|].
  exfalso. unfold ebind in H.
  destruct (item lang 0) as [l0| |] eqn:H0; try discriminate.
  destruct (item lang 1) as [l1| |] eqn:H1; try discriminate.
  rewrite (item_Failed lang 2) in H by lia. discriminate.
Qed.

Lemma render_writes (contenu : string) (c f s : Z) (n : nat)
      (langs : list (json * float)) :
  (3 <= List.length langs)%nat -> Forall known (firstn 3 langs) ->
  exists txt, render (Some contenu) (c, f, n, s, langs) = Written txt.
Proof.
  intros Hlen Hk. unfold render.
  destruct (language_known langs Hk) as [lang [HL Hl]]. rewrite HL.
  destruct (item_Written lang 0) as [l0 H0]; [lia|].
  destruct (item_Written lang 1) as [l1 H1]; [lia|].
  destruct (item_Written lang 2) as [l2 H2]; [lia|].
  rewrite H0. simpl. rewrite H1. simpl. rewrite H2. simpl. eauto.
Qed.

(** X12.  [language] formats the first three items of its argument and
    no other: when each of them has a logo in the table, it returns one
    line for each, so three lines or as many as there are items,
    whatever follows the third. *)
Theorem language_first_three_only (data : list (json * float)) :
  Forall known (firstn 3 data) ->
  exists lines,
    language data = Ok lines /\
    List.length lines = Nat.min 3 (List.length data).
Proof. apply language_known. Qed.

Lemma language_first_three_only_witness :
  ~ known (JStr "Brainfuck", number 10) /\
  exists lines,
    language three_known_one_not = Ok lines /\
    List.length lines = Nat.min 3 (List.length three_known_one_not).
Proof.
  split.
  - intros [u Hu]. vm_compute in Hu. discriminate.
  - apply (language_first_three_only three_known_one_not).
    repeat constructor; eexists; vm_compute; reflexivity.
Defined.

(** X13.  The only exception [language] raises is KeyError, and it
    raises it exactly for a language, among the first three, that the
    table of logos does not have. *)
Theorem language_raises_for_unknown (data : list (json * float)) (e : exn) :
  language data = Err e ->
  e = KeyError /\ Exists (fun it => ~ known it) (firstn 3 data).
Proof.
  unfold language. intros H. apply map_result_Err in H.
  split.
  - apply Exists_exists in H. destruct H as [it [_ H]].
    apply language_line_Err in H. tauto.
  - eapply Exists_impl; [|exact H]. intros it Hit.
    apply language_line_Err in Hit. tauto.
Qed.

Lemma language_raises_for_unknown_witness :
  KeyError = KeyError /\
  Exists (fun it => ~ known it) (firstn 3 second_unknown).
Proof.
  apply (language_raises_for_unknown second_unknown KeyError).
  vm_compute. reflexivity.
Defined.

(** X14.  [main] calls [language] before it opens [model.md]: a
    language without logo among the first three ends the run with
    KeyError whether the model exists or not, and however few languages
    there are. *)
Theorem render_unknown_language_first (model : option string)
        (c f s : Z) (n : nat) (langs : list (json * float)) :
  Exists (fun it => ~ known it) (firstn 3 langs) ->
  render model (c, f, n, s, langs) = Failed (Python KeyError).
Proof.
  intros H. unfold render. rewrite (language_unknown langs H). reflexivity.
Qed.

Lemma render_unknown_language_first_witness :
  render None (0, 0, O, 0, [(JStr "Rust", number 100)]) = Failed (Python KeyError).
Proof.
  apply (render_unknown_language_first None 0 0 0 O [(JStr "Rust", number 100)]).
  apply Exists_cons_hd. intros [u Hu]. vm_compute in Hu. discriminate.
Defined.

(** X15.  With fewer than three languages, all of them with a logo,
    [main] does not write: it ends with FileNotFoundError when
    [model.md] is missing and with IndexError when it is there. *)
Theorem render_needs_three_languages (model : option string)
        (c f s : Z) (n : nat) (langs : list (json * float)) :
  (List.length langs < 3)%nat -> Forall known (firstn 3 langs) ->
  render model (c, f, n, s, langs) =
    match model with
    | None => Failed (FileNotFoundError "model.md")
    | Some _ => Failed IndexError
    end.
Proof.
  intros Hlen Hk. unfold render.
  destruct (language_known langs Hk) as [lang [HL Hl]]. rewrite HL.
  destruct model as [contenu|]; [|reflexivity].
  assert (Hlang : (List.length lang < 3)%nat) by lia.
  destruct lang as [|l0 [|l1 [|l2 lang]]]; simpl in Hlang; try lia; reflexivity.
Qed.

Lemma render_needs_three_languages_witness :
  render (Some known_model) (57, 1, 2%nat, 6, two_known) = Failed IndexError.
Proof.
  apply (render_needs_three_languages (Some known_model) 57 1 6 2 two_known).
  - simpl. lia.
  - repeat constructor; eexists; vm_compute; reflexivity.
Defined.

Section MainFacts.

Variable transport : nat -> request -> result json.
Variable all_contribs : json -> result request.

(** X16.  Without one of the two environment variables [main] raises
    its RuntimeError and sends no request. *)
Theorem main_requires_credentials (e : environment) (fuel : nat) :
  ACCESS_TOKEN e = None \/ GITHUB_ACTOR e = None ->
  main transport all_contribs e fuel =
    (Failed (RuntimeError msg_no_credentials), []).
Proof.
  unfold main. intros [H|H]; rewrite H.
  - reflexivity.
  - destruct (ACCESS_TOKEN e); reflexivity.
Qed.

(** X17.  [main] produces the text of [README.md] exactly when both
    environment variables are set, [getData] returns, its languages are
    at least three, the first three have a logo, and [model.md] can be
    read. *)
Theorem main_writes_exactly (e : environment) (fuel : nat) :
  (exists txt, fst (main transport all_contribs e fuel) = Written txt) <->
  (ACCESS_TOKEN e <> None /\ GITHUB_ACTOR e <> None /\ model_md e <> None /\
   exists c f n s langs w,
     getData transport all_contribs fuel world0 = (Return (c, f, n, s, langs), w) /\
     (3 <= List.length langs)%nat /\ Forall known (firstn 3 langs)).
Proof.
  unfold main. fold world0. split.
  - intros [txt H].
    destruct (ACCESS_TOKEN e) as [tok|]; [|discriminate].
    destruct (GITHUB_ACTOR e) as [user|]; [|discriminate].
    destruct (getData transport all_contribs fuel world0) as [[d|x|] w];
      try discriminate.
    destruct d as [[[[c f] n] s] langs]. cbn [fst] in H.
    apply render_Written in H. destruct H as [Hm [Hlen Hk]].
    split; [discriminate|]. split; [discriminate|]. split; [exact Hm|].
    exists c, f, n, s, langs, w. split; [reflexivity|split; assumption].
  - intros [Ht [Hu [Hm [c [f [n [s [langs [w [HG [Hlen Hk]]]]]]]]]]].
    destruct (ACCESS_TOKEN e) as [tok|]; [|congruence].
    destruct (GITHUB_ACTOR e) as [user|]; [|congruence].
    rewrite HG. cbn [fst].
    destruct (model_md e) as [contenu|]; [|congruence].
    apply render_writes; assumption.
Qed.

End MainFacts.

Lemma main_requires_credentials_witness :
  main whole_transport Model.all_contribs
       {| ACCESS_TOKEN := Some "token"; GITHUB_ACTOR := None;
          model_md := Some known_model |} 5 =
    (Failed (RuntimeError msg_no_credentials), []).
Proof.
  apply (main_requires_credentials whole_transport Model.all_contribs).
  right. reflexivity.
Defined.

(** A run that writes, with the three requests it sends; the same run
    without [model.md] sends them too, and fails only then. *)
Example main_writes_known_readme :
  main known_transport Model.all_contribs (credentials (Some known_model)) 5 =
    (Written known_readme,
     [ContribYears; AllContribs [JStr "2021"; JStr "2022"];
      ReposOverview None None]) /\
  main known_transport Model.all_contribs (credentials None) 5 =
    (Failed (FileNotFoundError "model.md"),
     [ContribYears; AllContribs [JStr "2021"; JStr "2022"];
      ReposOverview None None]).
Proof. split; vm_compute; reflexivity. Qed.

End ReportFacts.
